(** * Telegram birthday bot: roster store, birthday evaluator, daily job

  A shallow embedding of [src/people/people.service.ts] (the file-backed
  revision of [PeopleService]) and of the daily job of
  [src/bot/bot.service.ts], with the parts of the JavaScript runtime and of
  the dayjs library that these functions call.

  Conventions of the embedding.
  - A JavaScript string is a [string]; one [ascii] stands for one UTF-16
    code unit (code units 0..255).
  - Integral JavaScript numbers are [Z]; the fractional values computed by
    [diff] and [toFixed] are exact rationals ([Q]).  The ids are integral
    doubles, and the sum that makes a new id is rounded as a double.
  - A [Date] holds local civil fields; the offset between local time and
    UTC is taken to be constant, so that differences of time values are
    differences of local civil times.
  - [dayjs()] reads the wall clock; the reading is the explicit argument
    [now] of every function that calls it.
  - dayjs and its customParseFormat plugin are a dependency of the
    repository; the module [Dayjs] follows the code of dayjs 1.11 for the
    calls made here: [dayjs(s, 'DD.MM.YYYY', true)], [date], [month],
    [isValid], [add(1, 'month')] and [diff(d, 'year')].
  - Writes to [data/birthdays.json] and logger calls do not influence the
    in-memory roster or the control flow and are left out of the modules
    [People] and [Bot]; the module [Storage] adds the roster file, [Admin]
    the administrators and the commands [/add] and [/remove].

  The properties carry the numbers C1 to C10 of the claims of the
  specification that they settle; further properties of the code follow
  them, numbered X1 to X25. *)

From Stdlib Require Import ZArith QArith Qround List Bool Ascii String Lia Lqa.
Import ListNotations.

Open Scope string_scope.
Open Scope Z_scope.

(** ** JavaScript strings and numbers *)

Module JS.

Definition code (c : ascii) : Z := Z.of_N (N_of_ascii c).

(** [\d] of a regular expression without the unicode flag: [0-9]. *)
Definition is_digit (c : ascii) : bool :=
  (48 <=? code c) && (code c <=? 57).

Definition digit_value (c : ascii) : Z := code c - 48.

Definition digit_char (d : Z) : ascii := ascii_of_N (Z.to_N (48 + d)).

(** Unary plus on a string of decimal digits. *)
Fixpoint to_number_acc (acc : Z) (s : string) : Z :=
  match s with
  | EmptyString => acc
  | String c r => to_number_acc (10 * acc + digit_value c) r
  end.

Definition to_number (s : string) : Z := to_number_acc 0 s.

(** [String(n)] for an integral number. *)
Fixpoint digits_of (fuel : nat) (n : Z) : string :=
  match fuel with
  | O => EmptyString
  | S f =>
      if n <? 10 then String (digit_char n) EmptyString
      else digits_of f (n / 10) ++ String (digit_char (n mod 10)) EmptyString
  end.

Definition String_of (n : Z) : string :=
  if n <? 0 then String "-" (digits_of (S (Z.to_nat (Z.log2 (- n)))) (- n))
  else digits_of (S (Z.to_nat (Z.log2 n))) n.

(** [s.slice(n)] for [0 <= n]. *)
Fixpoint slice (n : nat) (s : string) : string :=
  match n, s with
  | O, _ => s
  | S n', String _ r => slice n' r
  | S _, EmptyString => EmptyString
  end.

(** [s.replace(pat, '')] with a string pattern: the first occurrence of
    [pat] is removed. *)
Fixpoint replace_first (s pat : string) : string :=
  if prefix pat s then slice (length pat) s
  else match s with
       | EmptyString => EmptyString
       | String c r => String c (replace_first r pat)
       end.

(** [toLowerCase] on code units 0..255: A-Z and the Latin-1 capitals. *)
Definition lower_char (c : ascii) : ascii :=
  let n := code c in
  if ((65 <=? n) && (n <=? 90))
     || ((192 <=? n) && (n <=? 222) && negb (n =? 215))
  then ascii_of_N (Z.to_N (n + 32)) else c.

Fixpoint toLowerCase (s : string) : string :=
  match s with
  | EmptyString => EmptyString
  | String c r => String (lower_char c) (toLowerCase r)
  end.

(** White space and line terminators among code units 0..255. *)
Definition is_space (c : ascii) : bool :=
  let n := code c in
  ((9 <=? n) && (n <=? 13)) || (n =? 32) || (n =? 160).

Fixpoint trimStart (s : string) : string :=
  match s with
  | EmptyString => EmptyString
  | String c r => if is_space c then trimStart r else s
  end.

Fixpoint trimEnd (s : string) : string :=
  match s with
  | EmptyString => EmptyString
  | String c r =>
      match trimEnd r with
      | EmptyString => if is_space c then EmptyString else String c EmptyString
      | r' => String c r'
      end
  end.

Definition trim (s : string) : string := trimEnd (trimStart s).

(** [String.prototype.padStart], as dayjs's [Utils.s] does it. *)
Fixpoint repeat_char (n : nat) (c : ascii) : string :=
  match n with O => EmptyString | S n' => String c (repeat_char n' c) end.

Definition padStart (n : Z) (len : nat) (pad : ascii) : string :=
  let s := String_of n in
  if (len <=? length s)%nat then s
  else repeat_char (len - length s) pad ++ s.

(** [===] on numbers that may be [NaN] ([None]). *)
Definition strict_eq (a b : option Z) : bool :=
  match a, b with
  | Some x, Some y => x =? y
  | _, _ => false
  end.

(** The sum of two integral numbers: the exact sum [n], rounded to the
    nearest double, a tie going to the even significand.  Up to [2^53] in
    absolute value every integer is a double; above, the doubles are the
    multiples of [2^(log2 |n| - 52)]. *)
Definition round_double (n : Z) : Z :=
  if Z.abs n <=? 9007199254740992 then n
  else
    let ulp := 2 ^ (Z.log2 (Z.abs n) - 52) in
    let q := n / ulp in
    let r := n mod ulp in
    if 2 * r <? ulp then q * ulp
    else if ulp <? 2 * r then (q + 1) * ulp
    else if Z.even q then q * ulp else (q + 1) * ulp.

(** [Array.prototype.findIndex]; [None] stands for [-1]. *)
Fixpoint findIndex {A : Type} (f : A -> bool) (l : list A) : option nat :=
  match l with
  | [] => None
  | x :: r => if f x then Some O else option_map S (findIndex f r)
  end.

(** [a.splice(i, 1)]. *)
Definition splice1 {A : Type} (i : nat) (l : list A) : list A :=
  firstn i l ++ skipn (S i) l.

(** [Number.prototype.toFixed(1)] of a non-negative number: [n] is the
    integer for which [n / 10 - x] is closest to zero, the larger one of
    two; the digits of [n] are left-padded to two and the point put before
    the last one. *)
Definition toFixed1 (x : Q) : string :=
  let n := Qfloor (x * inject_Z 10 + (1 # 2))%Q in
  String_of (n / 10) ++ "." ++ String_of (n mod 10).

End JS.

(** ** The [Date] object: local civil fields *)

Module JSDate.

(** [month] is zero-based as in JavaScript; [millis] is the time within the
    day (hours, minutes, seconds and milliseconds together). *)
Record DateTime : Type := mkDateTime
  { year : Z; month : Z; day : Z; millis : Z }.

Definition msPerDay : Z := 86400000.

Definition isLeap (y : Z) : bool :=
  ((y mod 4 =? 0) && negb (y mod 100 =? 0)) || (y mod 400 =? 0).

Definition daysInMonth (y m : Z) : Z :=
  match m with
  | 0 => 31 | 1 => if isLeap y then 29 else 28 | 2 => 31 | 3 => 30
  | 4 => 31 | 5 => 30 | 6 => 31 | 7 => 31 | 8 => 30 | 9 => 31 | 10 => 30
  | _ => 31
  end.

Definition daysBeforeMonth (y m : Z) : Z :=
  let l := if isLeap y then 1 else 0 in
  match m with
  | 0 => 0 | 1 => 31 | 2 => 59 + l | 3 => 90 + l | 4 => 120 + l
  | 5 => 151 + l | 6 => 181 + l | 7 => 212 + l | 8 => 243 + l
  | 9 => 273 + l | 10 => 304 + l | _ => 334 + l
  end.

(** ECMAScript [DayFromYear]. *)
Definition dayFromYear (y : Z) : Z :=
  365 * (y - 1970) + (y - 1969) / 4 - (y - 1901) / 100 + (y - 1601) / 400.

(** The time value of a [Date] ([valueOf], [getTime]). *)
Definition timeValue (t : DateTime) : Z :=
  (dayFromYear (year t) + daysBeforeMonth (year t) (month t) + day t - 1)
  * msPerDay + millis t.

(** A well-formed reading: a real calendar day and a time within it. *)
Definition wf (t : DateTime) : Prop :=
  0 <= year t /\ 0 <= month t <= 11
  /\ 1 <= day t <= daysInMonth (year t) (month t)
  /\ 0 <= millis t < msPerDay.

(** [new Date(y, M, d, ...)] maps the years 0..99 to 1900..1999. *)
Definition fullYear (y : Z) : Z :=
  if (0 <=? y) && (y <=? 99) then 1900 + y else y.

(** Days past the end of a month run over into the following months. *)
Fixpoint roll (fuel : nat) (y m d : Z) : Z * Z * Z :=
  match fuel with
  | O => (y, m, d)
  | S f =>
      if d <=? daysInMonth y m then (y, m, d)
      else if m =? 11 then roll f (y + 1) 0 (d - 31)
           else roll f y (m + 1) (d - daysInMonth y m)
  end.

(** [new Date(y, M, d, 0, 0, 0, 0)] for [1 <= d]: ECMAScript [MakeDay]
    takes the first of month [M mod 12] of year [y + floor (M / 12)] and
    adds [d - 1] days. *)
Definition makeDate (y M d : Z) : DateTime :=
  let '(y', m', d') := roll (Z.to_nat d) (fullYear y + M / 12) (M mod 12) d in
  mkDateTime y' m' d' 0.

End JSDate.

(** ** dayjs with the customParseFormat plugin *)

Module Dayjs.
Import JSDate.

(** A [Date]; [None] is the Invalid Date, whose fields read [NaN]. *)
Definition Date : Type := option DateTime.

(** A dayjs object: its [Date], [$d], and the [Date] from which [init()]
    took the fields [$y], [$M] and [$D].  The two differ after a strict
    rejection, which replaces [$d] and does not call [init()] again. *)
Record t : Type := mkDayjs
  { value : Date;      (* $d *)
    read : Date }.     (* what init() read into $y, $M, $D *)

(** [new Dayjs] on a [Date], [dayjs()] and [clone()]: [init()] reads
    [$d]. *)
Definition wrap (d : Date) : t := mkDayjs d d.

(** [isValid] looks at [$d]; [date], [month] and [year] return the
    fields. *)
Definition isValid (o : t) : bool :=
  match value o with Some _ => true | None => false end.

Definition date (o : t) : option Z := option_map day (read o).
Definition month (o : t) : option Z := option_map JSDate.month (read o).
Definition year (o : t) : option Z := option_map JSDate.year (read o).

(** [format('DD.MM.YYYY')]. *)
Definition format (o : t) : string :=
  match value o, read o with
  | Some _, Some x =>
      JS.padStart (day x) 2 "0" ++ "." ++
      JS.padStart (JSDate.month x + 1) 2 "0" ++ "." ++
      JS.padStart (JSDate.year x) 4 "0"
  | _, _ => "Invalid Date"
  end.

(** *** The parser that customParseFormat builds for a format *)

Inductive Field : Type := FDay | FMonth | FYear.

(** A format is cut into literal separators and numeric tokens; [DD] and
    [MM] carry the expression [\d\d], [YYYY] carries [\d{4}]. *)
Inductive Token : Type :=
| TLit (s : string)
| TNum (width : nat) (f : Field).

Definition tokens_DDMMYYYY : list Token :=
  [TNum 2 FDay; TLit "."; TNum 2 FMonth; TLit "."; TNum 4 FYear].

(** The parsed fields; a field that is still [undefined] reads 0, which
    the consumer below does not tell apart from a parsed 0. *)
Record Time : Type := mkTime { t_year : Z; t_month : Z; t_day : Z }.

Definition set_field (f : Field) (v : Z) (tm : Time) : Time :=
  match f with
  | FDay => mkTime (t_year tm) (t_month tm) v
  | FMonth => mkTime (t_year tm) v (t_day tm)
  | FYear => mkTime v (t_month tm) (t_day tm)
  end.

(** The first [n] characters, when they are all digits. *)
Fixpoint take_digits (n : nat) (s : string) : option string :=
  match n with
  | O => Some EmptyString
  | S n' =>
      match s with
      | String c r =>
          if JS.is_digit c then option_map (String c) (take_digits n' r)
          else None
      | EmptyString => None
      end
  end.

(** [/\d{n}/.exec(s)]: the leftmost run of [n] digits, or [null]. *)
Fixpoint exec_digits (n : nat) (s : string) : option string :=
  match take_digits n s with
  | Some v => Some v
  | None =>
      match s with
      | EmptyString => None
      | String _ r => exec_digits n r
      end
  end.

(** The loop of the parser: a literal advances [start]; a numeric token
    matches its expression against [input.slice(start)], stores the value
    and removes the first occurrence of the matched text from [input].
    [None]: [match] was [null] and reading [match[0]] threw. *)
Fixpoint run_parser (toks : list Token) (start : nat) (input : string)
    (tm : Time) : option Time :=
  match toks with
  | [] => Some tm
  | TLit l :: r => run_parser r (start + length l)%nat input tm
  | TNum w f :: r =>
      match exec_digits w (JS.slice start input) with
      | None => None
      | Some v =>
          run_parser r start (JS.replace_first input v)
            (set_field f (JS.to_number v) tm)
      end
  end.

Definition truthy (z : Z) : bool := negb (z =? 0).

(** [parseFormattedInput]: the parsed fields, completed from the clock,
    make a local [Date]; an exception of the parser is caught and gives
    the Invalid Date. *)
Definition parseFormattedInput (now : DateTime) (input : string) : Date :=
  match run_parser tokens_DDMMYYYY 0 input (mkTime 0 0 0) with
  | None => None
  | Some tm =>
      let d :=
        if truthy (t_day tm) then t_day tm
        else if negb (truthy (t_year tm)) && negb (truthy (t_month tm))
             then day now else 1 in
      let y := if truthy (t_year tm) then t_year tm else JSDate.year now in
      let M :=
        if negb (truthy (t_year tm) && negb (truthy (t_month tm)))
        then (if 0 <? t_month tm then t_month tm - 1 else JSDate.month now)
        else 0 in
      Some (makeDate y M d)
  end.

(** [dayjs(input, 'DD.MM.YYYY', true)]: the plugin stores the parsed date
    in [$d] and calls [init()]; in strict mode it then replaces [$d] by
    the Invalid Date when the date does not print back to the input.  The
    fields stay as [init()] set them. *)
Definition parse_strict (now : DateTime) (input : string) : t :=
  let o := wrap (parseFormattedInput now input) in
  if String.eqb input (format o) then o else mkDayjs None (read o).

(** *** Arithmetic *)

(** [a.add(n, 'month')]: the month is set on the first of the month and
    the day of month is then clamped to the length of the new month. *)
Definition add_month (a : DateTime) (n : Z) : DateTime :=
  let m := JSDate.month a + n in
  let y' := JSDate.year a + m / 12 in
  let m' := m mod 12 in
  mkDateTime y' m' (Z.min (day a) (daysInMonth y' m')) (millis a).

Definition monthDiff_core (a b : DateTime) : Q :=
  let wholeMonthDiff :=
    (JSDate.year b - JSDate.year a) * 12 + (JSDate.month b - JSDate.month a) in
  let anchor := add_month a wholeMonthDiff in
  let c := timeValue b - timeValue anchor <? 0 in
  let anchor2 := add_month a (wholeMonthDiff + (if c then -1 else 1)) in
  (- (inject_Z wholeMonthDiff
      + inject_Z (timeValue b - timeValue anchor)
        / inject_Z (if c then timeValue anchor - timeValue anchor2
                    else timeValue anchor2 - timeValue anchor)))%Q.

(** [Utils.m]: [if (a.date() < b.date()) return -monthDiff(b, a)]; in the
    recursive call the guard is false, so it is unfolded once here. *)
Definition monthDiff (a b : DateTime) : Q :=
  if day a <? day b then (- monthDiff_core b a)%Q else monthDiff_core a b.

(** [Utils.a]. *)
Definition absFloor (n : Q) : Z :=
  if Qle_bool 0 n then Qfloor n else Qceiling n.

(** [this.diff(that, 'year')]: [that] is cloned, so that its fields are
    read from its [$d] again; [this] is [dayjs()], whose fields are those
    of its [$d].  With an Invalid Date every intermediate value is [NaN]
    and [monthDiff] ends in [NaN || 0]. *)
Definition diff_year (this that : t) : Z :=
  match value this, value (wrap (value that)) with
  | Some a, Some b => absFloor (monthDiff a b / inject_Z 12)%Q
  | _, _ => 0
  end.

End Dayjs.

(** ** [PeopleService] *)

Module People.
Import JSDate.

Record Person : Type := mkPerson
  { id : Z;
    name : string;
    birthDate : string;                 (* DD.MM.YYYY *)
    telegramUsername : option string }.

(** [Omit<Person, 'id'>]. *)
Record NewPerson : Type := mkNewPerson
  { new_name : string;
    new_birthDate : string;
    new_telegramUsername : option string }.

(** The errors thrown by [addPersonFromTelegramWithValidation], one
    constructor per message. *)
Inductive AddError : Type :=
| BadDateFormat                 (* the date does not match the expression *)
| BadDate                       (* the date is not valid in strict mode *)
| UsernameMissing               (* no username was given *)
| UsernameEmpty                 (* the cleaned username is empty *)
| AlreadyListed (clean : string). (* the username is already in the list *)

Definition getAllPeople (people : list Person) : list Person := people.

Definition getPersonById (people : list Person) (i : Z) : option Person :=
  find (fun person => id person =? i) people.

(** The predicate of the filter in [getPeopleWithBirthdayToday]. *)
Definition isBirthdayOn (now : DateTime) (person : Person) : bool :=
  let today := Dayjs.wrap (Some now) in
  let birth := Dayjs.parse_strict now (birthDate person) in
  JS.strict_eq (Dayjs.date birth) (Dayjs.date today)
  && JS.strict_eq (Dayjs.month birth) (Dayjs.month today).

Definition getPeopleWithBirthdayToday (now : DateTime)
    (people : list Person) : list Person :=
  filter (isBirthdayOn now) people.

(** [people.length > 0 ? Math.max(...people.map(p => p.id)) + 1 : 1]; the
    sum is a sum of doubles. *)
Definition next_id (people : list Person) : Z :=
  match map id people with
  | [] => 1
  | i :: ids => JS.round_double (fold_left Z.max ids i + 1)
  end.

(** [addPerson]: the new roster and the stored person. *)
Definition addPerson (people : list Person) (person : NewPerson)
    : list Person * Person :=
  let newPerson :=
    mkPerson (next_id people) (new_name person) (new_birthDate person)
      (new_telegramUsername person) in
  ((people ++ [newPerson])%list, newPerson).

(** [removePerson]: the new roster and the returned flag. *)
Definition removePerson (people : list Person) (i : Z)
    : list Person * bool :=
  match JS.findIndex (fun person => id person =? i) people with
  | Some index => (JS.splice1 index people, true)
  | None => (people, false)
  end.

(** [/^\d{2}\.\d{2}\.\d{4}$/.test(s)]. *)
Definition dateRegex_test (s : string) : bool :=
  match s with
  | String d1 (String d2 (String p1 (String m1 (String m2 (String p2
      (String y1 (String y2 (String y3 (String y4 EmptyString))))))))) =>
      Ascii.eqb p1 "." && Ascii.eqb p2 "."
      && forallb JS.is_digit [d1; d2; m1; m2; y1; y2; y3; y4]
  | _ => false
  end.

Definition cleanUsername (telegramUsername : string) : string :=
  JS.trim (JS.replace_first telegramUsername "@").

(** [p.telegramUsername?.toLowerCase() === clean.toLowerCase()]. *)
Definition sameUsername (clean : string) (p : Person) : bool :=
  match telegramUsername p with
  | Some u => String.eqb (JS.toLowerCase u) (JS.toLowerCase clean)
  | None => false
  end.

(** [addPersonFromTelegramWithValidation]: a thrown error leaves the
    roster as it was. *)
Definition addPersonFromTelegramWithValidation (now : DateTime)
    (people : list Person) (name birthDate : string)
    (telegramUsername : option string)
    : list Person * (Person + AddError) :=
  if negb (dateRegex_test birthDate) then (people, inr BadDateFormat)
  else if negb (Dayjs.isValid (Dayjs.parse_strict now birthDate))
  then (people, inr BadDate)
  else
    match telegramUsername with
    | None => (people, inr UsernameMissing)
    | Some EmptyString => (people, inr UsernameMissing)
    | Some u =>
        let clean := cleanUsername u in
        if (length clean =? 0)%nat then (people, inr UsernameEmpty)
        else if existsb (sameUsername clean) people
        then (people, inr (AlreadyListed clean))
        else
          let '(people', p) :=
            addPerson people (mkNewPerson name birthDate (Some clean)) in
          (people', inl p)
    end.

(** [removePersonByName]; [None] is the thrown "not found" error. *)
Definition removePersonByName (people : list Person) (n : string)
    : option (list Person * bool) :=
  match find (fun p => String.eqb (JS.toLowerCase (name p))
                         (JS.toLowerCase n)) people with
  | None => None
  | Some person => Some (removePerson people (id person))
  end.

Record MonthStat : Type := mkMonthStat { stat_month : Z; stat_count : Z }.

Record Stats : Type := mkStats
  { total : Z;
    thisMonth : Z;
    nextMonth : Z;
    monthlyStats : list MonthStat;
    averagePerMonth : string }.

(** The number of people whose parsed birth date has month [m] (from 0). *)
Definition countMonth (now : DateTime) (people : list Person)
    (m : option Z) : Z :=
  Z.of_nat (List.length
    (filter (fun p =>
       JS.strict_eq (Dayjs.month (Dayjs.parse_strict now (birthDate p))) m)
       people)).

Definition getBirthdayStats (now : DateTime) (people : list Person)
    : Stats :=
  let total := Z.of_nat (List.length people) in
  {| total := total;
     thisMonth := countMonth now people (Dayjs.month (Dayjs.wrap (Some now)));
     nextMonth :=
       countMonth now people
         (Dayjs.month (Dayjs.wrap (Some (Dayjs.add_month now 1))));
     monthlyStats :=
       map (fun i => mkMonthStat (i + 1) (countMonth now people (Some i)))
         (map Z.of_nat (seq 0 12));
     averagePerMonth := JS.toFixed1 (inject_Z total / inject_Z 12)%Q |}.

Definition getPersonAge (now : DateTime) (person : Person) : Z :=
  let birth := Dayjs.parse_strict now (birthDate person) in
  let today := Dayjs.wrap (Some now) in
  Dayjs.diff_year today birth.

End People.

(** ** [BotService]: the daily job *)

Module Bot.
Import JSDate People.

(** The congratulation text is a fixed template around the mention and
    the age; it is represented by these two values. *)
Record Congratulation : Type := mkCongratulation
  { mention : string; age : Z }.

(** The calls to the Telegram transport. *)
Inductive Call : Type :=
| SendPhoto (chatId : string) (image : string) (caption : Congratulation)
| SendMessage (chatId : string) (text : Congratulation).

Inductive Error : Type := SendFailed (c : Call).

(** An [async] computation: it returns, throws, reads the clock, draws a
    random index below [n], or awaits a transport call whose promise is
    fulfilled ([true]) or rejected ([false]). *)
Inductive Async (A : Type) : Type :=
| Return (a : A)
| Throw (e : Error)
| Clock (k : DateTime -> Async A)
| Random (n : nat) (k : nat -> Async A)
| Await (c : Call) (k : bool -> Async A).

Arguments Return {A} a.
Arguments Throw {A} e.
Arguments Clock {A} k.
Arguments Random {A} n k.
Arguments Await {A} c k.

Fixpoint bind {A B : Type} (p : Async A) (f : A -> Async B) : Async B :=
  match p with
  | Return a => f a
  | Throw e => Throw e
  | Clock k => Clock (fun now => bind (k now) f)
  | Random n k => Random n (fun i => bind (k i) f)
  | Await c k => Await c (fun ok => bind (k ok) f)
  end.

(** [try { p } catch (e) { h e }]. *)
Fixpoint try_catch {A : Type} (p : Async A) (h : Error -> Async A)
    : Async A :=
  match p with
  | Return a => Return a
  | Throw e => h e
  | Clock k => Clock (fun now => try_catch (k now) h)
  | Random n k => Random n (fun i => try_catch (k i) h)
  | Await c k => Await c (fun ok => try_catch (k ok) h)
  end.

Notation "x <- p ;; q" := (bind p (fun x => q))
  (at level 61, p at next level, right associativity).
Notation "p ;; q" := (bind p (fun _ => q))
  (at level 61, right associativity).

(** [await this.bot.<call>]: a rejected promise is rethrown. *)
Definition await (c : Call) : Async unit :=
  Await c (fun ok => if ok then Return tt else Throw (SendFailed c)).

Definition birthdayImages : list string :=
  [ "https://media.giphy.com/media/3o7TKUtmGfJWg1t0wA/giphy.gif";
    "https://media.giphy.com/media/3o7aD5sa1j2oHcCJhi/giphy.gif";
    "https://media.giphy.com/media/l4FGkXHbV1k1sD4Hu/giphy.gif";
    "https://media.giphy.com/media/3o7aD2saalBwwftBIY/giphy.gif";
    "https://media.giphy.com/media/3oFzmme8JFS1Y8wPqe/giphy.gif" ].

(** [person.telegramUsername ? `@${person.telegramUsername}` : person.name]:
    the empty string is falsy. *)
Definition mentionOf (person : Person) : string :=
  match telegramUsername person with
  | Some (String c r) => String "@" (String c r)
  | _ => name person
  end.

Definition congratulationsMessage (now : DateTime) (person : Person)
    : Congratulation :=
  mkCongratulation (mentionOf person) (getPersonAge now person).

Definition sendBirthdayCongratulations (chatId : string) (person : Person)
    : Async unit :=
  Clock (fun now =>
    let message := congratulationsMessage now person in
    try_catch
      (Random (List.length birthdayImages) (fun i =>
         let randomImage := nth i birthdayImages "" in
         await (SendPhoto chatId randomImage message)))
      (fun _ =>
         try_catch
           (await (SendMessage chatId message))
           (fun _ => Return tt))).

(** [for (const person of l) { await body(person) }]. *)
Fixpoint for_of (l : list Person) (body : Person -> Async unit)
    : Async unit :=
  match l with
  | [] => Return tt
  | person :: r => body person ;; for_of r body
  end.

(** [checkBirthdays], for the roster [people] that the service holds when
    the job fires. *)
Definition checkBirthdays (chatId : string) (people : list Person)
    : Async unit :=
  Clock (fun now =>
    let birthdayPeople := getPeopleWithBirthdayToday now people in
    if (List.length birthdayPeople =? 0)%nat then Return tt
    else for_of birthdayPeople (sendBirthdayCongratulations chatId)).

(** *** Running one invocation to its end

    The environment answers the effects in the order in which they are
    performed: the [n]-th effect of a run reads [env_clock n], draws
    [env_random n] or has its call settled by [env_outcome n]. *)
Record Env : Type := mkEnv
  { env_clock : nat -> DateTime;
    env_random : nat -> nat;
    env_outcome : nat -> bool }.

Fixpoint run {A : Type} (env : Env) (p : Async A) (n : nat)
    (trace : list Call) : (A + Error) * nat * list Call :=
  match p with
  | Return a => (inl a, n, trace)
  | Throw e => (inr e, n, trace)
  | Clock k => run env (k (env_clock env n)) (S n) trace
  | Random m k => run env (k (env_random env n mod m)%nat) (S n) trace
  | Await c k => run env (k (env_outcome env n)) (S n) (trace ++ [c])%list
  end.

(** *** The job under the scheduler

    Between two awaits an invocation runs without interruption; at an
    await it is suspended with its call in flight.  The cron trigger calls
    [checkBirthdays] on every fire; the service has no field that records
    a run in progress. *)
Fixpoint advance {A : Type} (now : DateTime) (rnd : nat) (p : Async A)
    : Async A :=
  match p with
  | Clock k => advance now rnd (k now)
  | Random m k => advance now rnd (k (rnd mod m)%nat)
  | _ => p
  end.

(** A suspended invocation: the call in flight and what follows it. *)
Definition Pending : Type := (Call * (bool -> Async unit))%type.

Record Job : Type := mkJob
  { pending : list Pending;      (* invocations in progress *)
    issued : list Call }.        (* calls made so far, oldest first *)

Definition idle : Job := mkJob [] [].

(** One synchronous stretch of an invocation, up to its next await. *)
Definition resume (now : DateTime) (rnd : nat) (p : Async unit)
    (others : list Pending) (j : Job) : Job :=
  match advance now rnd p with
  | Await c k => mkJob (others ++ [(c, k)])%list (issued j ++ [c])%list
  | _ => mkJob others (issued j)
  end.

(** The cron trigger fires. *)
Definition fire (chatId : string) (people : list Person) (now : DateTime)
    (rnd : nat) (j : Job) : Job :=
  resume now rnd (checkBirthdays chatId people) (pending j) j.

(** The call in flight of the [i]-th invocation in progress settles. *)
Definition settle (i : nat) (ok : bool) (now : DateTime) (rnd : nat)
    (j : Job) : Job :=
  match nth_error (pending j) i with
  | Some (_, k) => resume now rnd (k ok) (JS.splice1 i (pending j)) j
  | None => j
  end.

End Bot.

(** ** The vocabulary of the specification *)

Module Spec.
Import JSDate People Bot.

Definition number2 (a b : ascii) : Z :=
  10 * JS.digit_value a + JS.digit_value b.

Definition number4 (a b c d : ascii) : Z :=
  1000 * JS.digit_value a + 100 * JS.digit_value b
  + 10 * JS.digit_value c + JS.digit_value d.

(** Day [d] of month [m] (from 1) of year [y] exists in the calendar. *)
Definition realDate (d m y : Z) : bool :=
  (1 <=? m) && (m <=? 12) && (1 <=? d) && (d <=? daysInMonth y (m - 1)).

(** A string of the form DD.MM.YYYY that denotes a real calendar date,
    read as (day, month, year). *)
Definition parseDate (s : string) : option (Z * Z * Z) :=
  match s with
  | String d1 (String d2 (String p1 (String m1 (String m2 (String p2
      (String y1 (String y2 (String y3 (String y4 EmptyString))))))))) =>
      if Ascii.eqb p1 "." && Ascii.eqb p2 "."
         && forallb JS.is_digit [d1; d2; m1; m2; y1; y2; y3; y4] then
        let d := number2 d1 d2 in
        let m := number2 m1 m2 in
        let y := number4 y1 y2 y3 y4 in
        if realDate d m y then Some (d, m, y) else None
      else None
  | _ => None
  end.

(** The two-digit and four-digit renderings of a number. *)
Definition two (n : Z) : string :=
  String (JS.digit_char (n / 10))
    (String (JS.digit_char (n mod 10)) EmptyString).

Definition four (n : Z) : string :=
  String (JS.digit_char (n / 1000))
    (String (JS.digit_char (n / 100 mod 10))
       (String (JS.digit_char (n / 10 mod 10))
          (String (JS.digit_char (n mod 10)) EmptyString))).

(** DD.MM.YYYY for day [d], month [m] (from 1) and year [y]. *)
Definition showDate (d m y : Z) : string :=
  two d ++ "." ++ two m ++ "." ++ four y.

Fixpoint allDigits (s : string) : bool :=
  match s with
  | EmptyString => true
  | String c r => JS.is_digit c && allDigits r
  end.

(** The date that the strict parser makes of a string: the years below
    100 are not accepted. *)
Definition strictDate (s : string) : option DateTime :=
  match parseDate s with
  | Some (d, m, y) =>
      if 100 <=? y then Some (mkDateTime y (m - 1) d 0) else None
  | None => None
  end.

(** The person has a valid birth date in month [m] (from 1). *)
Definition bornInMonth (m : Z) (p : Person) : bool :=
  match strictDate (birthDate p) with
  | Some t => month t + 1 =? m
  | None => false
  end.

Definition countBorn (m : Z) (people : list Person) : Z :=
  Z.of_nat (List.length (filter (bornInMonth m) people)).

Definition hasBirthMonth (p : Person) : bool :=
  match strictDate (birthDate p) with Some _ => true | None => false end.

Definition months : list Z := [1; 2; 3; 4; 5; 6; 7; 8; 9; 10; 11; 12].

(** A reference time: noon of day [d] of month [m] (from 0) of year [y]. *)
Definition noon (y m d : Z) : DateTime := mkDateTime y m d (12 * 3600000).

(** The anniversary of day [d] of month [m] (from 0) in the year of [now]
    is the day [d] of that month or, when the month is shorter, its last
    day; [now] lies before it. *)
Definition beforeAnniversary (now : DateTime) (d m : Z) : bool :=
  (month now <? m)
  || ((month now =? m)
      && (day now <? Z.min d (daysInMonth (year now) m))).

(** The day of [now] is the day of [birth] or a later day. *)
Definition notBefore (now birth : DateTime) : Prop :=
  year birth < year now
  \/ (year birth = year now
      /\ (month birth < month now
          \/ (month birth = month now /\ day birth <= day now))).

Definition completedYears (now birth : DateTime) : Z :=
  year now - year birth
  - (if beforeAnniversary now (day birth) (month birth) then 1 else 0).

(** *** Sequences of roster operations *)

Inductive Op : Type :=
| Add (candidate : NewPerson)
| Remove (i : Z).

Definition apply (people : list Person) (op : Op) : list Person :=
  match op with
  | Add candidate => fst (addPerson people candidate)
  | Remove i => fst (removePerson people i)
  end.

Definition applyAll (people : list Person) (ops : list Op) : list Person :=
  fold_left apply ops people.

(** The ids are safe integers: below [2^53] in absolute value. *)
Definition safeIds (people : list Person) : Prop :=
  forall p, In p people -> Z.abs (id p) < 9007199254740992.

(** The ids are safe integers and stay so under [n] more additions. *)
Definition room (n : nat) (people : list Person) : Prop :=
  Z.of_nat n < 9007199254740992
  /\ forall p, In p people ->
       Z.abs (id p) < 9007199254740992
       /\ id p + Z.of_nat n < 9007199254740992.

(** A username stripped of its ['@'] characters, all of them. *)
Fixpoint withoutAts (s : string) : string :=
  match s with
  | EmptyString => EmptyString
  | String c r =>
      if Ascii.eqb c "@" then withoutAts r else String c (withoutAts r)
  end.

(** *** The calls that one fire owes

    For each person to congratulate, in order: the image variant once and,
    when that fails, the text variant once.  A person takes the effects
    [n] (clock), [n + 1] (random image), [n + 2] (image send) and, after a
    failure, [n + 3] (text send). *)
Fixpoint owedCalls (env : Env) (chatId : string) (n : nat)
    (l : list Person) : list Call :=
  match l with
  | [] => []
  | person :: r =>
      let message := congratulationsMessage (env_clock env n) person in
      let image :=
        nth (env_random env (n + 1) mod 5)%nat birthdayImages "" in
      if env_outcome env (n + 2)
      then SendPhoto chatId image message
             :: owedCalls env chatId (n + 3) r
      else SendPhoto chatId image message
             :: SendMessage chatId message
             :: owedCalls env chatId (n + 4) r
  end.

Definition isPhoto (c : Call) : bool :=
  match c with SendPhoto _ _ _ => true | SendMessage _ _ => false end.

Definition mentioned (c : Call) : string :=
  match c with
  | SendPhoto _ _ m => mention m
  | SendMessage _ m => mention m
  end.

(** Round-half-up to tenths of [total / 12], as a count of tenths. *)
Definition tenthsOfAverage (total : Z) : Z := (10 * total + 6) / 12.

End Spec.

(** ** More of the JavaScript strings *)

Module JSText.

(** [s.startsWith(p)]. *)
Definition startsWith (s p : string) : bool := prefix p s.

(** [s.includes(p)]. *)
Fixpoint includes (s p : string) : bool :=
  if prefix p s then true
  else match s with
       | EmptyString => false
       | String _ r => includes r p
       end.

(** [s.split(sep)] with a separator of one code unit; the result is never
    empty. *)
Fixpoint split (sep : ascii) (s : string) : list string :=
  match s with
  | EmptyString => [EmptyString]
  | String c r =>
      if Ascii.eqb c sep then EmptyString :: split sep r
      else match split sep r with
           | w :: ws => String c w :: ws
           | [] => [String c EmptyString]
           end
  end.

(** The code units that [.] of a regular expression does not match. *)
Definition is_line_terminator (c : ascii) : bool :=
  (JS.code c =? 10) || (JS.code c =? 13).

(** The longest run that [.*] matches at the start of [s]. *)
Fixpoint take_line (s : string) : string :=
  match s with
  | EmptyString => EmptyString
  | String c r =>
      if is_line_terminator c then EmptyString else String c (take_line r)
  end.

(** [re.exec(text)] for the expression [/cmd (.+)/], where [cmd] holds the
    command and the space after it: the first capture group of the
    leftmost match, [None] when there is no match. *)
Fixpoint exec_argument (cmd text : string) : option string :=
  let here :=
    if prefix cmd text then take_line (JS.slice (length cmd) text)
    else EmptyString in
  match here with
  | String _ _ => Some here
  | EmptyString =>
      match text with
      | EmptyString => None
      | String _ r => exec_argument cmd r
      end
  end.

End JSText.

(** ** [PeopleService]: search *)

Module PeopleSearch.
Import People.

Definition findPeopleByName (people : list Person) (searchTerm : string)
    : list Person :=
  filter (fun p =>
            JSText.includes (JS.toLowerCase (name p))
              (JS.toLowerCase searchTerm)) people.

End PeopleSearch.

(** ** [BotService]: the administrators and their commands *)

Module Admin.
Import JSDate People.

(** [onModuleInit]: [admins.split(',').map(a => a.trim().toLowerCase())],
    where [admins] is the setting [ADMIN_USERNAMES], or [''] without it. *)
Definition parseAdmins (setting : option string) : list string :=
  let admins := match setting with
                | Some (String c r) => String c r
                | _ => EmptyString
                end in
  map (fun a => JS.toLowerCase (JS.trim a)) (JSText.split "," admins).

(** [isAdmin]: the sender's username may be absent. *)
Definition isAdmin (adminUsernames : list string) (username : option string)
    : bool :=
  match username with
  | None => false
  | Some EmptyString => false
  | Some u => existsb (String.eqb (JS.toLowerCase u)) adminUsernames
  end.

(** The replies of the [/add] handler, one constructor per message. *)
Inductive AddReply : Type :=
| AddAdminOnly                          (* the sender is no administrator *)
| AddUsage                              (* fewer than two arguments *)
| AddBadDateFormat                      (* the first argument is no date *)
| AddNeedsAt                            (* the second does not start with @ *)
| AddDone (telegramUsername : string)   (* the person was added *)
| AddRefused (e : AddError).            (* the service threw [e] *)

(** The handler of [/add], called with the sender's username and the text
    [match[1]] that follows the command.  The library calls a handler with
    the result of a successful [exec], so the branch for a missing [match]
    is not reached. *)
Definition onAdd (now : DateTime) (adminUsernames : list string)
    (people : list Person) (username : option string) (match1 : string)
    : list Person * AddReply :=
  if negb (isAdmin adminUsernames username) then (people, AddAdminOnly)
  else
    let args := JSText.split " " match1 in
    if (List.length args <? 2)%nat then (people, AddUsage)
    else
      let birthDate := nth 0 args EmptyString in
      let telegramUsername := nth 1 args EmptyString in
      if negb (dateRegex_test birthDate) then (people, AddBadDateFormat)
      else if (length telegramUsername =? 0)%nat
              || negb (JSText.startsWith telegramUsername "@")
      then (people, AddNeedsAt)
      else
        match addPersonFromTelegramWithValidation now people
                (JS.replace_first telegramUsername "@") birthDate
                (Some telegramUsername) with
        | (people', inl _) => (people', AddDone telegramUsername)
        | (people', inr e) => (people', AddRefused e)
        end.

(** The replies of the [/remove] handler. *)
Inductive RemoveReply : Type :=
| RemoveAdminOnly                       (* the sender is no administrator *)
| RemoveNotListed (target : string)     (* nobody has this username *)
| RemoveDone (target : string).         (* the person was removed *)

(** The handler of [/remove].  The person found is in the roster, so
    [removePerson] finds an index and its result is truthy. *)
Definition onRemove (adminUsernames : list string) (people : list Person)
    (username : option string) (match1 : string)
    : list Person * RemoveReply :=
  if negb (isAdmin adminUsernames username) then (people, RemoveAdminOnly)
  else
    let targetUsername := JS.replace_first (JS.trim match1) "@" in
    match find (sameUsername targetUsername) (getAllPeople people) with
    | None => (people, RemoveNotListed targetUsername)
    | Some person =>
        (fst (removePerson people (id person)), RemoveDone targetUsername)
    end.

(** A text message reaches the handler of a command when the expression
    of the command matches it; [None]: the handler is not called. *)
Definition addCommand (now : DateTime) (adminUsernames : list string)
    (people : list Person) (username : option string) (text : string)
    : option (list Person * AddReply) :=
  option_map (onAdd now adminUsernames people username)
    (JSText.exec_argument "/add " text).

Definition removeCommand (adminUsernames : list string)
    (people : list Person) (username : option string) (text : string)
    : option (list Person * RemoveReply) :=
  option_map (onRemove adminUsernames people username)
    (JSText.exec_argument "/remove " text).

End Admin.

(** ** [PeopleService]: the roster file *)

Module Storage.
Import People.

(** The data directory and the roster file in it. *)
Record Disk : Type := mkDisk
  { dataDir : bool;                 (* the directory exists *)
    dataFile : option string }.     (* the content of the file, if any *)

(** What the file system does with the calls of one operation. *)
Record Faults : Type := mkFaults
  { mkdir_fails : bool;
    read_fails : bool;
    write_fails : bool }.

Section Codec.

(** [JSON.stringify(people, null, 2)] and [JSON.parse], which throws
    ([None]) on a text that is not JSON.  A text that parses to something
    other than an array of persons is outside this model. *)
Variable stringify : list Person -> string.
Variable parse : string -> option (list Person).

(** [if (!fs.existsSync(dataDir)) fs.mkdirSync(dataDir, ...)]; [None]:
    [mkdirSync] throws. *)
Definition ensureDir (io : Faults) (d : Disk) : option Disk :=
  if dataDir d then Some d
  else if mkdir_fails io then None
  else Some (mkDisk true (dataFile d)).

(** [saveDataToFile]: an error is logged and not rethrown. *)
Definition saveDataToFile (io : Faults) (d : Disk) (people : list Person)
    : Disk :=
  match ensureDir io d with
  | None => d
  | Some d1 =>
      if write_fails io then d1
      else mkDisk (dataDir d1) (Some (stringify people))
  end.

(** [loadDataFromFile]: the disk afterwards and the roster in memory. *)
Definition loadDataFromFile (io : Faults) (d : Disk)
    : Disk * list Person :=
  match ensureDir io d with
  | None => (d, [])
  | Some d1 =>
      match dataFile d1 with
      | Some fileContent =>
          if read_fails io then (d1, [])
          else match parse fileContent with
               | Some people => (d1, people)
               | None => (d1, [])
               end
      | None => (saveDataToFile io d1 [], [])
      end
  end.

(** [addPerson] and [removePerson] of the service that keeps the file. *)
Definition addPerson (io : Faults) (d : Disk) (people : list Person)
    (person : NewPerson) : Disk * list Person * Person :=
  let '(people', newPerson) := People.addPerson people person in
  (saveDataToFile io d people', people', newPerson).

Definition removePerson (io : Faults) (d : Disk) (people : list Person)
    (i : Z) : Disk * list Person * bool :=
  match JS.findIndex (fun person => id person =? i) people with
  | Some index =>
      let people' := JS.splice1 index people in
      (saveDataToFile io d people', people', true)
  | None => (d, people, false)
  end.

End Codec.

End Storage.

(** ** The first revision of [addPerson] *)

Module FirstRevision.

(** The numbers that an id can be there: an integer or [-Infinity]. *)
Inductive Num : Type :=
| NegInfinity
| Int (z : Z).

Definition num_max (a b : Num) : Num :=
  match a, b with
  | NegInfinity, _ => b
  | _, NegInfinity => a
  | Int x, Int y => Int (Z.max x y)
  end.

Definition num_succ (a : Num) : Num :=
  match a with
  | NegInfinity => NegInfinity
  | Int x => Int (JS.round_double (x + 1))
  end.

Definition num_eq (a b : Num) : bool :=
  match a, b with
  | NegInfinity, NegInfinity => true
  | Int x, Int y => x =? y
  | _, _ => false
  end.

Record Person : Type := mkPerson
  { id : Num;
    name : string;
    birthDate : string;
    telegramUsername : option string }.

(** [Math.max(...ids)]: [-Infinity] without arguments. *)
Definition Math_max (ids : list Num) : Num :=
  fold_left num_max ids NegInfinity.

(** [addPerson] with [id: Math.max(...this.people.map(p => p.id)) + 1]. *)
Definition addPerson (people : list Person) (person : People.NewPerson)
    : list Person * Person :=
  let newPerson :=
    mkPerson (num_succ (Math_max (map id people)))
      (People.new_name person) (People.new_birthDate person)
      (People.new_telegramUsername person) in
  ((people ++ [newPerson])%list, newPerson).

Definition getPersonById (people : list Person) (i : Num) : option Person :=
  find (fun person => num_eq (id person) i) people.

Definition removePerson (people : list Person) (i : Num)
    : list Person * bool :=
  match JS.findIndex (fun person => num_eq (id person) i) people with
  | Some index => (JS.splice1 index people, true)
  | None => (people, false)
  end.

(** A person of the later revisions, whose id is an integer. *)
Definition of_person (p : People.Person) : Person :=
  mkPerson (Int (People.id p)) (People.name p) (People.birthDate p)
    (People.telegramUsername p).

(** Additions, one after the other. *)
Definition addAll (people : list Person) (cs : list People.NewPerson)
    : list Person :=
  fold_left (fun l c => fst (addPerson l c)) cs people.

End FirstRevision.
(** ** The first revision of the daily job: text only *)

Module TextOnly.
Import JSDate People Bot.

Section Service.

(** The [PeopleService] of that revision: [getPeopleWithBirthdayToday] and
    [getPersonAge], each for the clock reading it makes. *)
Variable birthdayPeopleAt : DateTime -> list Person -> list Person.
Variable ageAt : DateTime -> Person -> Z.

Definition sendBirthdayCongratulations (chatId : string) (person : Person)
    : Async unit :=
  Clock (fun now =>
    let congratulationsMessage :=
      mkCongratulation (mentionOf person) (ageAt now person) in
    try_catch
      (await (SendMessage chatId congratulationsMessage))
      (fun _ => Return tt)).

Definition checkBirthdays (chatId : string) (people : list Person)
    : Async unit :=
  Clock (fun now =>
    let birthdayPeople := birthdayPeopleAt now people in
    if (List.length birthdayPeople =? 0)%nat then Return tt
    else for_of birthdayPeople (sendBirthdayCongratulations chatId)).

(** The calls that one fire owes: one text for each person, who takes the
    effects [n] (clock) and [n + 1] (send). *)
Fixpoint owedTexts (env : Env) (chatId : string) (n : nat)
    (l : list Person) : list Call :=
  match l with
  | [] => []
  | person :: r =>
      SendMessage chatId
        (mkCongratulation (mentionOf person) (ageAt (env_clock env n) person))
      :: owedTexts env chatId (n + 2) r
  end.

End Service.

End TextOnly.

(** ** Further vocabulary for the properties *)

Module Vocabulary.
Import JSDate People.

(** No code unit of [s] is [c]. *)
Fixpoint free_of (c : ascii) (s : string) : bool :=
  match s with
  | EmptyString => true
  | String d r => negb (Ascii.eqb d c) && free_of c r
  end.

(** No code unit of [s] is white space or a line terminator. *)
Fixpoint no_space (s : string) : bool :=
  match s with
  | EmptyString => true
  | String d r => negb (JS.is_space d) && no_space r
  end.

(** The username of a person as the duplicate check compares it. *)
Definition handle (p : Person) : string :=
  match telegramUsername p with
  | Some u => JS.toLowerCase u
  | None => EmptyString
  end.

(** A roster as the validated additions build it. *)
Definition tidy (people : list Person) : Prop :=
  NoDup (map id people)
  /\ NoDup (map handle people)
  /\ forall p, In p people ->
       (exists u, telegramUsername p = Some u /\ u <> EmptyString
                  /\ JS.trim u = u)
       /\ Spec.strictDate (birthDate p) <> None.

(** The requests that change the roster: a validated addition made at the
    time [now], a removal by id and a removal by name. *)
Inductive Request : Type :=
| Add (now : DateTime) (name birthDate : string)
    (telegramUsername : option string)
| Remove (i : Z)
| RemoveByName (n : string).

Definition serve (people : list Person) (r : Request) : list Person :=
  match r with
  | Add now n b u => fst (addPersonFromTelegramWithValidation now people n b u)
  | Remove i => fst (removePerson people i)
  | RemoveByName n =>
      match removePersonByName people n with
      | Some result => fst result
      | None => people
      end
  end.

Definition serveAll (people : list Person) (rs : list Request)
    : list Person :=
  fold_left serve rs people.

Definition timely (r : Request) : Prop :=
  match r with
  | Add now _ _ _ => wf now
  | _ => True
  end.

End Vocabulary.

(** * Properties *)

Import JSDate People Bot.

(** ** The roster *)

Section Roster.

Lemma fold_left_max_le (l : list Z) (a x : Z) :
  x <= a -> x <= fold_left Z.max l a.
Proof.
  revert a. induction l as [|b l IH]; intros a H; simpl; [exact H|].
  apply IH. lia.
Qed.

Lemma fold_left_max_ge (l : list Z) (a x : Z) :
  In x l -> x <= fold_left Z.max l a.
Proof.
  revert a. induction l as [|b l IH]; intros a H; simpl; [destruct H|].
  destruct H as [-> | H]; [apply fold_left_max_le; lia | now apply IH].
Qed.

Lemma fold_left_max_in (l : list Z) (a : Z) :
  fold_left Z.max l a = a \/ In (fold_left Z.max l a) l.
Proof.
  revert a. induction l as [|b l IH]; intros a; simpl; [now left|].
  destruct (IH (Z.max a b)) as [E | E].
  - rewrite E. destruct (Z.max_spec a b) as [[_ ->] | [_ ->]]; auto.
  - right. now right.
Qed.

Lemma round_double_safe (n : Z) :
  Z.abs n <= 9007199254740992 -> JS.round_double n = n.
Proof.
  intros H. unfold JS.round_double.
  destruct (Z.leb_spec (Z.abs n) 9007199254740992); [reflexivity | lia].
Qed.

(** On safe ids the sum is exact. *)
Lemma next_id_exact (people : list Person) :
  Spec.safeIds people ->
  next_id people
  = match map id people with
    | [] => 1
    | i :: ids => fold_left Z.max ids i + 1
    end.
Proof.
  intros Hs. unfold next_id.
  destruct people as [|q people]; [reflexivity|]. cbn [map].
  apply round_double_safe.
  destruct (fold_left_max_in (map id people) (id q)) as [E | E].
  - rewrite E. pose proof (Hs q (or_introl eq_refl)). lia.
  - apply in_map_iff in E. destruct E as (r & <- & Hr).
    pose proof (Hs r (or_intror Hr)). lia.
Qed.

(** The id that [addPerson] assigns exceeds every id of the roster. *)
Lemma next_id_above (people : list Person) (p : Person) :
  Spec.safeIds people -> In p people -> id p < next_id people.
Proof.
  intros Hs H. rewrite (next_id_exact people Hs).
  assert (Hin : In (id p) (map id people)) by now apply in_map.
  destruct (map id people) as [|i ids]; [destruct Hin|].
  destruct Hin as [E | Hin].
  - pose proof (fold_left_max_le ids i (id p)). lia.
  - pose proof (fold_left_max_ge ids i (id p) Hin). lia.
Qed.

Lemma next_id_max (people : list Person) :
  Spec.safeIds people ->
  people <> [] ->
  exists m, In m (map id people)
            /\ (forall x, In x (map id people) -> x <= m)
            /\ next_id people = m + 1.
Proof.
  intros Hs Hne. rewrite (next_id_exact people Hs).
  destruct people as [|q people]; [congruence|]. simpl.
  exists (fold_left Z.max (map id people) (id q)). split; [|split; [|reflexivity]].
  - destruct (fold_left_max_in (map id people) (id q)) as [-> | H]; auto.
  - intros x [<- | H].
    + apply fold_left_max_le. lia.
    + now apply fold_left_max_ge.
Qed.

Lemma find_id_none (people : list Person) (i : Z) :
  (forall p, In p people -> id p <> i) -> getPersonById people i = None.
Proof.
  unfold getPersonById. induction people as [|q l IH]; intros H; simpl; [reflexivity|].
  destruct (Z.eqb_spec (id q) i) as [E | _].
  - exfalso. apply (H q); [now left | exact E].
  - apply IH. intros p Hp. apply H. now right.
Qed.

Lemma find_id_last (people : list Person) (q : Person) :
  (forall p, In p people -> id p <> id q) ->
  getPersonById (people ++ [q]) (id q) = Some q.
Proof.
  unfold getPersonById. induction people as [|r l IH]; intros H; simpl.
  - now rewrite Z.eqb_refl.
  - destruct (Z.eqb_spec (id r) (id q)) as [E | _].
    + exfalso. apply (H r); [now left | exact E].
    + apply IH. intros p Hp. apply H. now right.
Qed.

Lemma findIndex_last (people : list Person) (q : Person) :
  (forall p, In p people -> id p <> id q) ->
  JS.findIndex (fun person => id person =? id q) (people ++ [q])
  = Some (List.length people).
Proof.
  induction people as [|r l IH]; intros H; simpl.
  - now rewrite Z.eqb_refl.
  - destruct (Z.eqb_spec (id r) (id q)) as [E | _].
    + exfalso. apply (H r); [now left | exact E].
    + rewrite IH; [reflexivity|]. intros p Hp. apply H. now right.
Qed.

Lemma splice1_last {A : Type} (l : list A) (x : A) :
  JS.splice1 (List.length l) (l ++ [x]) = l.
Proof.
  unfold JS.splice1. induction l as [|a l IH]; simpl; [reflexivity|].
  f_equal. exact IH.
Qed.

Lemma findIndex_some {A : Type} (f : A -> bool) (l : list A) (i : nat) :
  JS.findIndex f l = Some i ->
  exists x, nth_error l i = Some x /\ f x = true
            /\ In x l /\ S (List.length (JS.splice1 i l)) = List.length l
            /\ (forall y, In y (JS.splice1 i l) -> In y l).
Proof.
  revert i. induction l as [|a l IH]; intros i; simpl; [discriminate|].
  destruct (f a) eqn:Fa.
  - intros [= <-]. exists a. unfold JS.splice1. simpl. repeat split; auto.
  - destruct (JS.findIndex f l) as [j|] eqn:E; [|discriminate].
    simpl. intros [= <-]. destruct (IH j eq_refl) as (x & Hn & Hf & Hi & Hl & Hs).
    exists x. unfold JS.splice1 in *. simpl. repeat split; auto.
    intros y [-> | Hy]; [now left | right; now apply Hs].
Qed.

Lemma findIndex_none {A : Type} (f : A -> bool) (l : list A) :
  JS.findIndex f l = None <-> existsb f l = false.
Proof.
  induction l as [|a l IH]; simpl; [tauto|].
  destruct (f a); simpl; [split; discriminate|].
  destruct (JS.findIndex f l); simpl.
  - split; [discriminate|]. intros H. apply IH in H. discriminate.
  - split; [intros _; now apply IH | reflexivity].
Qed.

End Roster.

(** ** Digits and numerals *)

Section Digits.

Lemma is_digit_char (c : ascii) :
  JS.is_digit c = true ->
  c = JS.digit_char (JS.digit_value c) /\ 0 <= JS.digit_value c <= 9.
Proof.
  destruct c as [b0 b1 b2 b3 b4 b5 b6 b7].
  destruct b0, b1, b2, b3, b4, b5, b6, b7; intros H;
    try discriminate H; vm_compute; repeat split; discriminate.
Qed.

Lemma digit_char_value (k : Z) :
  0 <= k <= 9 ->
  JS.digit_value (JS.digit_char k) = k /\ JS.is_digit (JS.digit_char k) = true.
Proof.
  intros H.
  assert (E : k = 0 \/ k = 1 \/ k = 2 \/ k = 3 \/ k = 4 \/ k = 5 \/ k = 6
              \/ k = 7 \/ k = 8 \/ k = 9) by lia.
  repeat (destruct E as [-> | E]; [now vm_compute|]). subst. now vm_compute.
Qed.

Lemma digit_not_dot (c : ascii) : JS.is_digit c = true -> c <> "."%char.
Proof. intros H ->. discriminate H. Qed.

Lemma below_in_seq (n m : Z) :
  0 <= n < m -> In n (map Z.of_nat (seq 0 (Z.to_nat m))).
Proof.
  intros H. apply in_map_iff. exists (Z.to_nat n). split; [lia|].
  apply in_seq. lia.
Qed.

Lemma padStart_two (n : Z) : 0 <= n < 100 -> JS.padStart n 2 "0" = Spec.two n.
Proof.
  intros H.
  assert (T : forallb (fun k => String.eqb (JS.padStart k 2 "0") (Spec.two k))
                (map Z.of_nat (seq 0 (Z.to_nat 100))) = true)
    by (vm_compute; reflexivity).
  rewrite forallb_forall in T. apply String.eqb_eq, T, below_in_seq. lia.
Qed.

Lemma padStart_four (n : Z) :
  0 <= n < 10000 -> JS.padStart n 4 "0" = Spec.four n.
Proof.
  intros H.
  assert (T : forallb (fun k => String.eqb (JS.padStart k 4 "0") (Spec.four k))
                (map Z.of_nat (seq 0 (Z.to_nat 10000))) = true)
    by (vm_compute; reflexivity).
  rewrite forallb_forall in T. apply String.eqb_eq, T, below_in_seq. lia.
Qed.

Lemma number2_two (n : Z) :
  0 <= n < 100 ->
  exists a b, Spec.two n = String a (String b EmptyString)
              /\ JS.is_digit a = true /\ JS.is_digit b = true
              /\ Spec.number2 a b = n.
Proof.
  intros H. exists (JS.digit_char (n / 10)), (JS.digit_char (n mod 10)).
  assert (Ha : 0 <= n / 10 <= 9) by (Z.div_mod_to_equations; lia).
  assert (Hb : 0 <= n mod 10 <= 9) by (Z.div_mod_to_equations; lia).
  destruct (digit_char_value _ Ha) as [Va Da], (digit_char_value _ Hb) as [Vb Db].
  repeat split; auto. unfold Spec.number2. rewrite Va, Vb.
  Z.div_mod_to_equations; lia.
Qed.

Lemma number4_four (n : Z) :
  0 <= n < 10000 ->
  exists a b c d,
    Spec.four n = String a (String b (String c (String d EmptyString)))
    /\ JS.is_digit a = true /\ JS.is_digit b = true
    /\ JS.is_digit c = true /\ JS.is_digit d = true
    /\ Spec.number4 a b c d = n.
Proof.
  intros H.
  exists (JS.digit_char (n / 1000)), (JS.digit_char (n / 100 mod 10)),
    (JS.digit_char (n / 10 mod 10)), (JS.digit_char (n mod 10)).
  assert (Ha : 0 <= n / 1000 <= 9) by (Z.div_mod_to_equations; lia).
  assert (Hb : 0 <= n / 100 mod 10 <= 9) by (Z.div_mod_to_equations; lia).
  assert (Hc : 0 <= n / 10 mod 10 <= 9) by (Z.div_mod_to_equations; lia).
  assert (Hd : 0 <= n mod 10 <= 9) by (Z.div_mod_to_equations; lia).
  destruct (digit_char_value _ Ha) as [Va Da], (digit_char_value _ Hb) as [Vb Db],
    (digit_char_value _ Hc) as [Vc Dc], (digit_char_value _ Hd) as [Vd Dd].
  repeat split; auto. unfold Spec.number4. rewrite Va, Vb, Vc, Vd.
  Z.div_mod_to_equations; lia.
Qed.

Lemma two_number2 (a b : ascii) :
  JS.is_digit a = true -> JS.is_digit b = true ->
  Spec.two (Spec.number2 a b) = String a (String b EmptyString)
  /\ 0 <= Spec.number2 a b < 100.
Proof.
  intros Ha Hb.
  destruct (is_digit_char a Ha) as [Ea Ra], (is_digit_char b Hb) as [Eb Rb].
  unfold Spec.two, Spec.number2. split; [|lia].
  replace ((10 * JS.digit_value a + JS.digit_value b) / 10)
    with (JS.digit_value a) by (Z.div_mod_to_equations; lia).
  replace ((10 * JS.digit_value a + JS.digit_value b) mod 10)
    with (JS.digit_value b) by (Z.div_mod_to_equations; lia).
  now rewrite <- Ea, <- Eb.
Qed.

Lemma four_number4 (a b c d : ascii) :
  JS.is_digit a = true -> JS.is_digit b = true ->
  JS.is_digit c = true -> JS.is_digit d = true ->
  Spec.four (Spec.number4 a b c d)
  = String a (String b (String c (String d EmptyString)))
  /\ 0 <= Spec.number4 a b c d < 10000.
Proof.
  intros Ha Hb Hc Hd.
  destruct (is_digit_char a Ha) as [Ea Ra], (is_digit_char b Hb) as [Eb Rb],
    (is_digit_char c Hc) as [Ec Rc], (is_digit_char d Hd) as [Ed Rd].
  unfold Spec.four, Spec.number4. split; [|lia].
  set (n := 1000 * JS.digit_value a + 100 * JS.digit_value b
            + 10 * JS.digit_value c + JS.digit_value d).
  replace (n / 1000) with (JS.digit_value a)
    by (subst n; Z.div_mod_to_equations; lia).
  replace (n / 100 mod 10) with (JS.digit_value b)
    by (subst n; Z.div_mod_to_equations; lia).
  replace (n / 10 mod 10) with (JS.digit_value c)
    by (subst n; Z.div_mod_to_equations; lia).
  replace (n mod 10) with (JS.digit_value d)
    by (subst n; Z.div_mod_to_equations; lia).
  now rewrite <- Ea, <- Eb, <- Ec, <- Ed.
Qed.

End Digits.

(** ** [String(n)] in general *)

Section Numerals.

Lemma length_app (s r : string) :
  String.length (s ++ r) = (String.length s + String.length r)%nat.
Proof. induction s as [|c s IH]; simpl; [reflexivity | now rewrite IH]. Qed.

Lemma allDigits_app (s r : string) :
  Spec.allDigits (s ++ r) = Spec.allDigits s && Spec.allDigits r.
Proof.
  induction s as [|c s IH]; simpl; [reflexivity|].
  now rewrite IH, andb_assoc.
Qed.

Lemma digits_of_allDigits (fuel : nat) (n : Z) :
  0 <= n -> Spec.allDigits (JS.digits_of fuel n) = true.
Proof.
  revert n. induction fuel as [|f IH]; intros n Hn; simpl; [reflexivity|].
  destruct (Z.ltb_spec n 10) as [Hlt | Hge]; simpl.
  - destruct (digit_char_value n) as [_ ->]; [lia | reflexivity].
  - rewrite allDigits_app, IH by (apply Z.div_pos; lia). simpl.
    destruct (digit_char_value (n mod 10)) as [_ ->]; [|reflexivity].
    pose proof (Z.mod_pos_bound n 10). lia.
Qed.

Lemma digits_of_head (fuel : nat) (n : Z) :
  1 <= n < 2 ^ Z.of_nat fuel ->
  exists c r, JS.digits_of fuel n = String c r /\ 1 <= JS.digit_value c.
Proof.
  revert n. induction fuel as [|f IH]; intros n Hn.
  - simpl in Hn. lia.
  - simpl. destruct (Z.ltb_spec n 10) as [Hlt | Hge].
    + exists (JS.digit_char n), EmptyString. split; [reflexivity|].
      destruct (digit_char_value n) as [-> _]; lia.
    + destruct (IH (n / 10)) as (c & r & E & Hc).
      * rewrite Nat2Z.inj_succ, Z.pow_succ_r in Hn by lia.
        split; [apply Z.div_le_lower_bound; lia|].
        apply Z.div_lt_upper_bound; lia.
      * rewrite E. simpl. eauto.
Qed.

Lemma digits_of_length (k : nat) (fuel : nat) (n : Z) :
  10 ^ Z.of_nat k <= n < 2 ^ Z.of_nat fuel ->
  (k < String.length (JS.digits_of fuel n))%nat.
Proof.
  revert fuel n. induction k as [|k IH]; intros fuel n Hn.
  - change (10 ^ Z.of_nat 0) with 1 in Hn.
    destruct (digits_of_head fuel n) as (c & r & -> & _); [lia|].
    simpl. lia.
  - rewrite Nat2Z.inj_succ, Z.pow_succ_r in Hn by lia.
    assert (0 < 10 ^ Z.of_nat k) by (apply Z.pow_pos_nonneg; lia).
    destruct fuel as [|f]; [change (2 ^ Z.of_nat 0) with 1 in Hn; lia|].
    simpl. destruct (Z.ltb_spec n 10) as [Hlt | Hge]; [lia|].
    rewrite length_app. simpl.
    assert (k < String.length (JS.digits_of f (n / 10)))%nat; [|lia].
    apply IH. rewrite Nat2Z.inj_succ, Z.pow_succ_r in Hn by lia. split.
    + apply Z.div_le_lower_bound; lia.
    + apply Z.div_lt_upper_bound; lia.
Qed.

Lemma String_of_nonneg (n : Z) :
  0 <= n -> JS.String_of n = JS.digits_of (S (Z.to_nat (Z.log2 n))) n.
Proof.
  intros H. unfold JS.String_of. now destruct (Z.ltb_spec n 0); [lia|].
Qed.

Lemma log2_fuel (n : Z) : 0 <= n -> n < 2 ^ Z.of_nat (S (Z.to_nat (Z.log2 n))).
Proof.
  intros H. rewrite Nat2Z.inj_succ, Z2Nat.id by apply Z.log2_nonneg.
  destruct (Z.eq_dec n 0) as [-> | Hne]; [reflexivity|].
  apply Z.log2_spec. lia.
Qed.

(** From 10000 on a numeral has at least five digits, the first not 0;
    [padStart] leaves it as it is. *)
Lemma long_numeral (n : Z) :
  10000 <= n ->
  exists c1 c2 c3 c4 c5 r,
    JS.padStart n 4 "0"
    = String c1 (String c2 (String c3 (String c4 (String c5 r))))
    /\ JS.is_digit c1 = true /\ JS.is_digit c2 = true
    /\ JS.is_digit c3 = true /\ JS.is_digit c4 = true
    /\ 1 <= JS.digit_value c1.
Proof.
  intros H. unfold JS.padStart.
  rewrite String_of_nonneg by lia.
  pose proof (log2_fuel n ltac:(lia)) as Hf.
  set (fuel := S (Z.to_nat (Z.log2 n))) in *.
  pose proof (digits_of_length 4 fuel n
                ltac:(change (10 ^ Z.of_nat 4) with 10000; lia)) as Hl.
  pose proof (digits_of_allDigits fuel n ltac:(lia)) as Hd.
  destruct (digits_of_head fuel n ltac:(lia)) as (c1 & r & E & Hc).
  rewrite E in *.
  destruct r as [|c2 [|c3 [|c4 [|c5 r]]]]; simpl in Hl; try lia.
  simpl in Hd. repeat (apply andb_prop in Hd; destruct Hd as [? Hd]).
  exists c1, c2, c3, c4, c5, r. simpl. auto 10.
Qed.

End Numerals.

(** ** The parser of customParseFormat on DD.MM.YYYY *)

Section Parser.

Lemma prefix_refl (s r : string) : prefix s (s ++ r) = true.
Proof.
  induction s as [|c s IH]; simpl; [now destruct r|].
  destruct (ascii_dec c c); [exact IH | congruence].
Qed.

Lemma take_digits_some (n : nat) (s v : string) :
  Dayjs.take_digits n s = Some v ->
  Spec.allDigits v = true /\ String.length v = n /\ exists r, s = v ++ r.
Proof.
  revert s v. induction n as [|n IH]; intros s v; simpl.
  - intros [= <-]. repeat split. now exists s.
  - destruct s as [|c s]; [discriminate|].
    destruct (JS.is_digit c) eqn:Dc; [|discriminate].
    destruct (Dayjs.take_digits n s) as [w|] eqn:E; [|discriminate].
    intros [= <-]. destruct (IH s w E) as (Hd & Hl & r & ->).
    simpl. rewrite Dc, Hd, Hl. repeat split. now exists r.
Qed.

Lemma exec_digits_some (n : nat) (s v : string) :
  Dayjs.exec_digits n s = Some v ->
  Spec.allDigits v = true /\ String.length v = n.
Proof.
  revert v. induction s as [|c s IH]; intros v; simpl.
  - destruct (Dayjs.take_digits n EmptyString) eqn:E; [|discriminate].
    intros [= <-]. now destruct (take_digits_some _ _ _ E) as (? & ? & _).
  - destruct (Dayjs.take_digits n (String c s)) eqn:E.
    + intros [= <-]. now destruct (take_digits_some _ _ _ E) as (? & ? & _).
    + apply IH.
Qed.

Lemma to_number_acc_bounds (s : string) (acc : Z) :
  Spec.allDigits s = true -> 0 <= acc ->
  acc * 10 ^ Z.of_nat (String.length s) <= JS.to_number_acc acc s
  < (acc + 1) * 10 ^ Z.of_nat (String.length s).
Proof.
  revert acc. induction s as [|c s IH]; intros acc Hd Ha;
    cbn [JS.to_number_acc String.length].
  - change (10 ^ Z.of_nat 0) with 1. lia.
  - simpl in Hd. apply andb_prop in Hd. destruct Hd as [Hc Hd].
    destruct (is_digit_char c Hc) as [_ Rc].
    specialize (IH (10 * acc + JS.digit_value c) Hd ltac:(lia)).
    rewrite Nat2Z.inj_succ, Z.pow_succ_r by lia.
    assert (0 < 10 ^ Z.of_nat (String.length s)) by (apply Z.pow_pos_nonneg; lia).
    nia.
Qed.

Lemma exec_digits_number (n : nat) (s v : string) :
  Dayjs.exec_digits n s = Some v ->
  0 <= JS.to_number v < 10 ^ Z.of_nat n.
Proof.
  intros H. destruct (exec_digits_some _ _ _ H) as [Hd <-].
  pose proof (to_number_acc_bounds v 0 Hd ltac:(lia)). unfold JS.to_number. lia.
Qed.

Lemma exec_digits_four (a b c d : ascii) (r : string) :
  JS.is_digit a = true -> JS.is_digit b = true ->
  JS.is_digit c = true -> JS.is_digit d = true ->
  Dayjs.exec_digits 4 (String a (String b (String c (String d r))))
  = Some (String a (String b (String c (String d EmptyString)))).
Proof. intros Ha Hb Hc Hd. simpl. now rewrite Ha, Hb, Hc, Hd. Qed.

(** On a string that begins with two digits, a point, two digits and a
    point, the parser reads the day and the month there and looks for the
    year in what follows. *)
Lemma run_parser_prefix (a b c e : ascii) (ys : string) :
  JS.is_digit a = true -> JS.is_digit b = true ->
  JS.is_digit c = true -> JS.is_digit e = true ->
  Dayjs.run_parser Dayjs.tokens_DDMMYYYY 0
    (String a (String b (String "." (String c (String e (String "." ys))))))
    (Dayjs.mkTime 0 0 0)
  = match Dayjs.exec_digits 4 ys with
    | None => None
    | Some v =>
        Some (Dayjs.mkTime (JS.to_number v) (Spec.number2 c e)
                (Spec.number2 a b))
    end.
Proof.
  intros Ha Hb Hc He.
  unfold Dayjs.tokens_DDMMYYYY.
  cbn [Dayjs.run_parser JS.slice Dayjs.exec_digits Dayjs.take_digits option_map].
  rewrite Ha, Hb.
  cbn [option_map JS.replace_first prefix String.length JS.slice].
  destruct (ascii_dec a a) as [_|]; [|congruence].
  destruct (ascii_dec b b) as [_|]; [|congruence].
  cbn [Nat.add String.length JS.slice Dayjs.exec_digits Dayjs.take_digits option_map].
  rewrite Hc, He.
  cbn [option_map JS.replace_first prefix String.length JS.slice].
  destruct (ascii_dec c ".") as [E|_]; [now apply digit_not_dot in E|].
  destruct (ascii_dec c c) as [_|]; [|congruence].
  destruct (ascii_dec e e) as [_|]; [|congruence].
  cbn [Nat.add String.length JS.slice Dayjs.run_parser].
  destruct (Dayjs.exec_digits 4 ys) as [v|]; reflexivity.
Qed.

End Parser.

(** ** The [Date] constructor *)

Section DateConstructor.

Lemma daysInMonth_bounds (y m : Z) : 28 <= daysInMonth y m <= 31.
Proof.
  unfold daysInMonth. destruct (isLeap y);
    destruct m as [|p|p]; try lia;
    repeat (destruct p as [p|p|]; try lia).
Qed.

Lemma daysInMonth_december (y : Z) : daysInMonth y 11 = 31.
Proof. reflexivity. Qed.

Lemma fullYear_ge (y : Z) : 0 <= y -> 100 <= fullYear y.
Proof.
  intros H. unfold fullYear.
  destruct (Z.leb_spec 0 y); destruct (Z.leb_spec y 99); cbn [andb]; lia.
Qed.

Lemma fullYear_id (y : Z) : 100 <= y -> fullYear y = y.
Proof.
  intros H. unfold fullYear.
  destruct (Z.leb_spec 0 y); destruct (Z.leb_spec y 99); cbn [andb]; lia.
Qed.

Lemma roll_normal (fuel : nat) (y m d : Z) :
  0 <= m <= 11 -> 1 <= d <= Z.of_nat fuel + 28 ->
  let '(y', m', d') := roll fuel y m d in
  0 <= m' <= 11 /\ 1 <= d' <= daysInMonth y' m' /\ y <= y'.
Proof.
  revert y m d. induction fuel as [|f IH]; intros y m d Hm Hd.
  - simpl. pose proof (daysInMonth_bounds y m). lia.
  - cbn [roll]. pose proof (daysInMonth_bounds y m) as B.
    destruct (Z.leb_spec d (daysInMonth y m)) as [Hle | Hgt]; [lia|].
    destruct (Z.eqb_spec m 11) as [-> | Hne].
    + rewrite daysInMonth_december in Hgt.
      specialize (IH (y + 1) 0 (d - 31) ltac:(lia) ltac:(lia)).
      destruct (roll f (y + 1) 0 (d - 31)) as [[y' m'] d']. lia.
    + specialize (IH y (m + 1) (d - daysInMonth y m) ltac:(lia) ltac:(lia)).
      destruct (roll f y (m + 1) (d - daysInMonth y m)) as [[y' m'] d']. lia.
Qed.

Lemma roll_same_year (fuel : nat) (y m d : Z) :
  0 <= m <= 11 -> 1 <= d <= 31 -> fst (fst (roll fuel y m d)) = y.
Proof.
  intros Hm Hd. destruct fuel as [|f]; [reflexivity|]. cbn [roll].
  pose proof (daysInMonth_bounds y m) as B.
  destruct (Z.leb_spec d (daysInMonth y m)) as [Hle | Hgt]; [reflexivity|].
  destruct (Z.eqb_spec m 11) as [-> | Hne].
  - rewrite daysInMonth_december in Hgt. lia.
  - destruct f as [|f]; [reflexivity|]. cbn [roll].
    pose proof (daysInMonth_bounds y (m + 1)) as B'.
    destruct (Z.leb_spec (d - daysInMonth y m) (daysInMonth y (m + 1)));
      [reflexivity | lia].
Qed.

(** A constructed [Date] is a real calendar day at midnight. *)
Lemma makeDate_normal (y M d : Z) :
  1 <= d ->
  0 <= month (makeDate y M d) <= 11
  /\ 1 <= day (makeDate y M d)
     <= daysInMonth (year (makeDate y M d)) (month (makeDate y M d))
  /\ millis (makeDate y M d) = 0
  /\ fullYear y + M / 12 <= year (makeDate y M d).
Proof.
  intros Hd. unfold makeDate.
  pose proof (Z.mod_pos_bound M 12 eq_refl) as Hm.
  pose proof (roll_normal (Z.to_nat d) (fullYear y + M / 12) (M mod 12) d
                ltac:(lia) ltac:(lia)) as R.
  destruct (roll (Z.to_nat d) (fullYear y + M / 12) (M mod 12) d)
    as [[y' m'] d'].
  cbn [year month day millis]. lia.
Qed.

Lemma makeDate_real (y M d : Z) :
  0 <= M <= 11 -> 1 <= d <= daysInMonth (fullYear y) M ->
  makeDate y M d = mkDateTime (fullYear y) M d 0.
Proof.
  intros HM Hd. unfold makeDate.
  rewrite Z.div_small, Z.mod_small, Z.add_0_r by lia.
  destruct (Z.to_nat d) as [|f] eqn:E; [lia|]. cbn [roll].
  now destruct (Z.leb_spec d (daysInMonth (fullYear y) M)); [|lia].
Qed.

Lemma makeDate_year (y M d : Z) :
  0 <= M <= 11 -> 1 <= d <= 31 -> year (makeDate y M d) = fullYear y.
Proof.
  intros HM Hd. unfold makeDate.
  rewrite Z.div_small, Z.mod_small, Z.add_0_r by lia.
  pose proof (roll_same_year (Z.to_nat d) (fullYear y) M d HM Hd) as R.
  now destruct (roll (Z.to_nat d) (fullYear y) M d) as [[y' m'] d'].
Qed.

End DateConstructor.

(** ** Strict parsing of DD.MM.YYYY *)

Section StrictParsing.

Variable now : DateTime.
Hypothesis now_wf : wf now.

Lemma run_parser_fields (s : string) (tm : Dayjs.Time) :
  Dayjs.run_parser Dayjs.tokens_DDMMYYYY 0 s (Dayjs.mkTime 0 0 0) = Some tm ->
  0 <= Dayjs.t_year tm < 10000 /\ 0 <= Dayjs.t_month tm < 100
  /\ 0 <= Dayjs.t_day tm < 100.
Proof.
  unfold Dayjs.tokens_DDMMYYYY. cbn [Dayjs.run_parser].
  destruct (Dayjs.exec_digits 2 _) as [v1|] eqn:E1; [|discriminate].
  destruct (Dayjs.exec_digits 2 _) as [v2|] eqn:E2 in |- *; [|discriminate].
  destruct (Dayjs.exec_digits 4 _) as [v3|] eqn:E3 in |- *; [|discriminate].
  intros [= <-]. cbn.
  apply exec_digits_number in E1, E2, E3.
  change (10 ^ Z.of_nat 2) with 100 in *.
  change (10 ^ Z.of_nat 4) with 10000 in *. lia.
Qed.

(** The date that [parseFormattedInput] builds is a real calendar day at
    midnight, in the year 100 or later. *)
Lemma parseFormattedInput_normal (t : DateTime) (s : string) :
  Dayjs.parseFormattedInput now s = Some t ->
  0 <= month t <= 11 /\ 1 <= day t <= daysInMonth (year t) (month t)
  /\ millis t = 0 /\ 100 <= year t.
Proof.
  destruct now_wf as (Hy & Hm & Hd & _). unfold Dayjs.parseFormattedInput.
  destruct (Dayjs.run_parser _ _ _ _) as [tm|] eqn:R; [|discriminate].
  destruct (run_parser_fields _ _ R) as (Ry & Rm & Rd).
  intros [= <-].
  match goal with |- context [makeDate ?y ?M ?d] =>
    assert (Hd' : 1 <= d);
    [| assert (HM : 0 <= M); [| assert (HY : 0 <= y);
       [| pose proof (makeDate_normal y M d Hd') as N;
          pose proof (fullYear_ge y HY);
          pose proof (Z.div_pos M 12 HM ltac:(lia)); lia ]]]
  end.
  - unfold Dayjs.truthy.
    destruct (Z.eqb_spec (Dayjs.t_day tm) 0); cbv beta iota delta [negb];
      [|lia].
    destruct (_ && _); lia.
  - unfold Dayjs.truthy.
    destruct (negb (_ && _)); [|lia].
    destruct (Z.ltb_spec 0 (Dayjs.t_month tm)); lia.
  - unfold Dayjs.truthy.
    destruct (Z.eqb_spec (Dayjs.t_year tm) 0); cbv beta iota delta [negb]; lia.
Qed.

Lemma format_normal (t : DateTime) :
  0 <= month t <= 11 -> 1 <= day t <= 31 ->
  exists a b c e,
    Dayjs.format (Dayjs.wrap (Some t))
    = String a (String b (String "." (String c (String e (String "."
        (JS.padStart (year t) 4 "0"))))))
    /\ JS.is_digit a = true /\ JS.is_digit b = true
    /\ JS.is_digit c = true /\ JS.is_digit e = true
    /\ Spec.number2 a b = day t /\ Spec.number2 c e = month t + 1.
Proof.
  intros Hm Hd. unfold Dayjs.format, Dayjs.wrap.
  cbn [Dayjs.value Dayjs.read].
  rewrite !padStart_two by lia.
  destruct (number2_two (day t)) as (a & b & -> & Ha & Hb & Hab); [lia|].
  destruct (number2_two (month t + 1)) as (c & e & -> & Hc & He & Hce); [lia|].
  exists a, b, c, e. cbn. auto 10.
Qed.

Lemma parse_strict_sound (t : DateTime) (s : string) :
  Dayjs.value (Dayjs.parse_strict now s) = Some t ->
  Spec.strictDate s = Some t.
Proof.
  unfold Dayjs.parse_strict.
  destruct (Dayjs.parseFormattedInput now s) as [t'|] eqn:P;
    [|now destruct (String.eqb _ _)].
  destruct (String.eqb_spec s (Dayjs.format (Dayjs.wrap (Some t'))))
    as [E | _]; [|discriminate].
  cbn [Dayjs.value Dayjs.wrap]. intros [= ->].
  destruct (parseFormattedInput_normal _ _ P) as (Hm & Hd & Hms & Hy).
  pose proof (daysInMonth_bounds (year t) (month t)) as B.
  destruct (format_normal t Hm ltac:(lia))
    as (a & b & c & e & F & Ha & Hb & Hc & He & Hab & Hce).
  rewrite F in E. clear F.
  unfold Dayjs.parseFormattedInput in P. rewrite E in P.
  rewrite (run_parser_prefix a b c e _ Ha Hb Hc He) in P.
  destruct (Z.lt_ge_cases (year t) 10000) as [Hlt | Hge].
  - rewrite padStart_four in E by lia.
    destruct (number4_four (year t)) as (y1 & y2 & y3 & y4 & Fy & H1 & H2 & H3 & H4 & Hn);
      [lia|].
    rewrite Fy in E. subst s. unfold Spec.strictDate, Spec.parseDate.
    cbn [Ascii.eqb Bool.eqb forallb andb].
    rewrite Ha, Hb, Hc, He, H1, H2, H3, H4. cbn [andb].
    rewrite Hab, Hce, Hn. unfold Spec.realDate.
    replace (month t + 1 - 1) with (month t) by lia.
    destruct (Z.leb_spec 1 (month t + 1)); [|lia].
    destruct (Z.leb_spec (month t + 1) 12); [|lia].
    destruct (Z.leb_spec 1 (day t)); [|lia].
    destruct (Z.leb_spec (day t) (daysInMonth (year t) (month t))); [|lia].
    cbn [andb]. destruct (Z.leb_spec 100 (year t)); [|lia].
    destruct t as [ty tmo td tms]. cbn [millis] in Hms. subst tms.
    cbn [year month day]. do 2 f_equal. lia.
  - exfalso.
    destruct (long_numeral (year t) Hge)
      as (c1 & c2 & c3 & c4 & c5 & r & Fy & H1 & H2 & H3 & H4 & Hv).
    rewrite Fy, (exec_digits_four c1 c2 c3 c4 _ H1 H2 H3 H4) in P.
    cbn [Dayjs.t_day Dayjs.t_month Dayjs.t_year] in P.
    destruct (four_number4 c1 c2 c3 c4 H1 H2 H3 H4) as [_ Rn].
    assert (En : JS.to_number (String c1 (String c2 (String c3 (String c4 EmptyString))))
                 = Spec.number4 c1 c2 c3 c4)
      by (unfold JS.to_number, Spec.number4; cbn [JS.to_number_acc]; lia).
    rewrite En, Hab, Hce in P.
    destruct (is_digit_char c2 H2) as [_ R2], (is_digit_char c3 H3) as [_ R3],
      (is_digit_char c4 H4) as [_ R4].
    assert (Hn : 1000 <= Spec.number4 c1 c2 c3 c4) by (unfold Spec.number4; lia).
    unfold Dayjs.truthy in P.
    destruct (Z.eqb_spec (day t) 0); [lia|].
    destruct (Z.eqb_spec (Spec.number4 c1 c2 c3 c4) 0); [lia|].
    destruct (Z.eqb_spec (month t + 1) 0); [lia|].
    destruct (Z.ltb_spec 0 (month t + 1)); [|lia].
    cbn [negb andb] in P. injection P as P.
    pose proof (makeDate_year (Spec.number4 c1 c2 c3 c4) (month t + 1 - 1) (day t)
                  ltac:(lia) ltac:(lia)) as Y.
    rewrite P, fullYear_id in Y by lia. lia.
Qed.

Lemma parse_strict_complete (t : DateTime) (s : string) :
  Spec.strictDate s = Some t ->
  Dayjs.parse_strict now s = Dayjs.wrap (Some t).
Proof.
  unfold Spec.strictDate, Spec.parseDate.
  destruct s as [|d1 [|d2 [|p1 [|m1 [|m2 [|p2 [|y1 [|y2 [|y3 [|y4 [|x s]]]]]]]]]]];
    try discriminate.
  destruct (Ascii.eqb_spec p1 ".") as [-> | _]; [|discriminate].
  destruct (Ascii.eqb_spec p2 ".") as [-> | _]; [|discriminate].
  cbn [forallb andb].
  destruct (JS.is_digit d1) eqn:Hd1; [|discriminate].
  destruct (JS.is_digit d2) eqn:Hd2; [|discriminate].
  destruct (JS.is_digit m1) eqn:Hm1; [|discriminate].
  destruct (JS.is_digit m2) eqn:Hm2; [|discriminate].
  destruct (JS.is_digit y1) eqn:Hy1; [|discriminate].
  destruct (JS.is_digit y2) eqn:Hy2; [|discriminate].
  destruct (JS.is_digit y3) eqn:Hy3; [|discriminate].
  destruct (JS.is_digit y4) eqn:Hy4; [|discriminate].
  cbn [andb].
  destruct (Spec.realDate _ _ _) eqn:R; [|discriminate].
  destruct (Z.leb_spec 100 (Spec.number4 y1 y2 y3 y4)) as [Hy|]; [|discriminate].
  intros [= <-].
  unfold Spec.realDate in R.
  repeat (apply andb_prop in R; destruct R as [R ?]).
  set (d := Spec.number2 d1 d2) in *. set (m := Spec.number2 m1 m2) in *.
  set (y := Spec.number4 y1 y2 y3 y4) in *.
  assert (Hm : 1 <= m <= 12) by lia.
  assert (Hd : 1 <= d <= daysInMonth y (m - 1)) by lia.
  pose proof (daysInMonth_bounds y (m - 1)) as B.
  destruct (two_number2 d1 d2 Hd1 Hd2) as [Td _].
  destruct (two_number2 m1 m2 Hm1 Hm2) as [Tm _].
  destruct (four_number4 y1 y2 y3 y4 Hy1 Hy2 Hy3 Hy4) as [Ty By].
  fold d in Td. fold m in Tm. fold y in Ty, By.
  assert (P : Dayjs.parseFormattedInput now
                (String d1 (String d2 (String "." (String m1 (String m2
                  (String "." (String y1 (String y2 (String y3 (String y4 ""))))))))))
              = Some (mkDateTime y (m - 1) d 0)).
  { unfold Dayjs.parseFormattedInput.
    rewrite (run_parser_prefix d1 d2 m1 m2 _ Hd1 Hd2 Hm1 Hm2).
    rewrite (exec_digits_four y1 y2 y3 y4 _ Hy1 Hy2 Hy3 Hy4).
    cbn [Dayjs.t_day Dayjs.t_month Dayjs.t_year].
    replace (JS.to_number (String y1 (String y2 (String y3 (String y4 "")))))
      with y by (unfold JS.to_number, y, Spec.number4; cbn [JS.to_number_acc]; lia).
    fold d m. unfold Dayjs.truthy.
    destruct (Z.eqb_spec d 0); [lia|]. destruct (Z.eqb_spec y 0); [lia|].
    destruct (Z.eqb_spec m 0); [lia|]. destruct (Z.ltb_spec 0 m); [|lia].
    cbn [negb andb]. f_equal.
    rewrite makeDate_real; rewrite ?fullYear_id by lia; [reflexivity | lia | lia]. }
  unfold Dayjs.parse_strict. rewrite P. unfold Dayjs.format, Dayjs.wrap.
  cbn [Dayjs.value Dayjs.read day month year].
  rewrite !padStart_two, padStart_four by lia.
  replace (m - 1 + 1) with m by lia. rewrite Td, Tm, Ty. cbn [append].
  now rewrite String.eqb_refl.
Qed.

(** Strict parsing accepts exactly the strings DD.MM.YYYY of real calendar
    dates from the year 100 on, and reads them as written; after a
    rejection the fields are those of the date that was parsed. *)
Lemma parse_strict_spec (s : string) :
  Dayjs.parse_strict now s
  = match Spec.strictDate s with
    | Some t => Dayjs.wrap (Some t)
    | None => Dayjs.mkDayjs None (Dayjs.parseFormattedInput now s)
    end.
Proof.
  destruct (Spec.strictDate s) as [t|] eqn:E.
  - now apply parse_strict_complete.
  - pose proof (fun t => parse_strict_sound t s) as S.
    unfold Dayjs.parse_strict in *.
    destruct (String.eqb s _); [|reflexivity].
    destruct (Dayjs.parseFormattedInput now s) as [t'|]; [|reflexivity].
    specialize (S t' eq_refl). congruence.
Qed.

Lemma parse_strict_value (s : string) :
  Dayjs.value (Dayjs.parse_strict now s) = Spec.strictDate s.
Proof. rewrite parse_strict_spec. now destruct (Spec.strictDate s). Qed.

Lemma isValid_parse_strict (s : string) :
  Dayjs.isValid (Dayjs.parse_strict now s)
  = match Spec.strictDate s with Some _ => true | None => false end.
Proof. unfold Dayjs.isValid. now rewrite parse_strict_value. Qed.

End StrictParsing.

(** The fields of a strictly parsed date are those of the date that
    [parseFormattedInput] made, whether or not it was accepted. *)
Lemma parse_strict_read (now : DateTime) (s : string) :
  Dayjs.read (Dayjs.parse_strict now s) = Dayjs.parseFormattedInput now s.
Proof. unfold Dayjs.parse_strict. now destruct (String.eqb s _). Qed.

(** ** Adding and removing people *)

Section Store.

Lemma addPerson_fresh (people : list Person) (c : NewPerson) (q : Person) :
  Spec.safeIds people -> In q people -> id q <> id (snd (addPerson people c)).
Proof. intros Hs H. apply (next_id_above people q Hs) in H. cbn. lia. Qed.

Lemma addPerson_get (people : list Person) (c : NewPerson) :
  Spec.safeIds people ->
  getPersonById (fst (addPerson people c)) (id (snd (addPerson people c)))
  = Some (snd (addPerson people c)).
Proof.
  intros Hs. cbn [addPerson fst snd]. apply find_id_last.
  intros q. now apply addPerson_fresh.
Qed.

Lemma addPerson_remove (people : list Person) (c : NewPerson) :
  Spec.safeIds people ->
  removePerson (fst (addPerson people c)) (id (snd (addPerson people c)))
  = (people, true).
Proof.
  intros Hs. cbn [addPerson fst snd]. unfold removePerson.
  rewrite findIndex_last by (intros q; now apply (addPerson_fresh people c)).
  now rewrite splice1_last.
Qed.

Lemma addPerson_absent_before (people : list Person) (c : NewPerson) :
  Spec.safeIds people ->
  getPersonById people (id (snd (addPerson people c))) = None.
Proof. intros Hs. apply find_id_none. intros q. now apply addPerson_fresh. Qed.

Lemma removePerson_flag (people : list Person) (i : Z) :
  snd (removePerson people i) = existsb (fun q => id q =? i) people
  /\ (snd (removePerson people i) = false -> fst (removePerson people i) = people)
  /\ (snd (removePerson people i) = true ->
      S (List.length (fst (removePerson people i))) = List.length people).
Proof.
  unfold removePerson.
  destruct (JS.findIndex (fun person => id person =? i) people) as [k|] eqn:E;
    cbn [fst snd].
  - destruct (findIndex_some _ _ _ E) as (x & _ & Hx & Hin & Hlen & _).
    repeat split; [|discriminate|auto].
    symmetry. apply existsb_exists. eauto.
  - apply findIndex_none in E. rewrite E. repeat split; discriminate.
Qed.

Lemma splice1_incl {A : Type} (l : list A) (k : nat) (y : A) :
  In y (JS.splice1 k l) -> In y l.
Proof.
  unfold JS.splice1. revert k. induction l as [|a l IH]; intros k.
  - destruct k; simpl; tauto.
  - destruct k as [|k]; simpl; [tauto|].
    intros [-> | H]; [now left | right; now apply (IH k)].
Qed.

Lemma NoDup_splice1 {A : Type} (l : list A) (k : nat) :
  NoDup l -> NoDup (JS.splice1 k l).
Proof.
  revert k. induction l as [|a l IH]; intros k H.
  - destruct k; constructor.
  - inversion H as [|? ? Hn Hd]; subst. destruct k as [|k]; [exact Hd|].
    change (JS.splice1 (S k) (a :: l)) with (a :: JS.splice1 k l).
    constructor; [|now apply IH].
    intros Hin. apply Hn. now apply splice1_incl in Hin.
Qed.

Lemma map_splice1 {A B : Type} (f : A -> B) (l : list A) (k : nat) :
  map f (JS.splice1 k l) = JS.splice1 k (map f l).
Proof. unfold JS.splice1. now rewrite map_app, firstn_map, skipn_map. Qed.

Lemma removePerson_NoDup (people : list Person) (i : Z) :
  NoDup (map id people) -> NoDup (map id (fst (removePerson people i))).
Proof.
  intros H. unfold removePerson.
  destruct (JS.findIndex _ people) as [k|]; cbn [fst]; [|exact H].
  rewrite map_splice1. now apply NoDup_splice1.
Qed.

Lemma addPerson_NoDup (people : list Person) (c : NewPerson) :
  Spec.safeIds people ->
  NoDup (map id people) -> NoDup (map id (fst (addPerson people c))).
Proof.
  intros Hs H. cbn [addPerson fst]. rewrite map_app. cbn [map id].
  apply NoDup_app; [exact H | repeat constructor; intros [] |].
  intros x Hx [<- | []]. apply in_map_iff in Hx. destruct Hx as (q & E & Hq).
  apply (next_id_above people q Hs) in Hq. lia.
Qed.

(** Room for [S n] additions leaves room for [n] after one operation. *)
Lemma room_safe (n : nat) (people : list Person) :
  Spec.room n people -> Spec.safeIds people.
Proof. intros [_ H] p Hp. now apply H. Qed.

Lemma room_addPerson (n : nat) (people : list Person) (c : NewPerson) :
  Spec.room (S n) people -> Spec.room n (fst (addPerson people c)).
Proof.
  intros R. pose proof (room_safe _ _ R) as Hs. destruct R as [Hn H].
  split; [lia|]. intros p Hp. cbn [addPerson fst] in Hp.
  apply in_app_or in Hp. destruct Hp as [Hp | [<- | []]].
  - specialize (H p Hp). lia.
  - cbn [id]. destruct people as [|q l].
    + unfold next_id. cbn [map]. lia.
    + destruct (next_id_max (q :: l) Hs ltac:(discriminate))
        as (m & Hm & _ & ->).
      apply in_map_iff in Hm. destruct Hm as (r & <- & Hr).
      specialize (H r Hr). lia.
Qed.

Lemma room_removePerson (n : nat) (people : list Person) (i : Z) :
  Spec.room (S n) people -> Spec.room n (fst (removePerson people i)).
Proof.
  intros [Hn H]. split; [lia|]. intros p Hp.
  assert (Hin : In p people).
  { unfold removePerson in Hp.
    destruct (JS.findIndex _ people) as [k|]; cbn [fst] in Hp; [|exact Hp].
    now apply splice1_incl in Hp. }
  specialize (H p Hin). lia.
Qed.

Lemma room_applyAll (ops : list Spec.Op) (n : nat) (people : list Person) :
  Spec.room (List.length ops + n) people ->
  Spec.room n (Spec.applyAll people ops).
Proof.
  unfold Spec.applyAll. revert people.
  induction ops as [|op ops IH]; intros people R; cbn [fold_left]; [exact R|].
  apply IH. cbn [List.length Nat.add] in R.
  destruct op as [c | i]; cbn [Spec.apply].
  - now apply room_addPerson.
  - now apply room_removePerson.
Qed.

Lemma applyAll_NoDup (ops : list Spec.Op) (people : list Person) :
  Spec.room (List.length ops) people ->
  NoDup (map id people) -> NoDup (map id (Spec.applyAll people ops)).
Proof.
  unfold Spec.applyAll. revert people.
  induction ops as [|op ops IH]; intros people R H; cbn [fold_left];
    [exact H|].
  cbn [List.length] in R.
  destruct op as [c | i]; cbn [Spec.apply].
  - apply IH; [now apply room_addPerson|].
    apply addPerson_NoDup; [now apply (room_safe (S (List.length ops)))|exact H].
  - apply IH; [now apply room_removePerson | now apply removePerson_NoDup].
Qed.

(** The validated add either leaves the roster as it is and reports an
    error, or stores the candidate through [addPerson] with the cleaned
    username. *)
Lemma validated_add_cases (now : DateTime) (people : list Person)
    (n b : string) (u : option string) :
  (exists e, addPersonFromTelegramWithValidation now people n b u
             = (people, inr e))
  \/ (exists h,
        u = Some h /\ h <> "" /\ cleanUsername h <> ""
        /\ dateRegex_test b = true
        /\ Dayjs.isValid (Dayjs.parse_strict now b) = true
        /\ existsb (sameUsername (cleanUsername h)) people = false
        /\ addPersonFromTelegramWithValidation now people n b u
           = (fst (addPerson people (mkNewPerson n b (Some (cleanUsername h)))),
              inl (snd (addPerson people
                          (mkNewPerson n b (Some (cleanUsername h))))))).
Proof.
  unfold addPersonFromTelegramWithValidation.
  destruct (dateRegex_test b); cbn [negb]; [|eauto].
  destruct (Dayjs.isValid _); cbn [negb]; [|eauto].
  destruct u as [[|c h]|]; eauto.
  destruct (cleanUsername (String c h)) as [|c' h'] eqn:C; cbn [String.length Nat.eqb];
    [eauto|].
  destruct (existsb _ people) eqn:X; [eauto|].
  right. exists (String c h). rewrite C. repeat split; auto; discriminate.
Qed.

End Store.

Section StoreClaims.

(** C3, as the specification states it, fails: the id of a removed person
    is assigned again when it was the largest one.  On the empty roster the
    first person gets id 1, is removed, and the next person gets id 1. *)
Lemma id_reassigned_after_removal :
  ~ (forall (people : list Person) (c1 c2 : NewPerson),
        let added := addPerson people c1 in
        let removed := removePerson (fst added) (id (snd added)) in
        id (snd (addPerson (fst removed) c2)) <> id (snd added)).
Proof.
  intros H.
  apply (H [] (mkNewPerson "A" "01.01.2000" (Some "a"))
           (mkNewPerson "B" "02.02.2001" (Some "b"))).
  reflexivity.
Qed.

(** Beyond the safe integers the sum is rounded: a roster that holds the
    id [2^53] gets that id again. *)
Example id_repeated_beyond_safe_range :
  id (snd (addPerson [mkPerson 9007199254740992 "A" "01.01.2000" (Some "a")]
             (mkNewPerson "B" "02.02.2001" (Some "b"))))
  = 9007199254740992.
Proof. reflexivity. Qed.

(** C3, amended: over every sequence of adds and removes on a roster whose
    ids are safe integers and stay so, an add assigns the largest id of the
    roster plus 1 (1 on the empty roster), which exceeds every id in the
    roster at that moment; ids that are pairwise distinct at the start stay
    so.  (An id of a removed person is therefore not assigned while a
    person with that or a larger id remains.) *)
Theorem add_assigns_fresh_id (start : list Person) (ops : list Spec.Op)
    (c : NewPerson) :
  Spec.room (List.length ops) start ->
  let roster := Spec.applyAll start ops in
  let p := snd (addPerson roster c) in
  (roster = [] -> id p = 1)
  /\ (roster <> [] ->
      exists m, In m (map id roster)
                /\ (forall x, In x (map id roster) -> x <= m)
                /\ id p = m + 1)
  /\ (forall q, In q roster -> id q < id p)
  /\ (NoDup (map id start) ->
      NoDup (map id roster) /\ NoDup (map id (fst (addPerson roster c)))).
Proof.
  intros R roster p.
  assert (Hs : Spec.safeIds roster).
  { apply (room_safe 0). apply room_applyAll. now rewrite Nat.add_0_r. }
  repeat split.
  - intros E. subst p. now rewrite E.
  - intros Hne. now apply next_id_max.
  - intros q Hq. now apply next_id_above.
  - now apply applyAll_NoDup.
  - apply addPerson_NoDup; [exact Hs | now apply applyAll_NoDup].
Qed.

Lemma add_assigns_fresh_id_witness :
  let start := [mkPerson 1 "A" "01.01.2000" (Some "a");
                mkPerson 4 "B" "02.02.2001" None] in
  let ops := [Spec.Remove 1;
              Spec.Add (mkNewPerson "C" "03.03.2002" (Some "c"))] in
  let roster := Spec.applyAll start ops in
  let p := snd (addPerson roster (mkNewPerson "D" "04.04.2003" (Some "d"))) in
  Spec.room (List.length ops) start
  /\ NoDup (map id roster) /\ (forall q, In q roster -> id q < id p)
  /\ id p = 6.
Proof.
  cbv zeta.
  assert (R : Spec.room 2 [mkPerson 1 "A" "01.01.2000" (Some "a");
                           mkPerson 4 "B" "02.02.2001" None]).
  { split; [reflexivity|].
    intros q [<- | [<- | []]]; split; reflexivity. }
  split; [exact R|].
  destruct (add_assigns_fresh_id
              [mkPerson 1 "A" "01.01.2000" (Some "a");
               mkPerson 4 "B" "02.02.2001" None]
              [Spec.Remove 1;
               Spec.Add (mkNewPerson "C" "03.03.2002" (Some "c"))]
              (mkNewPerson "D" "04.04.2003" (Some "d")) R) as (_ & M & F & N).
  split; [|split; [exact F|]].
  - apply N. repeat constructor; cbn; intuition discriminate.
  - destruct M as (m & Hin & Hmax & ->); [discriminate|].
    cbn in Hin, Hmax. pose proof (Hmax 5 (or_intror (or_introl eq_refl))).
    destruct Hin as [<- | [<- | []]]; lia.
Defined.

End StoreClaims.

Section ValidationClaims.

Lemma parseDate_regex (s : string) (d m y : Z) :
  Spec.parseDate s = Some (d, m, y) -> dateRegex_test s = true.
Proof.
  unfold Spec.parseDate, dateRegex_test.
  destruct s as [|d1 [|d2 [|p1 [|m1 [|m2 [|p2 [|y1 [|y2 [|y3 [|y4 [|x s]]]]]]]]]]];
    try discriminate.
  now destruct (_ && _).
Qed.

Lemma strictDate_parseDate (s : string) (t : DateTime) :
  Spec.strictDate s = Some t <->
  Spec.parseDate s = Some (day t, month t + 1, year t)
  /\ 100 <= year t /\ millis t = 0.
Proof.
  unfold Spec.strictDate. split.
  - destruct (Spec.parseDate s) as [[[d m] y]|]; [|discriminate].
    destruct (Z.leb_spec 100 y); [|discriminate].
    intros [= <-]. cbn. repeat split; auto. do 2 f_equal. f_equal. lia.
  - intros (-> & Hy & Hm). destruct (Z.leb_spec 100 (year t)); [|lia].
    destruct t as [ty tm td tms]. cbn in *. subst. do 2 f_equal. lia.
Qed.

Lemma cleanUsername_empty : cleanUsername "" = "".
Proof. reflexivity. Qed.

(** C4, as the specification states it, fails: the date is checked before
    the username, so a candidate with a duplicate handle and a date that is
    not a calendar date is rejected for its date.  Likewise a candidate
    whose username is empty once cleaned is rejected for that, also when a
    person with an empty username is in the roster. *)
Lemma duplicate_handle_with_bad_date :
  ~ (forall (now : DateTime) (people : list Person) (n b u h : string)
            (q : Person),
        In q people -> telegramUsername q = Some h ->
        JS.toLowerCase h = JS.toLowerCase (cleanUsername u) ->
        addPersonFromTelegramWithValidation now people n b (Some u)
        = (people, inr (AlreadyListed (cleanUsername u))))
  /\ addPersonFromTelegramWithValidation (Spec.noon 2024 5 15)
       [mkPerson 1 "bob" "01.01.2000" (Some "bob")]
       "BOB" "31.02.2000" (Some "@BOB")
     = ([mkPerson 1 "bob" "01.01.2000" (Some "bob")], inr BadDate)
  /\ addPersonFromTelegramWithValidation (Spec.noon 2024 5 15)
       [mkPerson 1 "anon" "01.01.2000" (Some "")]
       "x" "15.06.1990" (Some "@")
     = ([mkPerson 1 "anon" "01.01.2000" (Some "")], inr UsernameEmpty).
Proof.
  split; [|split; reflexivity].
  intros H.
  specialize (H (Spec.noon 2024 5 15)
                [mkPerson 1 "bob" "01.01.2000" (Some "bob")]
                "BOB" "31.02.2000" "@BOB" "bob"
                (mkPerson 1 "bob" "01.01.2000" (Some "bob"))
                (or_introl eq_refl) eq_refl eq_refl).
  vm_compute in H. discriminate H.
Qed.

(** C4, amended: when the birth date of the candidate is valid and its
    cleaned username is not empty and equals, letter case aside, the
    username of a person in the roster, the validated add throws the
    "already listed" error and the roster is unchanged. *)
Theorem duplicate_handle_rejected (now : DateTime) (people : list Person)
    (n b u h : string) (t : DateTime) (q : Person) :
  Spec.strictDate b = Some t ->
  cleanUsername u <> "" ->
  In q people -> telegramUsername q = Some h ->
  JS.toLowerCase h = JS.toLowerCase (cleanUsername u) ->
  addPersonFromTelegramWithValidation now people n b (Some u)
  = (people, inr (AlreadyListed (cleanUsername u))).
Proof.
  intros Hb Hc Hq Hh Hl. unfold addPersonFromTelegramWithValidation.
  assert (R : dateRegex_test b = true).
  { apply strictDate_parseDate in Hb. destruct Hb as [Hb _].
    now apply parseDate_regex in Hb. }
  rewrite R, (parse_strict_complete now t b Hb).
  cbn [negb Dayjs.isValid Dayjs.value Dayjs.wrap].
  destruct u as [|c u]; [now rewrite cleanUsername_empty in Hc|].
  destruct (cleanUsername (String c u)) as [|c' u'] eqn:C; [congruence|].
  cbn [String.length Nat.eqb].
  replace (existsb (sameUsername (String c' u')) people) with true; [reflexivity|].
  symmetry. apply existsb_exists. exists q. split; [exact Hq|].
  unfold sameUsername. rewrite Hh, Hl. apply String.eqb_refl.
Qed.

Lemma duplicate_handle_rejected_witness :
  let people := [mkPerson 1 "bob" "01.01.2000" (Some "bob")] in
  addPersonFromTelegramWithValidation (Spec.noon 2024 5 15) people
    "BOB" "15.06.1990" (Some "@BOB")
  = (people, inr (AlreadyListed "BOB")).
Proof.
  apply (duplicate_handle_rejected (Spec.noon 2024 5 15)
           [mkPerson 1 "bob" "01.01.2000" (Some "bob")]
           "BOB" "15.06.1990" "@BOB" "bob" (mkDateTime 1990 5 15 0)
           (mkPerson 1 "bob" "01.01.2000" (Some "bob"))).
  - reflexivity.
  - discriminate.
  - now left.
  - reflexivity.
  - reflexivity.
Defined.

(** C10, as the specification states it, fails: only the first "@" of
    the username is removed.  The username "@@" is empty once stripped of
    its "@" characters, and the validated add stores it as "@". *)
Lemma second_at_is_kept :
  JS.trim (Spec.withoutAts "@@") = ""
  /\ addPersonFromTelegramWithValidation (Spec.noon 2024 5 15) []
       "x" "15.06.1990" (Some "@@")
     = ([mkPerson 1 "x" "15.06.1990" (Some "@")],
        inl (mkPerson 1 "x" "15.06.1990" (Some "@")))
  /\ ~ (forall (now : DateTime) (people : list Person) (n b h : string),
          JS.trim (Spec.withoutAts h) = "" ->
          exists e, addPersonFromTelegramWithValidation now people n b (Some h)
                    = (people, inr e)).
Proof.
  split; [reflexivity|]. split; [reflexivity|].
  intros H.
  destruct (H (Spec.noon 2024 5 15) [] "x" "15.06.1990" "@@" eq_refl)
    as [e E].
  vm_compute in E. discriminate E.
Qed.

(** C10, amended: without a username, or with one that is empty once its
    first "@" is removed and the white space trimmed, the validated add
    throws and the roster is unchanged; every person that it does store has
    a username that is not empty. *)
Theorem username_required (now : DateTime) (people : list Person)
    (n b : string) (u : option string) :
  ((u = None \/ exists h, u = Some h /\ cleanUsername h = "") ->
   exists e, addPersonFromTelegramWithValidation now people n b u
             = (people, inr e)
             /\ (e = BadDateFormat \/ e = BadDate
                 \/ e = UsernameMissing \/ e = UsernameEmpty))
  /\ (forall (people' : list Person) (p : Person),
         addPersonFromTelegramWithValidation now people n b u
         = (people', inl p) ->
         exists h, telegramUsername p = Some h /\ h <> "").
Proof.
  split.
  - intros Hu. unfold addPersonFromTelegramWithValidation.
    destruct (dateRegex_test b); cbn [negb]; [|eauto].
    destruct (Dayjs.isValid _); cbn [negb]; [|eauto].
    destruct Hu as [-> | (h & -> & Hc)]; [eauto 6|].
    destruct h as [|c h]; [eauto 6|]. rewrite Hc. cbn. eauto 7.
  - intros people' p H.
    destruct (validated_add_cases now people n b u)
      as [[e E] | (h & _ & _ & Hc & _ & _ & _ & E)];
      rewrite E in H; [discriminate|].
    injection H as _ <-. cbn. eauto.
Qed.

Lemma username_required_witness :
  (exists e, addPersonFromTelegramWithValidation (Spec.noon 2024 5 15) []
               "x" "15.06.1990" (Some " @ ") = ([], inr e))
  /\ (exists e, addPersonFromTelegramWithValidation (Spec.noon 2024 5 15) []
                  "x" "15.06.1990" None = ([], inr e))
  /\ exists h, telegramUsername (mkPerson 1 "x" "15.06.1990" (Some "x"))
               = Some h /\ h <> "".
Proof.
  destruct (username_required (Spec.noon 2024 5 15) [] "x" "15.06.1990" (Some " @ "))
    as [A _].
  destruct (username_required (Spec.noon 2024 5 15) [] "x" "15.06.1990" None)
    as [B _].
  destruct (username_required (Spec.noon 2024 5 15) [] "x" "15.06.1990" (Some "@x"))
    as [_ C].
  split; [|split].
  - destruct A as (e & E & _); [right; exists " @ "; now split | now exists e].
  - destruct B as (e & E & _); [now left | now exists e].
  - apply (C [mkPerson 1 "x" "15.06.1990" (Some "x")]). reflexivity.
Defined.

(** A candidate with a valid birth date and a username that is not empty
    once cleaned and is not yet in the roster is stored. *)
Lemma validated_add_succeeds (now : DateTime) (people : list Person)
    (n b h : string) (t : DateTime) :
  Spec.strictDate b = Some t ->
  cleanUsername h <> "" ->
  (forall q h', In q people -> telegramUsername q = Some h' ->
                JS.toLowerCase h' <> JS.toLowerCase (cleanUsername h)) ->
  addPersonFromTelegramWithValidation now people n b (Some h)
  = (fst (addPerson people (mkNewPerson n b (Some (cleanUsername h)))),
     inl (snd (addPerson people (mkNewPerson n b (Some (cleanUsername h)))))).
Proof.
  intros Hb Hc Hnew. unfold addPersonFromTelegramWithValidation.
  assert (R : dateRegex_test b = true).
  { apply strictDate_parseDate in Hb. destruct Hb as [Hb _].
    now apply parseDate_regex in Hb. }
  rewrite R, (parse_strict_complete now t b Hb).
  cbn [negb Dayjs.isValid Dayjs.value Dayjs.wrap].
  destruct h as [|c h]; [now rewrite cleanUsername_empty in Hc|].
  destruct (cleanUsername (String c h)) as [|c' h'] eqn:C; [congruence|].
  cbn [String.length Nat.eqb].
  replace (existsb (sameUsername (String c' h')) people) with false;
    [reflexivity|].
  symmetry. apply not_true_iff_false. intros X.
  apply existsb_exists in X. destruct X as (q & Hq & Hs).
  unfold sameUsername in Hs.
  destruct (telegramUsername q) as [hq|] eqn:Eq; [|discriminate].
  apply String.eqb_eq in Hs. exact (Hnew q hq Hq Eq Hs).
Qed.

(** C9, as the specification states it, fails: beyond the safe integers
    the new id is not new.  In a roster that holds the id [2^53] the stored
    person gets that id too, [getPersonById] returns the older record for
    it and [removePerson] removes the older record. *)
Lemma roundtrip_fails_beyond_safe_ids :
  let old := mkPerson 9007199254740992 "A" "01.01.2000" (Some "a") in
  let new := mkPerson 9007199254740992 "new" "15.06.1990" (Some "New") in
  addPersonFromTelegramWithValidation (Spec.noon 2024 5 15) [old]
    "new" "15.06.1990" (Some "@New") = ([old; new], inl new)
  /\ getPersonById [old; new] (id new) = Some old
  /\ getPersonById [old; new] (id new) <> Some new
  /\ removePerson [old; new] (id new) = ([new], true)
  /\ getPersonById (fst (removePerson [old; new] (id new))) (id new)
     = Some new.
Proof.
  cbv zeta. split; [reflexivity|]. split; [reflexivity|].
  split; [discriminate|]. split; reflexivity.
Qed.

(** C9, amended: in a roster whose ids are safe integers, a valid
    candidate is stored by the validated add; the stored person is found
    under the returned id, with the name and birth date given and the
    cleaned username; removing that id reports [true] and restores the
    roster, in which the id is no longer found.  [removePerson] reports
    whether some record had the id, and then the roster is one record
    shorter, else unchanged. *)
Theorem add_get_remove_roundtrip (now : DateTime) (people : list Person)
    (n b h : string) (t : DateTime) :
  Spec.safeIds people ->
  Spec.strictDate b = Some t ->
  cleanUsername h <> "" ->
  (forall q h', In q people -> telegramUsername q = Some h' ->
                JS.toLowerCase h' <> JS.toLowerCase (cleanUsername h)) ->
  exists (people' : list Person) (p : Person),
    addPersonFromTelegramWithValidation now people n b (Some h)
    = (people', inl p)
    /\ getPersonById people' (id p) = Some p
    /\ name p = n /\ birthDate p = b
    /\ telegramUsername p = Some (cleanUsername h)
    /\ removePerson people' (id p) = (people, true)
    /\ getPersonById (fst (removePerson people' (id p))) (id p) = None
    /\ (forall (roster : list Person) (i : Z),
           snd (removePerson roster i) = existsb (fun q => id q =? i) roster
           /\ (snd (removePerson roster i) = false ->
               fst (removePerson roster i) = roster)
           /\ (snd (removePerson roster i) = true ->
               S (List.length (fst (removePerson roster i)))
               = List.length roster)).
Proof.
  intros Hs Hb Hc Hnew.
  set (c := mkNewPerson n b (Some (cleanUsername h))).
  exists (fst (addPerson people c)), (snd (addPerson people c)).
  pose proof (addPerson_remove people c Hs) as R.
  split; [now apply (validated_add_succeeds now people n b h t)|].
  split; [exact (addPerson_get people c Hs)|].
  do 3 (split; [reflexivity|]).
  split; [exact R|]. split.
  - rewrite R. now apply addPerson_absent_before.
  - intros roster i. apply removePerson_flag.
Qed.

Lemma add_get_remove_roundtrip_witness :
  let people := [mkPerson 1 "A" "01.01.2000" (Some "a")] in
  exists (people' : list Person) (p : Person),
    addPersonFromTelegramWithValidation (Spec.noon 2024 5 15) people
      "new" "15.06.1990" (Some "@New") = (people', inl p)
    /\ getPersonById people' (id p) = Some p
    /\ telegramUsername p = Some "New"
    /\ removePerson people' (id p) = (people, true).
Proof.
  destruct (add_get_remove_roundtrip (Spec.noon 2024 5 15)
              [mkPerson 1 "A" "01.01.2000" (Some "a")]
              "new" "15.06.1990" "@New" (mkDateTime 1990 5 15 0))
    as (people' & p & A & G & _ & _ & U & R & _).
  - intros q [<- | []]. reflexivity.
  - reflexivity.
  - discriminate.
  - intros q h' [<- | []] [= <-]. discriminate.
  - exists people', p. auto.
Defined.

Lemma wf_noon : wf (Spec.noon 2024 5 15).
Proof. repeat split; now vm_compute. Defined.

(** C5: a birth date that is not of the form DD.MM.YYYY, or that is of this
    form without denoting a day of the calendar, makes the validated add
    throw one of its two date errors; nobody is added. *)
Theorem invalid_birth_date_rejected (now : DateTime) (people : list Person)
    (n b : string) (u : option string) :
  wf now ->
  Spec.parseDate b = None ->
  (dateRegex_test b = false ->
   addPersonFromTelegramWithValidation now people n b u
   = (people, inr BadDateFormat))
  /\ (dateRegex_test b = true ->
      addPersonFromTelegramWithValidation now people n b u
      = (people, inr BadDate)).
Proof.
  intros Hwf Hb. unfold addPersonFromTelegramWithValidation. split; intros ->;
    cbn [negb]; [reflexivity|].
  rewrite (isValid_parse_strict now Hwf b). unfold Spec.strictDate.
  now rewrite Hb.
Qed.

Lemma invalid_birth_date_rejected_witness :
  addPersonFromTelegramWithValidation (Spec.noon 2024 5 15) [] "x" "31.02.2000"
    (Some "@x") = ([], inr BadDate)
  /\ addPersonFromTelegramWithValidation (Spec.noon 2024 5 15) [] "x" "15-06-1990"
       (Some "@x") = ([], inr BadDateFormat)
  /\ addPersonFromTelegramWithValidation (Spec.noon 2024 5 15) [] "x" "15.13.2000"
       (Some "@x") = ([], inr BadDate).
Proof.
  split; [|split].
  - apply (invalid_birth_date_rejected (Spec.noon 2024 5 15) [] "x" "31.02.2000"
             (Some "@x") wf_noon eq_refl). reflexivity.
  - apply (invalid_birth_date_rejected (Spec.noon 2024 5 15) [] "x" "15-06-1990"
             (Some "@x") wf_noon eq_refl). reflexivity.
  - apply (invalid_birth_date_rejected (Spec.noon 2024 5 15) [] "x" "15.13.2000"
             (Some "@x") wf_noon eq_refl). reflexivity.
Defined.

End ValidationClaims.

(** ** The birthday check and the statistics *)

Section Evaluator.

Lemma parseDate_real (s : string) (d m y : Z) :
  Spec.parseDate s = Some (d, m, y) -> Spec.realDate d m y = true.
Proof.
  unfold Spec.parseDate.
  destruct s as [|d1 [|d2 [|p1 [|m1 [|m2 [|p2 [|y1 [|y2 [|y3 [|y4 [|x s]]]]]]]]]]];
    try discriminate.
  destruct (_ && _); [|discriminate].
  destruct (Spec.realDate _ _ _) eqn:R; [|discriminate].
  now intros [= <- <- <-].
Qed.

Lemma strictDate_month (s : string) (t : DateTime) :
  Spec.strictDate s = Some t -> 0 <= month t <= 11.
Proof.
  intros H. apply strictDate_parseDate in H. destruct H as (H & _).
  apply parseDate_real in H. unfold Spec.realDate in H.
  repeat (apply andb_prop in H; destruct H as [H ?]). lia.
Qed.

(** A real date from the year 100 to the year 9999, written as
    DD.MM.YYYY, is read back as itself. *)
Lemma strictDate_showDate (d m y : Z) :
  Spec.realDate d m y = true -> 100 <= y <= 9999 ->
  Spec.strictDate (Spec.showDate d m y) = Some (mkDateTime y (m - 1) d 0).
Proof.
  intros R Hy. pose proof R as R'. unfold Spec.realDate in R'.
  repeat (apply andb_prop in R'; destruct R' as [R' ?]).
  pose proof (daysInMonth_bounds y (m - 1)).
  destruct (number2_two d) as (d1 & d2 & Ed & Hd1 & Hd2 & Nd); [lia|].
  destruct (number2_two m) as (m1 & m2 & Em & Hm1 & Hm2 & Nm); [lia|].
  destruct (number4_four y) as (y1 & y2 & y3 & y4 & Ey & Hy1 & Hy2 & Hy3 & Hy4 & Ny);
    [lia|].
  unfold Spec.showDate, Spec.strictDate, Spec.parseDate.
  rewrite Ed, Em, Ey. cbn [append Ascii.eqb Bool.eqb forallb andb].
  rewrite Hd1, Hd2, Hm1, Hm2, Hy1, Hy2, Hy3, Hy4. cbn [andb].
  rewrite Nd, Nm, Ny, R.
  now destruct (Z.leb_spec 100 y); [|lia].
Qed.

(** The birthday check compares the fields that [init()] stored, which
    are those of the date that [parseFormattedInput] made. *)
Lemma isBirthdayOn_read (now : DateTime) (p : Person) :
  isBirthdayOn now p
  = match Dayjs.parseFormattedInput now (birthDate p) with
    | Some t => (day t =? day now) && (month t =? month now)
    | None => false
    end.
Proof.
  unfold isBirthdayOn, Dayjs.date, Dayjs.month.
  rewrite parse_strict_read. cbn [Dayjs.read Dayjs.wrap option_map].
  now destruct (Dayjs.parseFormattedInput now (birthDate p)).
Qed.

(** For a valid birth date these are its day and month. *)
Lemma isBirthdayOn_valid (now : DateTime) (p : Person) (t : DateTime) :
  Spec.strictDate (birthDate p) = Some t ->
  isBirthdayOn now p = (day t =? day now) && (month t =? month now).
Proof.
  intros H. unfold isBirthdayOn.
  now rewrite (parse_strict_complete now t _ H).
Qed.

(** C1: the birthday check does not treat every invalid birth date as a
    non-match.  Strict mode marks the parsed date as invalid, which
    [isValid] and [diff] see, and leaves the day and the month that the
    parser stored: 31.02.2000 is selected on 2 March, 15-06-1990 on
    15 June, and 00.00.0000, whose fields are completed from the clock, on
    every day.  A string without digits where the parser looks for them
    is not selected. *)
Theorem rejected_dates_are_selected :
  let feb31 := mkPerson 1 "A" "31.02.2000" None in
  let dashes := mkPerson 2 "B" "15-06-1990" None in
  let zeros := mkPerson 3 "C" "00.00.0000" None in
  (Dayjs.isValid (Dayjs.parse_strict (Spec.noon 2024 2 2) "31.02.2000") = false
   /\ getPeopleWithBirthdayToday (Spec.noon 2024 2 2) [feb31] = [feb31]
   /\ getPersonAge (Spec.noon 2024 2 2) feb31 = 0)
  /\ (Dayjs.isValid (Dayjs.parse_strict (Spec.noon 2024 5 15) "15-06-1990")
      = false
      /\ getPeopleWithBirthdayToday (Spec.noon 2024 5 15) [dashes] = [dashes])
  /\ (getPeopleWithBirthdayToday (Spec.noon 2024 5 15) [zeros] = [zeros]
      /\ getPeopleWithBirthdayToday (Spec.noon 2024 5 16) [zeros] = [zeros])
  /\ getPeopleWithBirthdayToday (Spec.noon 2024 5 15)
       [mkPerson 4 "D" "someday" None] = [].
Proof. cbv zeta. repeat split. Qed.

End Evaluator.

Section Statistics.

Lemma countMonth_countBorn (now : DateTime) (people : list Person) (i : Z) :
  Forall (fun p => Spec.hasBirthMonth p = true) people ->
  countMonth now people (Some i) = Spec.countBorn (i + 1) people.
Proof.
  intros Hv. unfold countMonth, Spec.countBorn. do 2 f_equal.
  induction Hv as [|p l Hp _ IH]; [reflexivity|]. cbn [filter].
  rewrite IH. unfold Spec.hasBirthMonth in Hp. unfold Spec.bornInMonth.
  destruct (Spec.strictDate (birthDate p)) as [t|] eqn:E; [|discriminate].
  rewrite (parse_strict_complete now t _ E).
  cbn [Dayjs.month Dayjs.read Dayjs.wrap option_map JS.strict_eq].
  destruct (Z.eqb_spec (month t) i), (Z.eqb_spec (month t + 1) (i + 1));
    try reflexivity; lia.
Qed.

Lemma countBorn_cons (m : Z) (p : Person) (l : list Person) :
  Spec.countBorn m (p :: l)
  = (if Spec.bornInMonth m p then 1 else 0) + Spec.countBorn m l.
Proof.
  unfold Spec.countBorn. cbn [filter].
  destruct (Spec.bornInMonth m p); cbn [List.length]; lia.
Qed.

Lemma countBorn_sum (people : list Person) :
  fold_right Z.add 0 (map (fun m => Spec.countBorn m people) Spec.months)
  = Z.of_nat (List.length (filter Spec.hasBirthMonth people)).
Proof.
  induction people as [|p l IH]; [reflexivity|].
  unfold Spec.months in *. cbn [map fold_right] in *.
  rewrite !countBorn_cons. cbn [filter].
  unfold Spec.bornInMonth.
  change (Spec.hasBirthMonth p)
    with (match Spec.strictDate (birthDate p) with
          | Some _ => true | None => false end).
  destruct (Spec.strictDate (birthDate p)) as [t|] eqn:Hs.
  - apply strictDate_month in Hs. cbn [List.length]. rewrite Nat2Z.inj_succ.
    assert (E : month t + 1 = 1 \/ month t + 1 = 2 \/ month t + 1 = 3
                \/ month t + 1 = 4 \/ month t + 1 = 5 \/ month t + 1 = 6
                \/ month t + 1 = 7 \/ month t + 1 = 8 \/ month t + 1 = 9
                \/ month t + 1 = 10 \/ month t + 1 = 11 \/ month t + 1 = 12)
      by lia.
    repeat (destruct E as [E | E]; [rewrite !E; cbn [Z.eqb Pos.eqb]; lia|]).
    rewrite !E; cbn [Z.eqb Pos.eqb]; lia.
  - lia.
Qed.

Lemma average_tenths (total : Z) :
  Qfloor (inject_Z total / inject_Z 12 * inject_Z 10 + (1 # 2))%Q
  = Spec.tenthsOfAverage total.
Proof.
  assert (E : (inject_Z total / inject_Z 12 * inject_Z 10 + (1 # 2)
               == (10 * total + 6) # 12)%Q).
  { rewrite (Qmake_Qdiv (10 * total + 6) 12), inject_Z_plus, inject_Z_mult.
    field. }
  rewrite E. reflexivity.
Qed.

End Statistics.

Section StatisticsClaim.

Lemma filter_all {A : Type} (f : A -> bool) (l : list A) :
  Forall (fun x => f x = true) l -> filter f l = l.
Proof.
  induction 1 as [|x l Hx _ IH]; cbn [filter]; [reflexivity|].
  now rewrite Hx, IH.
Qed.

Lemma filter_none {A : Type} (f : A -> bool) (l : list A) :
  Forall (fun x => f x = false) l -> filter f l = [].
Proof.
  induction 1 as [|x l Hx _ IH]; cbn [filter]; [reflexivity|].
  now rewrite Hx, IH.
Qed.

Lemma bornInMonth_unique (m m' : Z) (p : Person) :
  Spec.bornInMonth m p = true -> m <> m' -> Spec.bornInMonth m' p = false.
Proof.
  unfold Spec.bornInMonth. destruct (Spec.strictDate (birthDate p)) as [t|];
    [|discriminate].
  intros H Hne. apply Z.eqb_eq in H. apply Z.eqb_neq. lia.
Qed.

(** C6: the statistics count a birth date that strict mode rejects.  They
    read the month that the parser stored and do not ask whether the date
    is valid: 31.02.2000, which is no date and names February, is counted
    in March, in [thisMonth] when the reference month is March and in the
    third entry of [monthlyStats]. *)
Theorem rejected_date_is_counted :
  let p := mkPerson 1 "A" "31.02.2000" None in
  let st := getBirthdayStats (Spec.noon 2024 2 15) [p] in
  Dayjs.isValid (Dayjs.parse_strict (Spec.noon 2024 2 15) (birthDate p))
  = false
  /\ Spec.countBorn 3 [p] = 0
  /\ thisMonth st = 1
  /\ map stat_count (monthlyStats st) = [0; 0; 1; 0; 0; 0; 0; 0; 0; 0; 0; 0]
  /\ ~ (forall (now : DateTime) (people : list Person),
          wf now ->
          thisMonth (getBirthdayStats now people)
          = Spec.countBorn (month now + 1) people).
Proof.
  cbv zeta. split; [reflexivity|]. split; [reflexivity|].
  split; [reflexivity|]. split; [reflexivity|]. intros H.
  assert (W : wf (Spec.noon 2024 2 15)) by (repeat split; now vm_compute).
  specialize (H (Spec.noon 2024 2 15) [mkPerson 1 "A" "31.02.2000" None] W).
  vm_compute in H. discriminate H.
Qed.

End StatisticsClaim.

(** ** Ages *)

Section Age.

Lemma dayFromYear_succ (y : Z) :
  dayFromYear (y + 1) = dayFromYear y + 365 + (if isLeap y then 1 else 0).
Proof.
  unfold dayFromYear, isLeap.
  destruct (Z.eqb_spec (y mod 4) 0), (Z.eqb_spec (y mod 100) 0),
    (Z.eqb_spec (y mod 400) 0); cbn [andb orb negb];
    Z.div_mod_to_equations; lia.
Qed.

Lemma daysBeforeMonth_succ (y m : Z) :
  0 <= m <= 10 ->
  daysBeforeMonth y (m + 1) = daysBeforeMonth y m + daysInMonth y m.
Proof.
  intros H.
  assert (E : m = 0 \/ m = 1 \/ m = 2 \/ m = 3 \/ m = 4 \/ m = 5 \/ m = 6
              \/ m = 7 \/ m = 8 \/ m = 9 \/ m = 10) by lia.
  unfold daysBeforeMonth, daysInMonth.
  repeat (destruct E as [-> | E]; [destruct (isLeap y); reflexivity|]).
  subst. destruct (isLeap y); reflexivity.
Qed.

Lemma daysBeforeMonth_december (y : Z) :
  daysBeforeMonth y 11 + 31 = 365 + (if isLeap y then 1 else 0).
Proof. unfold daysBeforeMonth. destruct (isLeap y); reflexivity. Qed.

Lemma timeValue_fields (y m d t : Z) :
  timeValue (mkDateTime y m d t)
  = (dayFromYear y + daysBeforeMonth y m + d - 1) * msPerDay + t.
Proof. reflexivity. Qed.

Lemma add_month_fields (a : DateTime) (n k r : Z) :
  0 <= r <= 11 -> month a + n = k * 12 + r ->
  Dayjs.add_month a n
  = mkDateTime (year a + k) r
      (Z.min (day a) (daysInMonth (year a + k) r)) (millis a).
Proof.
  intros Hr E. unfold Dayjs.add_month. rewrite E.
  replace ((k * 12 + r) / 12) with k by (Z.div_mod_to_equations; lia).
  replace ((k * 12 + r) mod 12) with r by (Z.div_mod_to_equations; lia).
  reflexivity.
Qed.

(** The first days of consecutive months are one month length apart. *)
Lemma month_start_step (y m : Z) :
  0 <= m <= 11 ->
  let y' := if m =? 11 then y + 1 else y in
  let m' := if m =? 11 then 0 else m + 1 in
  dayFromYear y' + daysBeforeMonth y' m'
  = dayFromYear y + daysBeforeMonth y m + daysInMonth y m.
Proof.
  intros H. destruct (Z.eqb_spec m 11) as [-> | Hne]; cbv zeta.
  - rewrite dayFromYear_succ. pose proof (daysBeforeMonth_december y).
    change (daysBeforeMonth (y + 1) 0) with 0.
    change (daysInMonth y 11) with 31. lia.
  - rewrite daysBeforeMonth_succ by lia. lia.
Qed.

(** [roll] keeps the day number: a constructed date is the day that
    [MakeDay] denotes. *)
Lemma roll_day_number (fuel : nat) (y m d : Z) :
  0 <= m <= 11 ->
  let '(y', m', d') := roll fuel y m d in
  dayFromYear y' + daysBeforeMonth y' m' + d'
  = dayFromYear y + daysBeforeMonth y m + d.
Proof.
  revert y m d. induction fuel as [|f IH]; intros y m d Hm; [reflexivity|].
  cbn [roll]. destruct (Z.leb_spec d (daysInMonth y m)); [reflexivity|].
  pose proof (month_start_step y m Hm) as St. cbv zeta in St.
  destruct (Z.eqb_spec m 11) as [-> | Hne].
  - specialize (IH (y + 1) 0 (d - 31) ltac:(lia)).
    destruct (roll f (y + 1) 0 (d - 31)) as [[y' m'] d'].
    change (daysInMonth y 11) with 31 in St. lia.
  - specialize (IH y (m + 1) (d - daysInMonth y m) ltac:(lia)).
    destruct (roll f y (m + 1) (d - daysInMonth y m)) as [[y' m'] d']. lia.
Qed.

Lemma Qdiv_between (num den lo hi : Z) :
  0 < den -> lo * den <= num < hi * den ->
  (inject_Z lo <= inject_Z num / inject_Z den
   /\ inject_Z num / inject_Z den < inject_Z hi)%Q.
Proof.
  intros Hd [Hl Hh].
  assert (Hq : (0 < inject_Z den)%Q)
    by (change 0%Q with (inject_Z 0); rewrite <- Zlt_Qlt; exact Hd).
  split.
  - apply Qle_shift_div_l; [exact Hq|].
    rewrite <- inject_Z_mult, <- Zle_Qle. exact Hl.
  - apply Qlt_shift_div_r; [exact Hq|].
    rewrite <- inject_Z_mult, <- Zlt_Qlt. exact Hh.
Qed.

Lemma Qdiv_inside (num den lo hi : Z) :
  0 < den -> lo * den < num < hi * den ->
  (inject_Z lo < inject_Z num / inject_Z den
   /\ inject_Z num / inject_Z den < inject_Z hi)%Q.
Proof.
  intros Hd [Hl Hh].
  assert (Hq : (0 < inject_Z den)%Q)
    by (change 0%Q with (inject_Z 0); rewrite <- Zlt_Qlt; exact Hd).
  split.
  - apply Qlt_shift_div_l; [exact Hq|].
    rewrite <- inject_Z_mult, <- Zlt_Qlt. exact Hl.
  - apply Qlt_shift_div_r; [exact Hq|].
    rewrite <- inject_Z_mult, <- Zlt_Qlt. exact Hh.
Qed.

Lemma absFloor_between (x : Q) (k : Z) :
  0 <= k -> (inject_Z k <= x)%Q -> (x < inject_Z (k + 1))%Q ->
  Dayjs.absFloor x = k.
Proof.
  intros Hk Hl Hu. unfold Dayjs.absFloor.
  assert (H0 : (0 <= x)%Q).
  { apply Qle_trans with (inject_Z k); [|exact Hl].
    change 0%Q with (inject_Z 0). now rewrite <- Zle_Qle. }
  apply Qle_bool_iff in H0. rewrite H0.
  apply Z.le_antisymm.
  - apply Z.lt_succ_r. rewrite Zlt_Qlt.
    apply Qle_lt_trans with x; [apply Qfloor_le | exact Hu].
  - rewrite <- (Qfloor_Z k). now apply Qfloor_resp_le.
Qed.

(** A month difference between [W] and [W + 1] is [W / 12] whole years. *)
Lemma whole_years (md : Q) (W : Z) :
  0 <= W -> (inject_Z W <= md)%Q -> (md < inject_Z (W + 1))%Q ->
  Dayjs.absFloor (md / inject_Z 12)%Q = W / 12.
Proof.
  intros HW Hl Hu.
  assert (Hk : 0 <= W / 12) by (apply Z.div_pos; lia).
  assert (Hr : 12 * (W / 12) <= W < 12 * (W / 12) + 12)
    by (Z.div_mod_to_equations; lia).
  assert (E1 : (inject_Z W >= 12 * inject_Z (W / 12))%Q).
  { change 12%Q with (inject_Z 12). rewrite <- inject_Z_mult, <- Zle_Qle. lia. }
  assert (E2 : (inject_Z (W + 1) <= 12 * inject_Z (W / 12 + 1))%Q).
  { change 12%Q with (inject_Z 12). rewrite <- inject_Z_mult, <- Zle_Qle. lia. }
  apply absFloor_between; [exact Hk | |].
  - apply Qle_shift_div_l; [reflexivity|]. change (inject_Z 12) with 12%Q. lra.
  - apply Qlt_shift_div_r; [reflexivity|]. change (inject_Z 12) with 12%Q. lra.
Qed.

End Age.

Section AgeDiff.

(** [monthDiff_core a b] when the day of [b] is not after the day of [a]:
    the whole month difference corrected by a fraction of a month, which is
    negative when [b] lies before [a] moved to the month of [b]. *)
Lemma monthDiff_core_shape (ya ma da ta yb mb db tb : Z) :
  0 <= mb <= 11 -> 1 <= da -> 1 <= db <= daysInMonth yb mb -> db <= da ->
  0 <= ta < msPerDay -> 0 <= tb < msPerDay ->
  let w := (yb - ya) * 12 + (mb - ma) in
  let dc := Z.min da (daysInMonth yb mb) in
  exists q : Q,
    Dayjs.monthDiff_core (mkDateTime ya ma da ta) (mkDateTime yb mb db tb)
    = (- (inject_Z w + q))%Q
    /\ if (db <? dc) || ((db =? dc) && (tb <? ta))
       then (inject_Z (-1) < q /\ q < inject_Z 0)%Q
       else (inject_Z 0 <= q /\ q < inject_Z 1)%Q /\ (tb = ta -> q == 0)%Q.
Proof.
  intros Hmb Hda Hdb Hle Hta Htb w dc.
  unfold Dayjs.monthDiff_core. cbn [year month]. fold w.
  assert (An : Dayjs.add_month (mkDateTime ya ma da ta) w
               = mkDateTime yb mb dc ta).
  { rewrite (add_month_fields _ w (yb - ya) mb Hmb) by (cbn; lia).
    cbn [year day millis]. replace (ya + (yb - ya)) with yb by lia.
    reflexivity. }
  rewrite An, !timeValue_fields.
  set (s := dayFromYear yb + daysBeforeMonth yb mb).
  set (num := (s + db - 1) * msPerDay + tb - ((s + dc - 1) * msPerDay + ta)).
  assert (Hnum : num = (db - dc) * msPerDay + (tb - ta)) by (subst num; lia).
  pose proof (daysInMonth_bounds yb mb) as Bb.
  assert (Hdc : db <= dc <= daysInMonth yb mb) by (subst dc; lia).
  unfold msPerDay in *.
  destruct (Z.ltb_spec num 0) as [Hneg | Hpos].
  - (* [b] is before the anchor: the month before is the yardstick *)
    replace ((db <? dc) || ((db =? dc) && (tb <? ta))) with true.
    2:{ symmetry. destruct (Z.ltb_spec db dc); [reflexivity|].
        destruct (Z.eqb_spec db dc); [|lia].
        destruct (Z.ltb_spec tb ta); [reflexivity | lia]. }
    set (yp := if mb =? 0 then yb - 1 else yb).
    set (mp := if mb =? 0 then 11 else mb - 1).
    assert (Hmp : 0 <= mp <= 11) by (subst mp; destruct (Z.eqb_spec mb 0); lia).
    assert (A2 : Dayjs.add_month (mkDateTime ya ma da ta) (w + -1)
                 = mkDateTime yp mp (Z.min da (daysInMonth yp mp)) ta).
    { rewrite (add_month_fields _ (w + -1) (yp - ya) mp Hmp).
      - cbn [year day millis]. replace (ya + (yp - ya)) with yp by lia.
        reflexivity.
      - cbn [month]. subst w yp mp. destruct (Z.eqb_spec mb 0); lia. }
    rewrite A2, timeValue_fields.
    pose proof (month_start_step yp mp Hmp) as St. cbv zeta in St.
    assert (Snext : dayFromYear yp + daysBeforeMonth yp mp + daysInMonth yp mp = s).
    { rewrite <- St. subst s yp mp.
      destruct (Z.eqb_spec mb 0) as [-> | Hne].
      - cbn [Z.eqb Pos.eqb]. now replace (yb - 1 + 1) with yb by lia.
      - destruct (Z.eqb_spec (mb - 1) 11); [lia|].
        now replace (mb - 1 + 1) with mb by lia. }
    pose proof (daysInMonth_bounds yp mp) as Bp.
    set (d2 := Z.min da (daysInMonth yp mp)) in *.
    set (den := (s + dc - 1) * 86400000 + ta
                - ((dayFromYear yp + daysBeforeMonth yp mp + d2 - 1) * 86400000 + ta)).
    assert (Hden : den = (daysInMonth yp mp + dc - d2) * 86400000)
      by (subst den; lia).
    exists (inject_Z num / inject_Z den)%Q. split; [reflexivity|].
    apply Qdiv_inside; subst d2; lia.
  - (* [b] is at or after the anchor: the month after is the yardstick *)
    assert (Edc : db = dc) by lia.
    replace ((db <? dc) || ((db =? dc) && (tb <? ta))) with false.
    2:{ symmetry. destruct (Z.ltb_spec db dc); [lia|].
        destruct (Z.eqb_spec db dc); [|reflexivity].
        destruct (Z.ltb_spec tb ta); [lia | reflexivity]. }
    set (yn := if mb =? 11 then yb + 1 else yb).
    set (mn := if mb =? 11 then 0 else mb + 1).
    assert (Hmn : 0 <= mn <= 11) by (subst mn; destruct (Z.eqb_spec mb 11); lia).
    assert (A2 : Dayjs.add_month (mkDateTime ya ma da ta) (w + 1)
                 = mkDateTime yn mn (Z.min da (daysInMonth yn mn)) ta).
    { rewrite (add_month_fields _ (w + 1) (yn - ya) mn Hmn).
      - cbn [year day millis]. replace (ya + (yn - ya)) with yn by lia.
        reflexivity.
      - cbn [month]. subst w yn mn. destruct (Z.eqb_spec mb 11); lia. }
    rewrite A2, timeValue_fields.
    pose proof (month_start_step yb mb Hmb) as St. cbv zeta in St.
    fold yn mn s in St.
    pose proof (daysInMonth_bounds yn mn) as Bn.
    set (d2 := Z.min da (daysInMonth yn mn)) in *.
    set (den := (dayFromYear yn + daysBeforeMonth yn mn + d2 - 1) * 86400000 + ta
                - ((s + dc - 1) * 86400000 + ta)).
    assert (Hden : den = (daysInMonth yb mb + d2 - dc) * 86400000)
      by (subst den; lia).
    exists (inject_Z num / inject_Z den)%Q. split; [reflexivity|]. split.
    + apply Qdiv_between; subst d2; lia.
    + intros ->. replace num with 0 by lia. reflexivity.
Qed.

End AgeDiff.

Section AgeClaim.

(** Whole years out of months: the cases of the month and day comparison. *)
Ltac years_by_cases M M0 D bound :=
  destruct (Z.ltb_spec M M0), (Z.eqb_spec M M0); cbn [orb andb];
  try (destruct (Z.ltb_spec D bound));
  subst; Z.div_mod_to_equations; lia.

Lemma diff_year_completed (now birth : DateTime) :
  wf now ->
  0 <= month birth <= 11 ->
  1 <= day birth <= daysInMonth (year birth) (month birth) ->
  millis birth = 0 ->
  Spec.notBefore now birth ->
  Dayjs.diff_year (Dayjs.wrap (Some now)) (Dayjs.wrap (Some birth))
  = Spec.completedYears now birth.
Proof.
  destruct now as [Y M D t], birth as [Y0 M0 D0 t0].
  unfold wf, Spec.notBefore, Spec.completedYears, Spec.beforeAnniversary.
  cbn [year month day millis].
  intros (_ & HM & HD & Ht) HM0 HD0 -> Hnb.
  pose proof (daysInMonth_bounds Y M) as B.
  pose proof (daysInMonth_bounds Y0 M0) as B0.
  pose proof (daysInMonth_bounds Y M0) as B1.
  unfold Dayjs.diff_year, Dayjs.monthDiff. cbn [Dayjs.value Dayjs.wrap day].
  destruct (Z.ltb_spec D D0) as [Hlt | Hge].
  - (* the day of the month of the birth is still ahead *)
    destruct (monthDiff_core_shape Y0 M0 D0 0 Y M D t)
      as (q & -> & Hq); try lia; try (unfold msPerDay; lia).
    cbv zeta in Hq.
    set (w := (Y - Y0) * 12 + (M - M0)) in *.
    assert (Hw : 1 <= w) by (subst w; lia).
    replace ((D =? Z.min D0 (daysInMonth Y M)) && (t <? 0)) with false in Hq
      by (destruct (Z.ltb_spec t 0); [lia | now rewrite andb_false_r]).
    rewrite orb_false_r in Hq.
    destruct (Z.ltb_spec D (Z.min D0 (daysInMonth Y M))) as [Hb | Hb].
    + rewrite (whole_years _ (w - 1)); [| lia | |].
      * subst w. years_by_cases M M0 D (Z.min D0 (daysInMonth Y M0)).
      * unfold Z.sub. rewrite inject_Z_plus. destruct Hq as [Hq1 Hq2].
        change (inject_Z (-1)) with (-1)%Q in *.
        change (inject_Z (- (1))) with (-1)%Q. lra.
      * replace (w - 1 + 1) with w by lia. destruct Hq as [Hq1 Hq2].
        change (inject_Z 0) with 0%Q in *. lra.
    + destruct Hq as [[Hq1 Hq2] _].
      rewrite (whole_years _ w); [| lia | |].
      * subst w. years_by_cases M M0 D (Z.min D0 (daysInMonth Y M0)).
      * change (inject_Z 0) with 0%Q in *. lra.
      * rewrite inject_Z_plus. change (inject_Z 1) with 1%Q in *. lra.
  - (* the day of the month of the birth is reached *)
    destruct (monthDiff_core_shape Y M D t Y0 M0 D0 0)
      as (q & -> & Hq); try lia; try (unfold msPerDay; lia).
    cbv zeta in Hq.
    set (w := (Y0 - Y) * 12 + (M0 - M)) in *.
    assert (Hw : 0 <= - w) by (subst w; lia).
    assert (E : - w / 12
                = Y - Y0
                  - (if (M <? M0)
                        || ((M =? M0) && (D <? Z.min D0 (daysInMonth Y M0)))
                     then 1 else 0)).
    { subst w. years_by_cases M M0 D (Z.min D0 (daysInMonth Y M0)). }
    rewrite <- E.
    destruct ((D0 <? Z.min D (daysInMonth Y0 M0))
              || ((D0 =? Z.min D (daysInMonth Y0 M0)) && (0 <? t))) eqn:C.
    + destruct Hq as [Hq1 Hq2]. apply whole_years; [exact Hw | |].
      * rewrite inject_Z_opp. change (inject_Z 0) with 0%Q in *. lra.
      * rewrite inject_Z_plus, inject_Z_opp.
        change (inject_Z (-1)) with (-1)%Q in *.
        change (inject_Z 1) with 1%Q. lra.
    + destruct Hq as [_ Hq0].
      assert (Et : 0 = t).
      { apply orb_false_elim in C. destruct C as [C1 C2].
        apply Z.ltb_ge in C1.
        destruct (Z.eqb_spec D0 (Z.min D (daysInMonth Y0 M0))); [|lia].
        cbn [andb] in C2. apply Z.ltb_ge in C2. lia. }
      specialize (Hq0 Et). apply whole_years; [exact Hw | |].
      * rewrite inject_Z_opp. lra.
      * rewrite inject_Z_plus, inject_Z_opp. change (inject_Z 1) with 1%Q. lra.
Qed.

End AgeClaim.

Section AgeTheorem.

(** C2, as the specification states it, fails on its own example: a person
    born on 15.06.1990 is 33 on 14.06.2024 and 34 on 15.06.2024.  A person
    born on 29.02.2000 is 0 on 27.02.2001 and 1 on 28.02.2001, a day that
    does not have the day and month of the birth. *)
Lemma age_example_refuted :
  let ivan := mkPerson 1 "Ivan" "15.06.1990" None in
  let leap := mkPerson 2 "Leap" "29.02.2000" None in
  ~ (getPersonAge (Spec.noon 2024 5 14) ivan = 34
     /\ getPersonAge (Spec.noon 2024 5 15) ivan = 35)
  /\ getPersonAge (Spec.noon 2024 5 14) ivan = 33
  /\ getPersonAge (Spec.noon 2024 5 15) ivan = 34
  /\ getPersonAge (Spec.noon 2001 1 27) leap = 0
  /\ getPersonAge (Spec.noon 2001 1 28) leap = 1.
Proof.
  cbv zeta. split; [|repeat split; vm_compute; reflexivity].
  intros [H _]. vm_compute in H. discriminate H.
Qed.

(** C2, amended: for a valid birth date and a reference day that is not
    before it, the age is the number of completed years: the difference of
    the years, less one while the anniversary of the reference year is still
    ahead.  The anniversary is the day and month of the birth; for a birth
    on 29 February it is 28 February in a year without that day.  The age is
    0 on the day of birth.  A person born on 15.06.1990 is 33 on 14.06.2024
    and 34 on 15.06.2024. *)
Theorem age_is_completed_years (now birth : DateTime) (p : Person) :
  wf now ->
  Spec.strictDate (birthDate p) = Some birth ->
  Spec.notBefore now birth ->
  getPersonAge now p = Spec.completedYears now birth
  /\ (day birth <= daysInMonth (year now) (month birth) ->
      getPersonAge now p
      = year now - year birth
        - (if (month now <? month birth)
              || ((month now =? month birth) && (day now <? day birth))
           then 1 else 0))
  /\ (year now = year birth -> month now = month birth ->
      day now = day birth -> getPersonAge now p = 0).
Proof.
  intros Hwf Hb Hnb.
  assert (E : getPersonAge now p = Spec.completedYears now birth).
  { unfold getPersonAge. rewrite (parse_strict_complete now birth _ Hb).
    apply strictDate_parseDate in Hb. destruct Hb as (Hp & _ & Hms).
    apply parseDate_real in Hp. unfold Spec.realDate in Hp.
    repeat (apply andb_prop in Hp; destruct Hp as [Hp ?]).
    replace (month birth + 1 - 1) with (month birth) in * by lia.
    apply diff_year_completed; auto; lia. }
  split; [exact E|]. rewrite E.
  unfold Spec.completedYears, Spec.beforeAnniversary. split.
  - intros Hd. now rewrite Z.min_l by exact Hd.
  - intros -> -> ->. rewrite Z.ltb_irrefl, Z.eqb_refl. cbn [orb andb].
    apply strictDate_parseDate in Hb. destruct Hb as (Hp & _).
    apply parseDate_real in Hp. unfold Spec.realDate in Hp.
    repeat (apply andb_prop in Hp; destruct Hp as [Hp ?]).
    replace (month birth + 1 - 1) with (month birth) in * by lia.
    destruct (Z.ltb_spec (day birth)
                (Z.min (day birth) (daysInMonth (year birth) (month birth))));
      lia.
Qed.

Lemma age_is_completed_years_witness :
  let ivan := mkPerson 1 "Ivan" "15.06.1990" None in
  getPersonAge (Spec.noon 2024 5 14) ivan = 33
  /\ getPersonAge (Spec.noon 2024 5 15) ivan = 34
  /\ getPersonAge (mkDateTime 1990 5 15 0) ivan = 0.
Proof.
  assert (W : forall now, wf now ->
            Spec.notBefore now (mkDateTime 1990 5 15 0) ->
            getPersonAge now (mkPerson 1 "Ivan" "15.06.1990" None)
            = Spec.completedYears now (mkDateTime 1990 5 15 0)).
  { intros now Hwf Hnb.
    destruct (age_is_completed_years now (mkDateTime 1990 5 15 0)
                (mkPerson 1 "Ivan" "15.06.1990" None) Hwf eq_refl Hnb)
      as [E _].
    exact E. }
  split; [|split].
  - rewrite W; [reflexivity | repeat split; now vm_compute | left; now vm_compute].
  - rewrite W; [reflexivity | repeat split; now vm_compute | left; now vm_compute].
  - rewrite W; [reflexivity | repeat split; now vm_compute |].
    right. split; [reflexivity|]. right. split; [reflexivity | now vm_compute].
Defined.

(** The scenario of the specification: on 01.01.2025 the roster with the
    single person A, born 01.01.2000, yields A, aged 25. *)
Example scenario_new_year :
  let a := mkPerson 1 "A" "01.01.2000" None in
  getPeopleWithBirthdayToday (Spec.noon 2025 0 1) [a] = [a]
  /\ getPersonAge (Spec.noon 2025 0 1) a = 25.
Proof. split; vm_compute; reflexivity. Qed.

End AgeTheorem.

(** ** The daily job *)

Section DailyJob.

Lemma run_bind {A B : Type} (env : Env) (p : Async A) (f : A -> Async B)
    (n : nat) (trace : list Call) :
  run env (bind p f) n trace
  = match run env p n trace with
    | (inl a, n', trace') => run env (f a) n' trace'
    | (inr e, n', trace') => (inr e, n', trace')
    end.
Proof.
  revert n trace.
  induction p as [a | e | k IH | m k IH | c k IH]; intros n trace;
    cbn [bind run]; auto.
Qed.

(** One person: the image is sent; the text is sent when the image send
    failed; whatever the outcome, nothing is thrown. *)
Lemma run_sendBirthdayCongratulations (env : Env) (chatId : string)
    (person : Person) (n : nat) (trace : list Call) :
  let message := congratulationsMessage (env_clock env n) person in
  let photo :=
    SendPhoto chatId (nth (env_random env (S n) mod 5)%nat birthdayImages "")
      message in
  run env (sendBirthdayCongratulations chatId person) n trace
  = if env_outcome env (S (S n))
    then (inl tt, S (S (S n)), trace ++ [photo])%list
    else (inl tt, S (S (S (S n))),
          (trace ++ [photo]) ++ [SendMessage chatId message])%list.
Proof.
  cbv zeta. unfold sendBirthdayCongratulations, await.
  cbn [run try_catch List.length birthdayImages].
  destruct (env_outcome env (S (S n))); cbn [run try_catch]; [reflexivity|].
  destruct (env_outcome env (S (S (S n)))); reflexivity.
Qed.

Lemma run_for_of (env : Env) (chatId : string) (l : list Person) (n : nat)
    (trace : list Call) :
  exists n',
    run env (for_of l (sendBirthdayCongratulations chatId)) n trace
    = (inl tt, n', (trace ++ Spec.owedCalls env chatId n l)%list).
Proof.
  revert n trace. induction l as [|p l IH]; intros n trace.
  - exists n. cbn. now rewrite app_nil_r.
  - cbn [for_of Spec.owedCalls]. rewrite run_bind.
    rewrite run_sendBirthdayCongratulations.
    rewrite !Nat.add_1_r, <- !plus_n_Sm, <- !plus_n_O.
    destruct (env_outcome env (S (S n)));
      match goal with
      | |- context [run env (for_of l _) ?m ?t] =>
          destruct (IH m t) as [n' ->]
      end;
      exists n'; now rewrite <- !app_assoc.
Qed.

Lemma owedCalls_photos (env : Env) (chatId : string) (l : list Person)
    (n : nat) :
  map Spec.mentioned (filter Spec.isPhoto (Spec.owedCalls env chatId n l))
  = map mentionOf l.
Proof.
  revert n. induction l as [|p l IH]; intros n; [reflexivity|].
  cbn [Spec.owedCalls]. destruct (env_outcome env (n + 2));
    cbn [filter Spec.isPhoto map Spec.mentioned mention congratulationsMessage];
    now rewrite IH.
Qed.

(** C8: whatever the transport answers, one fire of the job sends, for
    each person with a birthday and in roster order, the image variant once
    and, when that send fails, the text variant once; it goes on to the next
    person after a failure of either, and nothing is thrown to the caller. *)
Theorem daily_job_notifies_each (env : Env) (chatId : string)
    (people : list Person) :
  let birthdayPeople := getPeopleWithBirthdayToday (env_clock env 0) people in
  let outcome := run env (checkBirthdays chatId people) 0 [] in
  fst (fst outcome) = inl tt
  /\ snd outcome = Spec.owedCalls env chatId 1 birthdayPeople
  /\ map Spec.mentioned (filter Spec.isPhoto (snd outcome))
     = map mentionOf birthdayPeople
  /\ List.length (filter Spec.isPhoto (snd outcome))
     = List.length birthdayPeople.
Proof.
  cbv zeta.
  assert (E : exists n',
             run env (checkBirthdays chatId people) 0 []
             = (inl tt, n',
                Spec.owedCalls env chatId 1
                  (getPeopleWithBirthdayToday (env_clock env 0) people))).
  { unfold checkBirthdays. cbn [run].
    destruct (getPeopleWithBirthdayToday (env_clock env 0) people) as [|p l] eqn:M.
    - exists 1%nat. reflexivity.
    - cbn [List.length Nat.eqb].
      destruct (run_for_of env chatId (p :: l) 1 []) as [n' ->]. now exists n'. }
  destruct E as [n' ->]. cbn [fst snd].
  split; [reflexivity|]. split; [reflexivity|]. split.
  - apply owedCalls_photos.
  - rewrite <- (length_map Spec.mentioned), owedCalls_photos. apply length_map.
Qed.

End DailyJob.

Section Overlap.

Lemma advance_for_of (chatId : string) (now : DateTime) (rnd : nat)
    (p : Person) (l : list Person) :
  exists k,
    advance now rnd (for_of (p :: l) (sendBirthdayCongratulations chatId))
    = Await (SendPhoto chatId (nth (rnd mod 5)%nat birthdayImages "")
               (congratulationsMessage now p)) k.
Proof.
  cbn [for_of bind sendBirthdayCongratulations try_catch await advance
         List.length birthdayImages].
  eexists. reflexivity.
Qed.

(** C7, as the specification states it, fails: the job has no guard.  A
    fire on 1 January starts a run that awaits its image send; the fire of
    2 January finds that run in progress and starts a second run at once. *)
Lemma overlapping_fire_runs_at_once :
  ~ (forall (chatId : string) (people : list Person) (now : DateTime)
            (rnd : nat) (j : Job),
        pending j <> [] ->
        issued (fire chatId people now rnd j) = issued j).
Proof.
  intros H.
  set (people := [mkPerson 1 "A" "01.01.2000" (Some "a");
                  mkPerson 2 "B" "02.01.2000" (Some "b")]).
  set (j1 := fire "chat" people (mkDateTime 2025 0 1 (11 * 3600000)) 0 idle).
  specialize (H "chat" people (mkDateTime 2025 0 2 (11 * 3600000)) 0%nat j1).
  assert (P : pending j1 <> []) by (vm_compute; discriminate).
  specialize (H P). vm_compute in H. discriminate H.
Qed.

(** C7, amended: the job keeps no record of a run in progress, so a fire
    does the same whether or not earlier runs are still awaiting a send.  On
    a day with birthdays it starts a run at once: the image send for the
    first person is issued and the run joins the runs in progress; on a day
    without birthdays it changes nothing. *)
Theorem fire_starts_run_at_once (chatId : string) (people : list Person)
    (now : DateTime) (rnd : nat) (j : Job) :
  let birthdayPeople := getPeopleWithBirthdayToday now people in
  (pending (fire chatId people now rnd j)
   = (pending j ++ pending (fire chatId people now rnd idle))%list
   /\ issued (fire chatId people now rnd j)
      = (issued j ++ issued (fire chatId people now rnd idle))%list)
  /\ (birthdayPeople = [] -> fire chatId people now rnd j = j)
  /\ (forall p rest, birthdayPeople = p :: rest ->
        exists k,
          let c := SendPhoto chatId (nth (rnd mod 5)%nat birthdayImages "")
                     (congratulationsMessage now p) in
          fire chatId people now rnd j
          = mkJob (pending j ++ [(c, k)])%list (issued j ++ [c])%list).
Proof.
  intros birthdayPeople. split; [|split].
  - unfold fire, resume.
    destruct (advance now rnd (checkBirthdays chatId people));
      cbn [pending issued idle app]; now rewrite ?app_nil_r.
  - intros E. unfold fire, resume, checkBirthdays. cbn [advance].
    fold birthdayPeople. rewrite E. cbn. now destruct j.
  - intros p rest E. unfold fire, resume, checkBirthdays. cbn [advance].
    fold birthdayPeople. rewrite E. cbn [List.length Nat.eqb].
    destruct (advance_for_of chatId now rnd p rest) as [k ->].
    now exists k.
Qed.

Lemma fire_starts_run_at_once_witness :
  let people := [mkPerson 1 "A" "01.01.2000" (Some "a");
                 mkPerson 2 "B" "02.01.2000" (Some "b")] in
  let day1 := mkDateTime 2025 0 1 (11 * 3600000) in
  let day2 := mkDateTime 2025 0 2 (11 * 3600000) in
  let j2 := fire "chat" people day2 0 (fire "chat" people day1 0 idle) in
  List.length (pending j2) = 2%nat.
Proof.
  cbv zeta.
  set (people := [mkPerson 1 "A" "01.01.2000" (Some "a");
                  mkPerson 2 "B" "02.01.2000" (Some "b")]).
  destruct (fire_starts_run_at_once "chat" people
              (mkDateTime 2025 0 1 (11 * 3600000)) 0 idle)
    as (_ & _ & F1).
  destruct (F1 (mkPerson 1 "A" "01.01.2000" (Some "a")) [] eq_refl) as [k1 E1].
  destruct (fire_starts_run_at_once "chat" people
              (mkDateTime 2025 0 2 (11 * 3600000)) 0
              (fire "chat" people (mkDateTime 2025 0 1 (11 * 3600000)) 0 idle))
    as (_ & _ & F2).
  destruct (F2 (mkPerson 2 "B" "02.01.2000" (Some "b")) [] eq_refl) as [k2 E2].
  cbv zeta in E1, E2. rewrite E2, E1. reflexivity.
Defined.

(** A run goes on when its call in flight settles: after a rejected image
    send the text send is in flight, and the run ends when that settles. *)
Example run_ends_after_settle :
  let people := [mkPerson 1 "A" "01.01.2000" (Some "a")] in
  let day1 := mkDateTime 2025 0 1 (11 * 3600000) in
  let j1 := fire "chat" people day1 0 idle in
  let j2 := settle 0 false day1 0 j1 in
  let j3 := settle 0 false day1 0 j2 in
  List.length (pending j1) = 1%nat
  /\ List.length (pending j2) = 1%nat
  /\ pending j3 = []
  /\ map Spec.isPhoto (issued j3) = [true; false]
  /\ pending (settle 0 true day1 0 j1) = [].
Proof. repeat split. Qed.

End Overlap.

(** * Further properties of the code *)

(** ** Removal and lookup by id *)

Section RemoveLookup.

Lemma find_split {A : Type} (f : A -> bool) (l : list A) :
  match find f l with
  | Some q =>
      exists pre post i,
        l = (pre ++ q :: post)%list /\ f q = true
        /\ (forall p, In p pre -> f p = false)
        /\ JS.findIndex f l = Some i
        /\ JS.splice1 i l = (pre ++ post)%list
  | None => JS.findIndex f l = None /\ forall p, In p l -> f p = false
  end.
Proof.
  induction l as [|a l IH]; simpl.
  - split; [reflexivity | intros p []].
  - destruct (f a) eqn:Fa.
    + exists [], l, O. repeat split; auto. intros p [].
    + destruct (find f l) as [q|].
      * destruct IH as (pre & post & i & -> & Fq & Hpre & -> & Hs).
        exists (a :: pre), post, (S i). simpl. repeat split; auto.
        -- intros p [<- | Hp]; auto.
        -- change (JS.splice1 (S i) (a :: pre ++ q :: post))
             with (a :: JS.splice1 i (pre ++ q :: post)).
           now rewrite Hs.
      * destruct IH as [-> Hall]. split; [reflexivity|].
        intros p [<- | Hp]; auto.
Qed.

Lemma find_app_none {A : Type} (f : A -> bool) (pre l : list A) :
  (forall p, In p pre -> f p = false) -> find f (pre ++ l) = find f l.
Proof.
  induction pre as [|a pre IH]; intros H; simpl; [reflexivity|].
  rewrite (H a (or_introl eq_refl)). apply IH. intros p Hp. apply H. now right.
Qed.

Lemma find_none_all {A : Type} (f : A -> bool) (l : list A) :
  (forall p, In p l -> f p = false) -> find f l = None.
Proof.
  induction l as [|a l IH]; intros H; simpl; [reflexivity|].
  rewrite (H a (or_introl eq_refl)). apply IH. intros p Hp. apply H. now right.
Qed.

Lemma find_skip {A : Type} (g : A -> bool) (pre post : list A) (q : A) :
  g q = false -> find g (pre ++ q :: post) = find g (pre ++ post).
Proof.
  intros Gq. induction pre as [|a pre IH]; simpl.
  - now rewrite Gq.
  - now rewrite IH.
Qed.

Lemma removePerson_split (people : list Person) (i : Z) :
  (exists pre q post,
     people = (pre ++ q :: post)%list
     /\ id q = i
     /\ (forall p, In p pre -> id p <> i)
     /\ getPersonById people i = Some q
     /\ removePerson people i = ((pre ++ post)%list, true))
  \/ (getPersonById people i = None /\ removePerson people i = (people, false)).
Proof.
  unfold getPersonById, removePerson.
  pose proof (find_split (fun person => id person =? i) people) as H.
  destruct (find (fun person => id person =? i) people) as [q|].
  - destruct H as (pre & post & k & E & Fq & Hpre & -> & Hs).
    left. exists pre, q, post. repeat split; auto.
    + now apply Z.eqb_eq.
    + intros p Hp. apply Z.eqb_neq. now apply Hpre.
    + now rewrite Hs.
  - destruct H as [-> _]. now right.
Qed.

(** X1: [removePerson] takes out the record that [getPersonById] returns for
    the id, the first one with it, and leaves the others in their order;
    for an id that [getPersonById] does not find it changes nothing and
    returns false. *)
Theorem removePerson_takes_found (people : list Person) (i : Z) :
  match getPersonById people i with
  | Some q =>
      exists pre post,
        people = (pre ++ q :: post)%list
        /\ id q = i
        /\ (forall p, In p pre -> id p <> i)
        /\ removePerson people i = ((pre ++ post)%list, true)
  | None => removePerson people i = (people, false)
  end.
Proof.
  destruct (removePerson_split people i)
    as [(pre & q & post & E & Eq & Hpre & -> & R) | [-> R]]; [|exact R].
  now exists pre, post.
Qed.

(** X2: after [removePerson] the lookups of all other ids are as before; when
    the ids of the roster are distinct the removed id is no longer found
    and a second removal of it returns false and changes nothing. *)
Theorem removePerson_then_lookup (people : list Person) (i : Z) :
  NoDup (map id people) ->
  let people' := fst (removePerson people i) in
  getPersonById people' i = None
  /\ removePerson people' i = (people', false)
  /\ (forall j, j <> i -> getPersonById people' j = getPersonById people j).
Proof.
  intros Hnd. cbv zeta.
  assert (Hother : forall j, j <> i ->
            getPersonById (fst (removePerson people i)) j
            = getPersonById people j).
  { intros j Hj. unfold getPersonById, removePerson.
    pose proof (find_split (fun person => id person =? i) people) as H.
    destruct (find (fun person => id person =? i) people) as [q|].
    - destruct H as (pre & post & k & E & Fq & Hpre & -> & Hs).
      cbn [fst]. rewrite Hs, E. symmetry. apply find_skip.
      apply Z.eqb_eq in Fq. apply Z.eqb_neq. congruence.
    - destruct H as [-> _]. reflexivity. }
  assert (Hgone : getPersonById (fst (removePerson people i)) i = None).
  { apply find_id_none. intros p Hp.
    destruct (removePerson_split people i)
      as [(pre & q & post & E & Eq & Hpre & G & R) | [G R]].
    - rewrite R in Hp. cbn [fst] in Hp.
      rewrite E, map_app in Hnd. cbn [map] in Hnd.
      apply NoDup_remove_2 in Hnd.
      intros Ep. apply Hnd. rewrite <- map_app, Eq, <- Ep. now apply in_map.
    - rewrite R in Hp. cbn [fst] in Hp.
      unfold getPersonById in G.
      apply (find_none _ _ G) in Hp. now apply Z.eqb_neq. }
  split; [exact Hgone|]. split; [|exact Hother].
  destruct (removePerson_split (fst (removePerson people i)) i)
    as [(pre & q & post & _ & _ & _ & G & _) | [_ R]]; [congruence | exact R].
Qed.

Lemma removePerson_then_lookup_witness :
  let people := [mkPerson 1 "A" "01.01.2000" (Some "a");
                 mkPerson 2 "B" "02.02.2001" (Some "b");
                 mkPerson 5 "C" "03.03.2002" None] in
  NoDup (map id people)
  /\ getPersonById (fst (removePerson people 2)) 2 = None
  /\ getPersonById (fst (removePerson people 2)) 5
     = Some (mkPerson 5 "C" "03.03.2002" None).
Proof.
  cbv zeta.
  assert (Hnd : NoDup (map id [mkPerson 1 "A" "01.01.2000" (Some "a");
                               mkPerson 2 "B" "02.02.2001" (Some "b");
                               mkPerson 5 "C" "03.03.2002" None])).
  { cbn. repeat constructor; cbn; intuition discriminate. }
  split; [exact Hnd|].
  destruct (removePerson_then_lookup _ 2 Hnd) as (G & _ & O).
  split; [exact G|]. rewrite (O 5); [reflexivity | discriminate].
Defined.

End RemoveLookup.

(** ** Removal by name and lookups after an addition *)

Section RemoveByName.

Lemma find_app_some {A : Type} (f : A -> bool) (l r : list A) (q : A) :
  find f l = Some q -> find f (l ++ r) = Some q.
Proof.
  induction l as [|a l IH]; simpl; [discriminate|].
  destruct (f a); auto.
Qed.

Lemma same_pivot (pre pre' post post' : list Person) (q q' : Person) :
  NoDup (map id (pre ++ q :: post)) ->
  (pre ++ q :: post = pre' ++ q' :: post')%list ->
  id q = id q' ->
  pre = pre' /\ q = q' /\ post = post'.
Proof.
  revert pre'. induction pre as [|a pre IH]; intros pre' Hnd E Hid.
  - destruct pre' as [|a' pre']; simpl in E.
    + injection E as -> ->. auto.
    + exfalso. injection E as -> ->. simpl in Hnd.
      apply NoDup_cons_iff in Hnd. destruct Hnd as [Hn _]. apply Hn.
      rewrite Hid, map_app. apply in_or_app. right. now left.
  - destruct pre' as [|a' pre']; simpl in E.
    + exfalso. injection E as -> <-. simpl in Hnd.
      apply NoDup_cons_iff in Hnd. destruct Hnd as [Hn _]. apply Hn.
      rewrite <- Hid, map_app. apply in_or_app. right. now left.
    + injection E as -> E. simpl in Hnd. apply NoDup_cons_iff in Hnd.
      destruct (IH pre' (proj2 Hnd) E Hid) as (-> & -> & ->). auto.
Qed.

(** Removing the id of the first record that satisfies [f]. *)
Lemma removePerson_found (f : Person -> bool) (people : list Person)
    (q : Person) :
  find f people = Some q ->
  snd (removePerson people (id q)) = true
  /\ S (List.length (fst (removePerson people (id q)))) = List.length people
  /\ exists pre post,
       people = (pre ++ q :: post)%list
       /\ f q = true
       /\ (forall p, In p pre -> f p = false)
       /\ (NoDup (map id people) ->
           fst (removePerson people (id q)) = (pre ++ post)%list).
Proof.
  intros F. pose proof (find_split f people) as H. rewrite F in H.
  destruct H as (pre & post & k & E & Fq & Hpre & _ & _).
  destruct (removePerson_split people (id q))
    as [(pre' & q' & post' & E' & Eq & Hpre' & _ & ->) | [G _]].
  - cbn [fst snd].
    split; [reflexivity|]. split.
    + rewrite E'. rewrite !List.length_app. simpl. lia.
    + exists pre, post. repeat split; auto.
      intros Hnd. rewrite E in Hnd.
      assert (E2 : (pre ++ q :: post = pre' ++ q' :: post')%list)
        by congruence.
      destruct (same_pivot _ _ _ _ _ _ Hnd E2 (eq_sym Eq)) as (-> & _ & ->).
      reflexivity.
  - exfalso. unfold getPersonById in G.
    assert (Hin : In q people) by (rewrite E; apply in_or_app; right; now left).
    apply (find_none _ _ G) in Hin. now rewrite Z.eqb_refl in Hin.
Qed.

(** X3: [removePersonByName] throws exactly when no name equals the given one
    up to letter case.  Otherwise it returns true and the roster loses one
    record; when the ids of the roster are distinct, that record is the
    first one with such a name and the others keep their order. *)
Theorem removePersonByName_first_match (people : list Person) (n : string) :
  match removePersonByName people n with
  | None =>
      forall p, In p people -> JS.toLowerCase (name p) <> JS.toLowerCase n
  | Some (people', flag) =>
      flag = true
      /\ S (List.length people') = List.length people
      /\ exists pre q post,
           people = (pre ++ q :: post)%list
           /\ JS.toLowerCase (name q) = JS.toLowerCase n
           /\ (forall p, In p pre ->
                 JS.toLowerCase (name p) <> JS.toLowerCase n)
           /\ (NoDup (map id people) -> people' = (pre ++ post)%list)
  end.
Proof.
  unfold removePersonByName.
  set (f := fun p => String.eqb (JS.toLowerCase (name p)) (JS.toLowerCase n)).
  destruct (find f people) as [q|] eqn:F.
  - destruct (removePerson_found f people q F)
      as (Hflag & Hlen & pre & post & E & Fq & Hpre & Hnd).
    destruct (removePerson people (id q)) as [people' flag]. cbn [fst snd] in *.
    split; [exact Hflag|]. split; [exact Hlen|].
    exists pre, q, post. split; [exact E|]. split.
    + now apply String.eqb_eq.
    + split; [|exact Hnd].
      intros p Hp. apply String.eqb_neq. now apply Hpre.
  - intros p Hp. apply String.eqb_neq. exact (find_none _ _ F p Hp).
Qed.

(** X4: a validated addition, whatever its outcome, leaves every record that
    [getPersonById] found before to be found under the same id. *)
Theorem validated_add_keeps_lookups (now : DateTime) (people : list Person)
    (n b : string) (u : option string) (j : Z) (q : Person) :
  getPersonById people j = Some q ->
  getPersonById
    (fst (addPersonFromTelegramWithValidation now people n b u)) j = Some q.
Proof.
  intros G.
  destruct (validated_add_cases now people n b u)
    as [[e ->] | (h & _ & _ & _ & _ & _ & _ & ->)]; cbn [fst]; [exact G|].
  unfold getPersonById in *. now apply find_app_some.
Qed.

Lemma validated_add_keeps_lookups_witness :
  let a := mkPerson 1 "A" "01.01.2000" (Some "a") in
  getPersonById
    (fst (addPersonFromTelegramWithValidation (Spec.noon 2024 5 15) [a]
            "B" "02.02.2001" (Some "@b"))) 1 = Some a.
Proof.
  cbv zeta. apply validated_add_keeps_lookups. reflexivity.
Defined.

End RemoveByName.

(** ** Search by name *)

Section Search.

Lemma prefix_iff (p s : string) :
  prefix p s = true <-> exists b, s = p ++ b.
Proof.
  revert s. induction p as [|c p IH]; intros s.
  - split; [intros _; now exists s | intros _; now destruct s].
  - destruct s as [|d s]; simpl;
      [split; [discriminate | intros [b E]; discriminate]|].
    destruct (ascii_dec c d) as [-> | N].
    + rewrite IH. split; intros [b E]; exists b; [now rewrite E|].
      now injection E.
    + split; [discriminate|]. intros [b E]. injection E as E _. congruence.
Qed.

Lemma includes_iff (s p : string) :
  JSText.includes s p = true <-> exists a b, s = a ++ p ++ b.
Proof.
  induction s as [|c s IH]; cbn [JSText.includes].
  - destruct (prefix p "") eqn:P.
    + split; [intros _|reflexivity]. apply prefix_iff in P.
      destruct P as [b E]. now exists "", b.
    + split; [discriminate|]. intros (a & b & E). exfalso.
      destruct a as [|x a]; [|discriminate]. simpl in E.
      assert (P' : prefix p "" = true) by (apply prefix_iff; now exists b).
      congruence.
  - destruct (prefix p (String c s)) eqn:P.
    + split; [intros _|reflexivity]. apply prefix_iff in P.
      destruct P as [b E]. now exists "", b.
    + rewrite IH. split.
      * intros (a & b & ->). now exists (String c a), b.
      * intros (a & b & E). destruct a as [|x a].
        -- exfalso. simpl in E.
           assert (P' : prefix p (String c s) = true)
             by (apply prefix_iff; now exists b).
           congruence.
        -- injection E as _ ->. now exists a, b.
Qed.

Lemma lower_char_idem (c : ascii) :
  JS.lower_char (JS.lower_char c) = JS.lower_char c.
Proof. destruct c as [[] [] [] [] [] [] [] []]; reflexivity. Qed.

Lemma toLowerCase_idem (s : string) :
  JS.toLowerCase (JS.toLowerCase s) = JS.toLowerCase s.
Proof.
  induction s as [|c s IH]; simpl; [reflexivity|].
  now rewrite lower_char_idem, IH.
Qed.

Lemma toLowerCase_empty (s : string) : JS.toLowerCase s = "" -> s = "".
Proof. destruct s; [reflexivity | discriminate]. Qed.

Lemma includes_self (s : string) : JSText.includes s s = true.
Proof. apply includes_iff. exists "", "". simpl. clear. induction s; simpl; congruence. Qed.

Lemma includes_empty (s : string) : JSText.includes s "" = true.
Proof. destruct s; reflexivity. Qed.

(** X5: [findPeopleByName] returns exactly the people of the roster whose
    name, in lower case, has the search term, in lower case, as a
    contiguous part. *)
Theorem findPeopleByName_contains (people : list Person) (searchTerm : string)
    (p : Person) :
  In p (PeopleSearch.findPeopleByName people searchTerm)
  <-> In p people
      /\ exists a b,
           JS.toLowerCase (name p) = a ++ JS.toLowerCase searchTerm ++ b.
Proof.
  unfold PeopleSearch.findPeopleByName. rewrite filter_In.
  now rewrite includes_iff.
Qed.

(** X6: the empty search term returns the whole roster; the letter case of the
    term does not matter; and everyone is found by their own name. *)
Theorem findPeopleByName_edges (people : list Person) (searchTerm : string) :
  PeopleSearch.findPeopleByName people "" = people
  /\ PeopleSearch.findPeopleByName people (JS.toLowerCase searchTerm)
     = PeopleSearch.findPeopleByName people searchTerm
  /\ (forall p, In p people ->
        In p (PeopleSearch.findPeopleByName people (name p))).
Proof.
  unfold PeopleSearch.findPeopleByName. split; [|split].
  - change (JS.toLowerCase "") with "".
    induction people as [|q l IH]; [reflexivity|].
    cbn [filter]. now rewrite includes_empty, IH.
  - now rewrite toLowerCase_idem.
  - intros p Hp. apply filter_In. split; [exact Hp | apply includes_self].
Qed.

Lemma findPeopleByName_edges_witness :
  let a := mkPerson 1 "Anna" "01.01.2000" (Some "a") in
  let b := mkPerson 2 "Hanna B" "02.02.2001" None in
  PeopleSearch.findPeopleByName [a; b] "" = [a; b]
  /\ In b (PeopleSearch.findPeopleByName [a; b] "Hanna B").
Proof.
  cbv zeta.
  destruct (findPeopleByName_edges
              [mkPerson 1 "Anna" "01.01.2000" (Some "a");
               mkPerson 2 "Hanna B" "02.02.2001" None] "ANN")
    as (E & _ & O).
  split; [exact E|]. apply (O (mkPerson 2 "Hanna B" "02.02.2001" None)).
  right. now left.
Defined.

End Search.

(** ** The administrators *)

Section Administrators.

Import Admin Vocabulary.

Lemma split_free (sep : ascii) (a : string) :
  free_of sep a = true -> JSText.split sep a = [a].
Proof.
  induction a as [|c a IH]; simpl; [reflexivity|].
  intros H. apply andb_prop in H. destruct H as [Hc Ha].
  apply negb_true_iff in Hc. rewrite Hc, (IH Ha). reflexivity.
Qed.

Lemma split_app (sep : ascii) (a r : string) :
  free_of sep a = true ->
  JSText.split sep (a ++ String sep r) = a :: JSText.split sep r.
Proof.
  induction a as [|c a IH]; simpl.
  - intros _. now rewrite Ascii.eqb_refl.
  - intros H. apply andb_prop in H. destruct H as [Hc Ha].
    apply negb_true_iff in Hc. rewrite Hc, (IH Ha). reflexivity.
Qed.

Lemma split_concat (sep : ascii) (names : list string) :
  names <> [] ->
  (forall a, In a names -> free_of sep a = true) ->
  JSText.split sep (String.concat (String sep "") names) = names.
Proof.
  induction names as [|a l IH]; intros Hne Hfree; [congruence|].
  destruct l as [|b l].
  - simpl. apply split_free. apply Hfree. now left.
  - change (String.concat (String sep "") (a :: b :: l))
      with (a ++ String sep (String.concat (String sep "") (b :: l))).
    rewrite split_app by (apply Hfree; now left).
    f_equal. apply IH; [discriminate|].
    intros x Hx. apply Hfree. now right.
Qed.

Lemma isAdmin_in (l : list string) (u : string) :
  isAdmin l (Some u) = true <-> u <> "" /\ In (JS.toLowerCase u) l.
Proof.
  unfold isAdmin. destruct u as [|c u].
  - split; [discriminate | intros [H _]; congruence].
  - rewrite existsb_exists. split.
    + intros (x & Hx & E). apply String.eqb_eq in E. subst x.
      split; [discriminate | exact Hx].
    + intros [_ H]. exists (JS.toLowerCase (String c u)).
      split; [exact H | apply String.eqb_refl].
Qed.

(** X7: without the setting [ADMIN_USERNAMES], or with the empty setting, the
    list of administrators holds the empty name only, which no sender can
    have: nobody is an administrator, so no [/add] and no [/remove] changes
    the roster. *)
Theorem nobody_admin_without_setting (now : DateTime) (people : list Person)
    (username : option string) (match1 : string) :
  let admins := parseAdmins None in
  parseAdmins (Some "") = admins
  /\ isAdmin admins username = false
  /\ onAdd now admins people username match1 = (people, AddAdminOnly)
  /\ onRemove admins people username match1 = (people, RemoveAdminOnly).
Proof.
  cbv zeta.
  assert (A : isAdmin (parseAdmins None) username = false).
  { destruct username as [[|c u]|]; reflexivity. }
  split; [reflexivity|]. split; [exact A|].
  unfold onAdd, onRemove. now rewrite A.
Qed.

(** X8: with the setting made of the names [names] joined by commas, a sender
    is an administrator exactly when the username is not empty and equals
    one of the names, trimmed, up to letter case. *)
Theorem isAdmin_iff_listed (names : list string) (u : string) :
  names <> [] ->
  (forall a, In a names -> free_of "," a = true) ->
  isAdmin (parseAdmins (Some (String.concat "," names))) (Some u) = true
  <-> u <> ""
      /\ exists a, In a names
                   /\ JS.toLowerCase (JS.trim a) = JS.toLowerCase u.
Proof.
  intros Hne Hfree.
  assert (E : parseAdmins (Some (String.concat "," names))
              = map (fun a => JS.toLowerCase (JS.trim a)) names).
  { unfold parseAdmins.
    replace (match String.concat "," names with
             | "" => ""
             | String c r => String c r
             end) with (String.concat "," names)
      by now destruct (String.concat "," names).
    now rewrite split_concat. }
  rewrite E, isAdmin_in, in_map_iff.
  split; intros [H (a & X & Y)]; (split; [exact H|]; exists a; auto).
Qed.

Lemma isAdmin_iff_listed_witness :
  isAdmin (parseAdmins (Some "alice, Bob ,carol")) (Some "BOB") = true.
Proof.
  apply (isAdmin_iff_listed ["alice"; " Bob "; "carol"] "BOB").
  - discriminate.
  - intros a [<- | [<- | [<- | []]]]; reflexivity.
  - split; [discriminate|]. exists " Bob ". split; [right; now left|].
    reflexivity.
Defined.

End Administrators.

(** ** The commands [/add] and [/remove] *)

Section Commands.

Import Admin Vocabulary.

Lemma trimEnd_no_space (s : string) : no_space s = true -> JS.trimEnd s = s.
Proof.
  induction s as [|c s IH]; simpl; [reflexivity|].
  intros H. apply andb_prop in H. destruct H as [Hc Hs].
  apply negb_true_iff in Hc. rewrite (IH Hs), Hc. now destruct s.
Qed.

Lemma trimStart_no_space (s : string) : no_space s = true -> JS.trimStart s = s.
Proof.
  destruct s as [|c s]; simpl; [reflexivity|].
  intros H. apply andb_prop in H. destruct H as [Hc _].
  apply negb_true_iff in Hc. now rewrite Hc.
Qed.

Lemma trim_no_space (s : string) : no_space s = true -> JS.trim s = s.
Proof.
  intros H. unfold JS.trim. rewrite (trimStart_no_space s H).
  now apply trimEnd_no_space.
Qed.

Lemma trimEnd_cons (c : ascii) (s : string) :
  JS.is_space c = false -> JS.trimEnd (String c s) = String c (JS.trimEnd s).
Proof. intros H. simpl. rewrite H. now destruct (JS.trimEnd s). Qed.

Lemma trimEnd_idem (s : string) : JS.trimEnd (JS.trimEnd s) = JS.trimEnd s.
Proof.
  induction s as [|c s IH]; [reflexivity|].
  cbn [JS.trimEnd]. destruct (JS.trimEnd s) as [|d r] eqn:E.
  - destruct (JS.is_space c) eqn:Sc; [reflexivity|].
    simpl. now rewrite Sc.
  - cbn [JS.trimEnd]. cbn [JS.trimEnd] in IH. rewrite IH. reflexivity.
Qed.

Lemma trimStart_head (s : string) :
  match JS.trimStart s with
  | EmptyString => True
  | String c _ => JS.is_space c = false
  end.
Proof.
  induction s as [|c s IH]; simpl; [exact I|].
  destruct (JS.is_space c) eqn:Sc; [exact IH | exact Sc].
Qed.

Lemma trim_idem (s : string) : JS.trim (JS.trim s) = JS.trim s.
Proof.
  unfold JS.trim. pose proof (trimStart_head s) as H.
  destruct (JS.trimStart s) as [|c r]; [reflexivity|].
  rewrite (trimEnd_cons c r H). cbn [JS.trimStart]. rewrite H.
  rewrite (trimEnd_cons c _ H). now rewrite trimEnd_idem.
Qed.

Lemma prefix_at (r : string) : prefix "@" (String "@" r) = true.
Proof. apply prefix_iff. now exists r. Qed.

Lemma replace_first_at (r : string) : JS.replace_first (String "@" r) "@" = r.
Proof. cbn [JS.replace_first]. now rewrite prefix_at. Qed.

Lemma cleanUsername_at (r : string) :
  cleanUsername (String "@" r) = JS.trim r.
Proof. unfold cleanUsername. now rewrite replace_first_at. Qed.

Lemma startsWith_at (h : string) :
  JSText.startsWith h "@" = true -> exists r, h = String "@" r.
Proof.
  unfold JSText.startsWith. intros H. apply prefix_iff in H.
  destruct H as [b ->]. now exists b.
Qed.

Lemma slice_app (a b : string) : JS.slice (length a) (a ++ b) = b.
Proof. induction a as [|c a IH]; simpl; [now destruct b | exact IH]. Qed.

Lemma exec_argument_here (cmd rest : string) :
  JSText.take_line rest = rest -> rest <> "" ->
  JSText.exec_argument cmd (cmd ++ rest) = Some rest.
Proof.
  intros L Hne.
  assert (U : forall text,
             JSText.exec_argument cmd text
             = let here := if prefix cmd text
                           then JSText.take_line (JS.slice (length cmd) text)
                           else "" in
               match here with
               | String _ _ => Some here
               | "" => match text with
                       | "" => None
                       | String _ r => JSText.exec_argument cmd r
                       end
               end).
  { intros text. destruct text; reflexivity. }
  rewrite U. cbv zeta. rewrite prefix_refl, slice_app, L.
  destruct rest; [congruence | reflexivity].
Qed.

Lemma take_line_app (a b : string) :
  JSText.take_line a = a ->
  JSText.take_line (a ++ b) = a ++ JSText.take_line b.
Proof.
  induction a as [|c a IH]; simpl; [reflexivity|].
  destruct (JSText.is_line_terminator c); [discriminate|].
  intros [= E]. now rewrite (IH E).
Qed.

Lemma space_or_terminator (c : ascii) :
  JS.is_space c = false ->
  JSText.is_line_terminator c = false /\ Ascii.eqb c " " = false.
Proof. destruct c as [[] [] [] [] [] [] [] []]; vm_compute; auto; discriminate. Qed.

Lemma no_space_line (s : string) :
  no_space s = true ->
  JSText.take_line s = s /\ free_of " " s = true.
Proof.
  induction s as [|c s IH]; simpl; [auto|].
  intros H. apply andb_prop in H. destruct H as [Hc Hs].
  apply negb_true_iff in Hc. destruct (space_or_terminator c Hc) as [-> ->].
  destruct (IH Hs) as [-> ->]. auto.
Qed.

Lemma digit_no_space (c : ascii) :
  JS.is_digit c = true -> JS.is_space c = false.
Proof. destruct c as [[] [] [] [] [] [] [] []]; vm_compute; auto. Qed.

Lemma date_no_space (d : string) :
  dateRegex_test d = true -> no_space d = true.
Proof.
  unfold dateRegex_test.
  destruct d as [|d1 [|d2 [|p1 [|m1 [|m2 [|p2 [|y1 [|y2 [|y3 [|y4 [|x s]]]]]]]]]]];
    try discriminate.
  intros H. apply andb_prop in H. destruct H as [H D].
  apply andb_prop in H. destruct H as [P1 P2].
  apply Ascii.eqb_eq in P1, P2. subst p1 p2.
  cbn [forallb] in D.
  repeat (apply andb_prop in D; destruct D as [?D D]).
  cbn [no_space].
  repeat match goal with
         | H : JS.is_digit _ = true |- _ =>
             rewrite (digit_no_space _ H); clear H
         end.
  reflexivity.
Qed.

Lemma strictDate_regex (d : string) :
  Spec.strictDate d <> None -> dateRegex_test d = true.
Proof.
  destruct (Spec.strictDate d) as [t|] eqn:E; [intros _|congruence].
  apply strictDate_parseDate in E. destruct E as [E _].
  now apply parseDate_regex in E.
Qed.

Lemma not_listed_handle (people : list Person) (clean : string) :
  clean <> "" ->
  existsb (sameUsername clean) people = false
  <-> forall q, In q people -> handle q <> JS.toLowerCase clean.
Proof.
  intros Hne. split.
  - intros H q Hq. 
    assert (F : sameUsername clean q = false).
    { destruct (sameUsername clean q) eqn:S; [|reflexivity].
      assert (X : existsb (sameUsername clean) people = true)
        by (apply existsb_exists; now exists q).
      congruence. }
    unfold sameUsername in F. unfold handle.
    destruct (telegramUsername q) as [u|].
    + now apply String.eqb_neq.
    + intros E. symmetry in E. apply toLowerCase_empty in E. contradiction.
  - intros H. apply not_true_iff_false. intros X.
    apply existsb_exists in X. destruct X as (q & Hq & S).
    apply (H q Hq). unfold sameUsername in S. unfold handle.
    destruct (telegramUsername q) as [u|]; [|discriminate].
    now apply String.eqb_eq.
Qed.

Lemma onAdd_cases (now : DateTime) (adminUsernames : list string)
    (people : list Person) (username : option string) (match1 : string) :
  let outcome := onAdd now adminUsernames people username match1 in
  (fst outcome = people /\ forall h, snd outcome <> AddDone h)
  \/ (exists d r rest,
        isAdmin adminUsernames username = true
        /\ JSText.split " " match1 = d :: String "@" r :: rest
        /\ snd outcome = AddDone (String "@" r)
        /\ fst outcome
           = fst (addPerson people (mkNewPerson r d (Some (JS.trim r))))
        /\ Dayjs.isValid (Dayjs.parse_strict now d) = true
        /\ JS.trim r <> ""
        /\ existsb (sameUsername (JS.trim r)) people = false).
Proof.
  cbv zeta. unfold onAdd.
  destruct (isAdmin adminUsernames username) eqn:A; cbn [negb];
    [|left; split; [reflexivity | discriminate]].
  destruct (JSText.split " " match1) as [|d [|h rest]] eqn:Sp;
    cbn [List.length Nat.ltb Nat.leb nth];
    try (left; split; [reflexivity | discriminate]).
  destruct (dateRegex_test d) eqn:Rx; cbn [negb];
    [|left; split; [reflexivity | discriminate]].
  destruct ((length h =? 0)%nat || negb (JSText.startsWith h "@")) eqn:At;
    [left; split; [reflexivity | discriminate]|].
  apply orb_false_elim in At. destruct At as [_ At].
  apply negb_false_iff in At. destruct (startsWith_at h At) as [r ->].
  rewrite replace_first_at.
  destruct (validated_add_cases now people r d (Some (String "@" r)))
    as [[e ->] | (h & Eh & Hh & Hc & _ & V & N & ->)].
  - left. split; [reflexivity | discriminate].
  - injection Eh as <-. right. exists d, r, rest.
    rewrite cleanUsername_at in *. cbn [fst snd]. repeat split; auto.
Qed.

(** X9: what [/add] can do to the roster.  Either the roster is unchanged and
    the reply is not the confirmation, or the sender is an administrator,
    the argument starts with a date and a word [@r], the reply confirms
    [@r], and one record is appended: its id is the next id, its name is
    [r], its username is [r] trimmed, which is not empty and was no one's
    username up to letter case, and its birth date is a valid date. *)
Theorem onAdd_effect (now : DateTime) (adminUsernames : list string)
    (people : list Person) (username : option string) (match1 : string) :
  wf now ->
  let outcome := onAdd now adminUsernames people username match1 in
  (fst outcome = people /\ forall h, snd outcome <> AddDone h)
  \/ (exists d r rest,
        isAdmin adminUsernames username = true
        /\ JSText.split " " match1 = d :: String "@" r :: rest
        /\ snd outcome = AddDone (String "@" r)
        /\ fst outcome
           = (people ++ [mkPerson (next_id people) r d (Some (JS.trim r))])%list
        /\ Spec.strictDate d <> None
        /\ JS.trim r <> ""
        /\ forall q, In q people -> handle q <> JS.toLowerCase (JS.trim r)).
Proof.
  intros Hwf. cbv zeta.
  destruct (onAdd_cases now adminUsernames people username match1)
    as [H | (d & r & rest & A & Sp & R & E & V & Hc & N)]; [now left|].
  right. exists d, r, rest. repeat split; auto.
  - rewrite (isValid_parse_strict now Hwf) in V.
    destruct (Spec.strictDate d); [discriminate | discriminate V].
  - now apply not_listed_handle.
Qed.

Lemma onAdd_effect_witness :
  let a := mkPerson 1 "A" "01.01.2000" (Some "a") in
  wf (Spec.noon 2024 5 15)
  /\ fst (onAdd (Spec.noon 2024 5 15) ["boss"] [a] (Some "Boss")
            "15.06.1990 @Bob extra")
     = [a; mkPerson 2 "Bob" "15.06.1990" (Some "Bob")].
Proof.
  cbv zeta. split; [exact wf_noon|].
  destruct (onAdd_effect (Spec.noon 2024 5 15) ["boss"]
              [mkPerson 1 "A" "01.01.2000" (Some "a")] (Some "Boss")
              "15.06.1990 @Bob extra" wf_noon)
    as [[_ N] | (d & r & rest & _ & Sp & _ & E & _)].
  - exfalso. apply (N "@Bob"). reflexivity.
  - injection Sp as <- <- _. exact E.
Defined.

(** X10: an administrator who sends [/add d @r], with [d] a valid date and [r]
    a word without white space that is no one's username yet, gets the
    person [r] appended with the next id, the birth date [d] and the
    username [r], and the confirmation for [@r]. *)
Theorem add_command_adds (now : DateTime) (adminUsernames : list string)
    (people : list Person) (username : option string) (d r : string) :
  isAdmin adminUsernames username = true ->
  Spec.strictDate d <> None ->
  r <> "" -> no_space r = true ->
  (forall q, In q people -> handle q <> JS.toLowerCase r) ->
  addCommand now adminUsernames people username ("/add " ++ d ++ " @" ++ r)
  = Some ((people ++ [mkPerson (next_id people) r d (Some r)])%list,
          AddDone (String "@" r)).
Proof.
  intros A Hd Hr Hs Hnew.
  pose proof (strictDate_regex d Hd) as Rx.
  destruct (no_space_line d (date_no_space d Rx)) as [Ld Fd].
  destruct (no_space_line r Hs) as [Lr Fr].
  unfold addCommand.
  rewrite (exec_argument_here "/add " (d ++ " @" ++ r)).
  - cbn [option_map]. unfold onAdd. rewrite A. cbn [negb].
    change (d ++ " @" ++ r) with (d ++ String " " (String "@" r)).
    rewrite (split_app " " d _ Fd).
    rewrite (split_free " " (String "@" r)) by (cbn [free_of]; now rewrite Fr).
    cbn [List.length Nat.ltb Nat.leb nth]. rewrite Rx. cbn [negb].
    cbn [length Nat.eqb orb JSText.startsWith]. 
    unfold JSText.startsWith. rewrite prefix_at. cbn [negb].
    rewrite replace_first_at.
    destruct (Spec.strictDate d) as [t|] eqn:Ed; [|congruence].
    rewrite (validated_add_succeeds now people r d (String "@" r) t Ed).
    + rewrite cleanUsername_at, (trim_no_space r Hs). reflexivity.
    + now rewrite cleanUsername_at, (trim_no_space r Hs).
    + rewrite cleanUsername_at, (trim_no_space r Hs). intros q h' Hq Eq E.
      apply (Hnew q Hq). unfold handle. now rewrite Eq.
  - rewrite (take_line_app d _ Ld).
    change (JSText.take_line (" @" ++ r))
      with (String " " (String "@" (JSText.take_line r))).
    now rewrite Lr.
  - destruct d; discriminate.
Qed.

Lemma add_command_adds_witness :
  addCommand (Spec.noon 2024 5 15) (parseAdmins (Some "boss")) []
    (Some "Boss") "/add 29.02.2000 @bob"
  = Some ([mkPerson 1 "bob" "29.02.2000" (Some "bob")], AddDone "@bob").
Proof.
  apply (add_command_adds (Spec.noon 2024 5 15) (parseAdmins (Some "boss")) []
           (Some "Boss") "29.02.2000" "bob").
  - reflexivity.
  - discriminate.
  - discriminate.
  - reflexivity.
  - intros q [].
Defined.

End Commands.

Section CommandEffects.

Import Admin Vocabulary.

Lemma trim_at (r : string) : JS.trim (String "@" r) = String "@" (JS.trimEnd r).
Proof.
  unfold JS.trim. cbn [JS.trimStart].
  change (JS.is_space "@") with false. cbv iota.
  now apply trimEnd_cons.
Qed.

(** X11: what [/remove] can do to the roster.  For a sender who is no
    administrator, and when nobody has the username asked for, up to letter
    case, the roster is unchanged.  Otherwise the removal is confirmed and
    the roster loses one record; when the ids of the roster are distinct,
    that record is the first one with the username and the others keep
    their order. *)
Theorem onRemove_effect (adminUsernames : list string) (people : list Person)
    (username : option string) (match1 : string) :
  let target := JS.replace_first (JS.trim match1) "@" in
  let outcome := onRemove adminUsernames people username match1 in
  (isAdmin adminUsernames username = false
   /\ outcome = (people, RemoveAdminOnly))
  \/ (isAdmin adminUsernames username = true
      /\ (forall q, In q people -> sameUsername target q = false)
      /\ outcome = (people, RemoveNotListed target))
  \/ (isAdmin adminUsernames username = true
      /\ snd outcome = RemoveDone target
      /\ S (List.length (fst outcome)) = List.length people
      /\ exists pre q post,
           people = (pre ++ q :: post)%list
           /\ sameUsername target q = true
           /\ (forall p, In p pre -> sameUsername target p = false)
           /\ (NoDup (map id people) -> fst outcome = (pre ++ post)%list)).
Proof.
  cbv zeta. unfold onRemove, getAllPeople.
  destruct (isAdmin adminUsernames username); cbn [negb]; [right | now left].
  set (target := JS.replace_first (JS.trim match1) "@").
  destruct (find (sameUsername target) people) as [q|] eqn:F.
  - right. cbn [fst snd].
    destruct (removePerson_found _ people q F)
      as (_ & Hlen & pre & post & E & Fq & Hpre & Hnd).
    repeat split; auto. now exists pre, q, post.
  - left. repeat split. intros q Hq. exact (find_none _ _ F q Hq).
Qed.

(** X12: [/remove] undoes [/add]: when the ids of the roster are safe
    integers, [/add] has confirmed [@r], and [r] does not start with white
    space, [/remove @r] from the same sender restores the roster as it was
    before the addition. *)
Theorem remove_undoes_add (now : DateTime) (adminUsernames : list string)
    (people people' : list Person) (username : option string)
    (match1 r : string) :
  Spec.safeIds people ->
  onAdd now adminUsernames people username match1
  = (people', AddDone (String "@" r)) ->
  JS.trimStart r = r ->
  onRemove adminUsernames people' username (String "@" r)
  = (people, RemoveDone (JS.trim r)).
Proof.
  intros Hs Hadd Hr.
  destruct (onAdd_cases now adminUsernames people username match1)
    as [[_ N] | (d & r' & rest & A & Sp & R & E & V & Hc & Hnew)];
    rewrite Hadd in *; cbn [fst snd] in *.
  - exfalso. exact (N _ eq_refl).
  - injection R as <-. unfold onRemove, getAllPeople. rewrite A. cbn [negb].
    rewrite trim_at, replace_first_at.
    assert (T : JS.trimEnd r = JS.trim r) by (unfold JS.trim; now rewrite Hr).
    rewrite T, E.
    set (c := mkNewPerson r d (Some (JS.trim r))).
    assert (F : find (sameUsername (JS.trim r)) (fst (addPerson people c))
                = Some (snd (addPerson people c))).
    { cbn [addPerson fst snd]. rewrite find_app_none.
      - cbn [find]. unfold sameUsername at 1. cbn [telegramUsername c
          new_telegramUsername]. now rewrite String.eqb_refl.
      - intros p Hp. destruct (sameUsername (JS.trim r) p) eqn:S; [|reflexivity].
        assert (X : existsb (sameUsername (JS.trim r)) people = true)
          by (apply existsb_exists; now exists p).
        congruence. }
    rewrite F, (addPerson_remove people c Hs). reflexivity.
Qed.

Lemma remove_undoes_add_witness :
  let a := mkPerson 1 "A" "01.01.2000" (Some "a") in
  onRemove ["boss"] [a; mkPerson 2 "Bob" "15.06.1990" (Some "Bob")]
    (Some "Boss") "@Bob"
  = ([a], RemoveDone "Bob").
Proof.
  cbv zeta.
  apply (remove_undoes_add (Spec.noon 2024 5 15) ["boss"]
           [mkPerson 1 "A" "01.01.2000" (Some "a")] _ (Some "Boss")
           "15.06.1990 @Bob" "Bob").
  - intros q [<- | []]. reflexivity.
  - reflexivity.
  - reflexivity.
Defined.

(** X13: the date format and the presence of the username are checked by the
    handler before the service is called, so of the errors of the validated
    addition only three reach the chat: the date that is no valid date, the
    username that is empty once cleaned, and the username already listed.
    The roster is then unchanged. *)
Theorem onAdd_refusals (now : DateTime) (adminUsernames : list string)
    (people : list Person) (username : option string) (match1 : string)
    (e : AddError) :
  snd (onAdd now adminUsernames people username match1) = AddRefused e ->
  fst (onAdd now adminUsernames people username match1) = people
  /\ (e = BadDate \/ e = UsernameEmpty \/ exists clean, e = AlreadyListed clean).
Proof.
  unfold onAdd.
  destruct (isAdmin adminUsernames username); cbn [negb]; [|discriminate].
  destruct (JSText.split " " match1) as [|d [|h rest]];
    cbn [List.length Nat.ltb Nat.leb nth]; try discriminate.
  destruct (dateRegex_test d) eqn:Rx; cbn [negb]; [|discriminate].
  destruct ((length h =? 0)%nat || negb (JSText.startsWith h "@")) eqn:At;
    [discriminate|].
  apply orb_false_elim in At. destruct At as [_ At].
  apply negb_false_iff in At. destruct (startsWith_at h At) as [r ->].
  unfold addPersonFromTelegramWithValidation. rewrite Rx. cbn [negb].
  destruct (Dayjs.isValid (Dayjs.parse_strict now d)); cbn [negb].
  - destruct (length (cleanUsername (String "@" r)) =? 0)%nat.
    + cbn [fst snd]. intros [= <-]. auto.
    + destruct (existsb _ people).
      * cbn [fst snd]. intros [= <-]. split; [reflexivity|].
        right. right. now eexists.
      * cbn [addPerson fst snd]. discriminate.
  - cbn [fst snd]. intros [= <-]. auto.
Qed.

Lemma onAdd_refusals_witness :
  fst (onAdd (Spec.noon 2024 5 15) ["boss"] [] (Some "boss")
         "31.02.2000 @bob") = [].
Proof.
  destruct (onAdd_refusals (Spec.noon 2024 5 15) ["boss"] [] (Some "boss")
              "31.02.2000 @bob" BadDate eq_refl) as [H _].
  exact H.
Defined.

End CommandEffects.

(** ** What the roster keeps *)

Section Invariant.

Import Vocabulary.

Lemma NoDup_snoc {A : Type} (l : list A) (x : A) :
  NoDup l -> ~ In x l -> NoDup (l ++ [x]).
Proof.
  induction l as [|a l IH]; intros Hnd Hx; simpl.
  - constructor; [intros [] | constructor].
  - apply NoDup_cons_iff in Hnd. destruct Hnd as [Ha Hnd].
    constructor.
    + intros Hin. apply in_app_or in Hin. destruct Hin as [Hin | [<- | []]].
      * contradiction.
      * apply Hx. now left.
    + apply IH; [exact Hnd|]. intros Hin. apply Hx. now right.
Qed.

Lemma tidy_remove (people : list Person) (i : Z) :
  tidy people -> tidy (fst (removePerson people i)).
Proof.
  intros (Hid & Hh & Hall). split; [now apply removePerson_NoDup|].
  unfold removePerson.
  destruct (JS.findIndex (fun person => id person =? i) people) as [k|];
    cbn [fst]; [|now split].
  split.
  - rewrite map_splice1. now apply NoDup_splice1.
  - intros p Hp. apply Hall. now apply splice1_incl in Hp.
Qed.

Lemma tidy_add (now : DateTime) (people : list Person) (n b : string)
    (u : option string) :
  wf now -> Spec.safeIds people -> tidy people ->
  tidy (fst (addPersonFromTelegramWithValidation now people n b u)).
Proof.
  intros Hwf Hs Ht.
  destruct (validated_add_cases now people n b u)
    as [[e ->] | (h & _ & _ & Hc & _ & V & N & ->)]; cbn [fst]; [exact Ht|].
  destruct Ht as (Hid & Hh & Hall).
  split; [now apply (addPerson_NoDup people)|].
  cbn [addPerson fst new_name new_birthDate new_telegramUsername]. split.
  - rewrite map_app. cbn [map]. apply NoDup_snoc; [exact Hh|].
    intros Hin. apply in_map_iff in Hin. destruct Hin as (q & Eq & Hq).
    revert Eq. unfold handle at 2. cbn [telegramUsername].
    now apply (not_listed_handle people (cleanUsername h) Hc).
  - intros p Hp. apply in_app_or in Hp. destruct Hp as [Hp | [<- | []]];
      [now apply Hall|].
    cbn [telegramUsername birthDate]. split.
    + exists (cleanUsername h). repeat split; auto.
      unfold cleanUsername. apply trim_idem.
    + rewrite (isValid_parse_strict now Hwf) in V.
      destruct (Spec.strictDate b); [discriminate | discriminate V].
Qed.

Lemma room_serve (n : nat) (people : list Person) (r : Request) :
  Spec.room (S n) people -> Spec.room n (serve people r).
Proof.
  intros R.
  assert (W : Spec.room n people).
  { destruct R as [Hn H]. split; [lia|]. intros p Hp.
    specialize (H p Hp). lia. }
  destruct r as [now nm b u | i | nm]; cbn [serve].
  - destruct (validated_add_cases now people nm b u)
      as [[e ->] | (h & _ & _ & _ & _ & _ & _ & ->)]; cbn [fst]; [exact W|].
    now apply room_addPerson.
  - now apply room_removePerson.
  - unfold removePersonByName. destruct (find _ people) as [q|]; [|exact W].
    now apply room_removePerson.
Qed.

(** X14: a roster in which the ids are distinct, the usernames are
    present, not empty, free of white space around them and distinct up to
    letter case, and the birth dates are valid dates, stays so under every
    sequence of validated additions, removals by id and removals by name,
    as long as the ids are safe integers and stay so. *)
Theorem roster_stays_tidy (people : list Person) (rs : list Request) :
  tidy people -> Forall timely rs -> Spec.room (List.length rs) people ->
  tidy (serveAll people rs).
Proof.
  unfold serveAll. revert people.
  induction rs as [|r rs IH]; intros people Ht Hrs R; [exact Ht|].
  apply Forall_cons_iff in Hrs. destruct Hrs as [Hr Hrs].
  cbn [fold_left List.length] in *.
  apply IH; [|exact Hrs | now apply room_serve].
  destruct r as [now n b u | i | n]; cbn [serve].
  - apply tidy_add; [exact Hr | now apply (room_safe (S (List.length rs))) |].
    exact Ht.
  - now apply tidy_remove.
  - unfold removePersonByName. destruct (find _ people) as [q|]; [|exact Ht].
    now apply tidy_remove.
Qed.

Lemma roster_stays_tidy_witness :
  tidy (serveAll []
          [Add (Spec.noon 2024 5 15) "A" "01.01.2000" (Some "@a");
           Add (Spec.noon 2024 5 15) "B" "31.02.2000" (Some "@b");
           Add (Spec.noon 2024 5 15) "C" "03.03.2002" (Some "@A");
           Add (Spec.noon 2024 5 15) "D" "04.04.2003" (Some "@d");
           Remove 1]).
Proof.
  apply roster_stays_tidy.
  - split; [constructor|]. split; [constructor|]. intros p [].
  - repeat (apply Forall_cons; [first [exact wf_noon | exact I]|]).
    apply Forall_nil.
  - split; [reflexivity | intros p []].
Defined.

End Invariant.

(** ** The roster file *)

Section RosterFile.

Variable stringify : list Person -> string.
Variable parse : string -> option (list Person).

Lemma save_writes (io : Storage.Faults) (d : Storage.Disk)
    (people : list Person) :
  Storage.write_fails io = false ->
  Storage.dataDir d = true \/ Storage.mkdir_fails io = false ->
  Storage.saveDataToFile stringify io d people = Storage.mkDisk true (Some (stringify people)).
Proof.
  intros W D. unfold Storage.saveDataToFile, Storage.ensureDir.
  destruct (Storage.dataDir d) eqn:Dir.
  - now rewrite W, Dir.
  - destruct D as [D | D]; [discriminate|]. now rewrite D, W.
Qed.

Lemma load_reads (io : Storage.Faults) (content : string) :
  Storage.read_fails io = false ->
  Storage.loadDataFromFile stringify parse io (Storage.mkDisk true (Some content))
  = (Storage.mkDisk true (Some content),
     match parse content with Some people => people | None => [] end).
Proof.
  intros R. unfold Storage.loadDataFromFile, Storage.ensureDir.
  cbn [Storage.dataDir Storage.dataFile]. rewrite R.
  now destruct (parse content).
Qed.

(** X15: a restart after a change: when the file can be written, and later
    read, and [JSON.parse] gives back the roster that [JSON.stringify]
    wrote, the roster loaded after [addPerson], or after a [removePerson]
    that returned true, is the roster that was in memory. *)
Theorem restart_recovers_roster (io io' : Storage.Faults) (d : Storage.Disk)
    (people : list Person) (c : NewPerson) (i : Z) :
  Storage.write_fails io = false ->
  Storage.dataDir d = true \/ Storage.mkdir_fails io = false ->
  Storage.read_fails io' = false ->
  (let '(d', people', _) := Storage.addPerson stringify io d people c in
   parse (stringify people') = Some people' ->
   snd (Storage.loadDataFromFile stringify parse io' d') = people')
  /\ (let '(d', people', flag) := Storage.removePerson stringify io d people i in
      flag = true ->
      parse (stringify people') = Some people' ->
      snd (Storage.loadDataFromFile stringify parse io' d') = people').
Proof.
  intros W D R. split.
  - unfold Storage.addPerson. cbn [addPerson]. intros P.
    rewrite (save_writes io d _ W D), (load_reads io' _ R), P. reflexivity.
  - unfold Storage.removePerson.
    destruct (JS.findIndex (fun person => id person =? i) people) as [k|];
      [|discriminate].
    intros _ P.
    rewrite (save_writes io d _ W D), (load_reads io' _ R), P. reflexivity.
Qed.

(** X16: a file that cannot be read or parsed is lost: the service starts with
    the empty roster, and the first addition that is written replaces the
    content of the file by the new person alone, with the id 1. *)
Theorem unreadable_file_is_replaced (io io' : Storage.Faults)
    (d : Storage.Disk) (content : string) (c : NewPerson) :
  Storage.dataFile d = Some content ->
  Storage.read_fails io = true \/ parse content = None ->
  Storage.dataDir d = true ->
  Storage.write_fails io' = false ->
  let '(d1, people1) := Storage.loadDataFromFile stringify parse io d in
  let '(d2, people2, p) := Storage.addPerson stringify io' d1 people1 c in
  people1 = [] /\ d1 = d
  /\ id p = 1 /\ people2 = [p]
  /\ Storage.dataFile d2 = Some (stringify [p]).
Proof.
  intros F B Dir W.
  assert (L : Storage.loadDataFromFile stringify parse io d = (d, [])).
  { unfold Storage.loadDataFromFile, Storage.ensureDir. rewrite Dir, F.
    destruct (Storage.read_fails io); [reflexivity|].
    destruct B as [B | B]; [discriminate | now rewrite B]. }
  rewrite L. unfold Storage.addPerson. cbn [addPerson next_id map].
  rewrite (save_writes io' d _ W (or_introl Dir)). cbn. auto.
Qed.

(** X17: a failed write is not reported: [addPerson] returns the new person and
    the roster in memory holds it, while the file is as it was, so that a
    restart loads the roster that was written last, without that person. *)
Theorem failed_write_is_silent (io io' : Storage.Faults) (d : Storage.Disk)
    (people : list Person) (c : NewPerson) :
  Storage.dataDir d = true ->
  Storage.dataFile d = Some (stringify people) ->
  parse (stringify people) = Some people ->
  Storage.write_fails io = true ->
  Storage.read_fails io' = false ->
  let '(d', people', p) := Storage.addPerson stringify io d people c in
  people' = (people ++ [p])%list
  /\ d' = d
  /\ snd (Storage.loadDataFromFile stringify parse io' d') = people.
Proof.
  intros Dir F P W R. unfold Storage.addPerson. cbn [addPerson].
  unfold Storage.saveDataToFile, Storage.ensureDir. rewrite Dir, W.
  split; [reflexivity|]. split; [reflexivity|].
  unfold Storage.loadDataFromFile, Storage.ensureDir.
  now rewrite Dir, F, R, P.
Qed.

End RosterFile.

Lemma restart_recovers_roster_witness :
  let stringify := fun people : list Person =>
    match people with [] => "[]" | _ :: _ => "[...]" end in
  let parse := fun s : string =>
    if String.eqb s "[]" then Some ([] : list Person) else None in
  let io := Storage.mkFaults false false false in
  let d := Storage.mkDisk false None in
  let a := mkPerson 1 "A" "01.01.2000" (Some "a") in
  snd (Storage.loadDataFromFile stringify parse io
         (fst (fst (Storage.removePerson stringify io d [a] 1)))) = [].
Proof.
  intros stringify parse. cbv zeta.
  destruct (restart_recovers_roster stringify parse
              (Storage.mkFaults false false false)
              (Storage.mkFaults false false false)
              (Storage.mkDisk false None)
              [mkPerson 1 "A" "01.01.2000" (Some "a")]
              (mkNewPerson "B" "02.02.2001" None) 1
              eq_refl (or_intror eq_refl) eq_refl) as [_ H].
  exact (H eq_refl eq_refl).
Defined.

Lemma unreadable_file_is_replaced_witness :
  let stringify := fun people : list Person =>
    match people with [] => "[]" | _ :: _ => "[...]" end in
  let parse := fun s : string =>
    if String.eqb s "[]" then Some ([] : list Person) else None in
  let io := Storage.mkFaults false false false in
  let d := Storage.mkDisk true (Some "{oops") in
  let '(d1, people1) := Storage.loadDataFromFile stringify parse io d in
  let '(d2, people2, p) :=
    Storage.addPerson stringify io d1 people1
      (mkNewPerson "B" "02.02.2001" None) in
  people1 = [] /\ id p = 1 /\ Storage.dataFile d2 = Some "[...]".
Proof.
  intros stringify parse. cbv zeta.
  pose proof (unreadable_file_is_replaced stringify parse
                (Storage.mkFaults false false false)
                (Storage.mkFaults false false false)
                (Storage.mkDisk true (Some "{oops")) "{oops"
                (mkNewPerson "B" "02.02.2001" None)
                eq_refl (or_intror eq_refl) eq_refl eq_refl) as H.
  cbv beta iota zeta delta [Storage.loadDataFromFile Storage.ensureDir
    Storage.dataDir Storage.dataFile Storage.read_fails parse String.eqb
    Ascii.eqb Bool.eqb Storage.addPerson addPerson] in H |- *.
  destruct H as (H1 & _ & H2 & _ & H3). auto.
Defined.

Lemma failed_write_is_silent_witness :
  let stringify := fun people : list Person =>
    match people with [] => "[]" | _ :: _ => "[...]" end in
  let parse := fun s : string =>
    if String.eqb s "[]" then Some ([] : list Person) else None in
  let io := Storage.mkFaults false false true in
  let io' := Storage.mkFaults false false false in
  let d := Storage.mkDisk true (Some "[]") in
  let a := mkNewPerson "A" "01.01.2000" (Some "a") in
  snd (fst (Storage.addPerson stringify io d [] a))
  = [mkPerson 1 "A" "01.01.2000" (Some "a")]
  /\ snd (Storage.loadDataFromFile stringify parse io'
            (fst (fst (Storage.addPerson stringify io d [] a)))) = [].
Proof.
  intros stringify parse. cbv zeta.
  pose proof (failed_write_is_silent stringify parse
                (Storage.mkFaults false false true)
                (Storage.mkFaults false false false)
                (Storage.mkDisk true (Some "[]")) []
                (mkNewPerson "A" "01.01.2000" (Some "a"))
                eq_refl eq_refl eq_refl eq_refl eq_refl) as H.
  cbv beta iota zeta delta [Storage.addPerson addPerson] in H |- *.
  destruct H as (H1 & _ & H3). cbn [fst snd]. split; [exact H1 | exact H3].
Defined.

(** ** Records at the edges of the calendar *)

Section CalendarEdges.

Lemma makeDate_overflow (y M d : Z) :
  100 <= y -> 0 <= M <= 10 -> daysInMonth y M < d <= 31 ->
  makeDate y M d = mkDateTime y (M + 1) (d - daysInMonth y M) 0.
Proof.
  intros Hy HM Hd. unfold makeDate.
  rewrite (fullYear_id y Hy), Z.div_small, Z.mod_small, Z.add_0_r by lia.
  pose proof (daysInMonth_bounds y M) as B.
  pose proof (daysInMonth_bounds y (M + 1)) as B'.
  destruct (Z.to_nat d) as [|[|f]] eqn:E; [lia | lia |]. cbn [roll].
  destruct (Z.leb_spec d (daysInMonth y M)); [lia|].
  destruct (Z.eqb_spec M 11); [lia|].
  now destruct (Z.leb_spec (d - daysInMonth y M) (daysInMonth y (M + 1)));
    [|lia].
Qed.

(** X18: a date DD.MM.YYYY whose day runs past the end of its month, such
    as 31.02.2000, is rejected by the validated addition and has the age
    0, and yet has a birthday: strict mode leaves the fields of the date
    that the parser made, which is the day past the end counted into the
    following month. *)
Theorem impossible_date_rolls_over (now : DateTime) (p : Person)
    (d m y : Z) :
  wf now ->
  100 <= y <= 9999 -> 1 <= m <= 11 -> daysInMonth y (m - 1) < d <= 31 ->
  birthDate p = Spec.showDate d m y ->
  Spec.strictDate (birthDate p) = None
  /\ (forall people n u,
        addPersonFromTelegramWithValidation now people n (birthDate p) u
        = (people, inr BadDate))
  /\ getPersonAge now p = 0
  /\ isBirthdayOn now p
     = (d - daysInMonth y (m - 1) =? day now) && (m =? month now).
Proof.
  intros Hwf Hy Hm Hd Hp.
  pose proof (daysInMonth_bounds y (m - 1)) as B.
  destruct (number2_two d) as (d1 & d2 & Ed & Hd1 & Hd2 & Nd); [lia|].
  destruct (number2_two m) as (m1 & m2 & Em & Hm1 & Hm2 & Nm); [lia|].
  destruct (number4_four y) as (y1 & y2 & y3 & y4 & Ey & Hy1 & Hy2 & Hy3 & Hy4 & Ny);
    [lia|].
  assert (Es : birthDate p
               = String d1 (String d2 (String "." (String m1 (String m2
                   (String "." (String y1 (String y2 (String y3
                      (String y4 ""))))))))))
    by (rewrite Hp; unfold Spec.showDate; now rewrite Ed, Em, Ey).
  assert (S : Spec.strictDate (birthDate p) = None).
  { rewrite Es. unfold Spec.strictDate, Spec.parseDate.
    cbn [append Ascii.eqb Bool.eqb forallb andb].
    rewrite Hd1, Hd2, Hm1, Hm2, Hy1, Hy2, Hy3, Hy4. cbn [andb].
    rewrite Nd, Nm, Ny. unfold Spec.realDate.
    destruct (Z.leb_spec d (daysInMonth y (m - 1))); [lia|].
    now rewrite andb_false_r. }
  assert (P : Dayjs.parseFormattedInput now (birthDate p)
              = Some (mkDateTime y m (d - daysInMonth y (m - 1)) 0)).
  { rewrite Es. unfold Dayjs.parseFormattedInput.
    rewrite (run_parser_prefix d1 d2 m1 m2 _ Hd1 Hd2 Hm1 Hm2).
    rewrite (exec_digits_four y1 y2 y3 y4 _ Hy1 Hy2 Hy3 Hy4).
    cbn [Dayjs.t_day Dayjs.t_month Dayjs.t_year].
    replace (JS.to_number (String y1 (String y2 (String y3 (String y4 "")))))
      with y
      by (rewrite <- Ny; unfold JS.to_number, Spec.number4;
          cbn [JS.to_number_acc]; lia).
    rewrite Nd, Nm. unfold Dayjs.truthy.
    destruct (Z.eqb_spec d 0); [lia|]. destruct (Z.eqb_spec y 0); [lia|].
    destruct (Z.eqb_spec m 0); [lia|]. destruct (Z.ltb_spec 0 m); [|lia].
    cbn [negb andb]. f_equal.
    rewrite (makeDate_overflow y (m - 1) d) by lia.
    now replace (m - 1 + 1) with m by lia. }
  split; [exact S|]. split; [|split].
  - intros people n u. unfold addPersonFromTelegramWithValidation.
    replace (dateRegex_test (birthDate p)) with true.
    + cbn [negb]. now rewrite (isValid_parse_strict now Hwf), S.
    + rewrite Es. unfold dateRegex_test.
      cbn [Ascii.eqb Bool.eqb forallb andb].
      now rewrite Hd1, Hd2, Hm1, Hm2, Hy1, Hy2, Hy3, Hy4.
  - unfold getPersonAge. now rewrite (parse_strict_spec now Hwf), S.
  - now rewrite isBirthdayOn_read, P.
Qed.

Lemma impossible_date_rolls_over_witness :
  let p := mkPerson 7 "X" "31.02.2000" (Some "x") in
  isBirthdayOn (Spec.noon 2024 2 2) p = true
  /\ getPersonAge (Spec.noon 2024 2 2) p = 0.
Proof.
  cbv zeta.
  assert (W : wf (Spec.noon 2024 2 2)) by (repeat split; now vm_compute).
  destruct (impossible_date_rolls_over (Spec.noon 2024 2 2)
              (mkPerson 7 "X" "31.02.2000" (Some "x")) 31 2 2000 W)
    as (_ & _ & A & B); try (cbn; lia); [reflexivity|].
  split; [rewrite B; reflexivity | exact A].
Defined.

(** X19: a person born on 29 February has a birthday exactly on the days that
    are 29 February: in a year without that day the person is selected on
    no day, neither on 28 February nor on 1 March. *)
Theorem leap_day_birthday (now birth : DateTime) (p : Person) :
  wf now ->
  Spec.strictDate (birthDate p) = Some birth ->
  month birth = 1 -> day birth = 29 ->
  (isBirthdayOn now p = true <-> month now = 1 /\ day now = 29)
  /\ (isLeap (year now) = false -> isBirthdayOn now p = false).
Proof.
  intros Hwf Hb Hm Hd.
  rewrite (isBirthdayOn_valid now p birth Hb), Hm, Hd.
  split.
  - rewrite andb_true_iff, !Z.eqb_eq. split; intros [A B]; split; congruence.
  - intros L. destruct Hwf as (_ & HM & HD & _).
    destruct (Z.eqb_spec 1 (month now)) as [E | _];
      [|now rewrite andb_false_r].
    rewrite <- E in HD. unfold daysInMonth in HD. rewrite L in HD.
    cbn in HD. destruct (Z.eqb_spec 29 (day now)); [lia | reflexivity].
Qed.

Lemma leap_day_birthday_witness :
  isBirthdayOn (Spec.noon 2023 1 28) (mkPerson 1 "L" "29.02.2000" (Some "l"))
  = false.
Proof.
  assert (Hwf : wf (Spec.noon 2023 1 28)) by (repeat split; now vm_compute).
  destruct (leap_day_birthday (Spec.noon 2023 1 28) (mkDateTime 2000 1 29 0)
              (mkPerson 1 "L" "29.02.2000" (Some "l")) Hwf
              eq_refl eq_refl eq_refl) as [_ H].
  apply H. reflexivity.
Defined.

Lemma absFloor_nonpos (x : Q) : (x < 1)%Q -> Dayjs.absFloor x <= 0.
Proof.
  intros H. unfold Dayjs.absFloor. destruct (Qle_bool 0 x) eqn:E.
  - assert (F : (inject_Z (Qfloor x) < inject_Z 1)%Q)
      by (apply Qle_lt_trans with x; [apply Qfloor_le | exact H]).
    rewrite <- Zlt_Qlt in F. lia.
  - assert (N : (x <= 0)%Q).
    { apply Qlt_le_weak. apply Qnot_le_lt. intros L.
      apply Qle_bool_iff in L. congruence. }
    apply Qceiling_resp_le in N. exact N.
Qed.

Lemma absFloor_lower (x : Q) (k : Z) :
  k <= 0 -> (inject_Z (k - 1) < x)%Q -> k <= Dayjs.absFloor x.
Proof.
  intros Hk H. unfold Dayjs.absFloor. destruct (Qle_bool 0 x) eqn:E.
  - apply Qle_bool_iff in E. apply Qfloor_resp_le in E.
    change (Qfloor 0) with 0 in E. lia.
  - assert (F : (inject_Z (k - 1) < inject_Z (Qceiling x))%Q)
      by (apply Qlt_le_trans with x; [exact H | apply Qle_ceiling]).
    rewrite <- Zlt_Qlt in F. lia.
Qed.

(** X20: the age of a person whose birth date is the reference day or a later
    day is never positive, and not below the difference of the years: no
    birth date is too late for [getPersonAge]. *)
Theorem age_of_later_birth (now birth : DateTime) (p : Person) :
  wf now ->
  Spec.strictDate (birthDate p) = Some birth ->
  Spec.notBefore birth now ->
  year now - year birth <= getPersonAge now p <= 0.
Proof.
  intros Hwf Hb Hnb.
  unfold getPersonAge. rewrite (parse_strict_complete now birth _ Hb).
  apply strictDate_parseDate in Hb. destruct Hb as (Hp & _ & Hms).
  apply parseDate_real in Hp. unfold Spec.realDate in Hp.
  repeat (apply andb_prop in Hp; destruct Hp as [Hp ?]).
  replace (month birth + 1 - 1) with (month birth) in * by lia.
  destruct now as [Y M D t], birth as [Y0 M0 D0 t0].
  unfold wf, Spec.notBefore in *. cbn [year month day millis] in *.
  destruct Hwf as (_ & HM & HD & Ht). subst t0.
  unfold Dayjs.diff_year, Dayjs.monthDiff. cbn [Dayjs.value Dayjs.wrap day].
  assert (K : forall md : Q,
             (inject_Z ((Y - Y0) * 12 - 12) < md)%Q -> (md < 1)%Q ->
             Y - Y0 <= Dayjs.absFloor (md / inject_Z 12) <= 0).
  { intros md Hl Hu. change (inject_Z 12) with 12%Q. split.
    - apply absFloor_lower; [lia|].
      apply Qlt_shift_div_l; [reflexivity|].
      replace ((Y - Y0) * 12 - 12) with ((Y - Y0 - 1) * 12) in Hl by lia.
      rewrite inject_Z_mult in Hl. exact Hl.
    - apply absFloor_nonpos. apply Qlt_shift_div_r; [reflexivity|]. lra. }
  destruct (Z.ltb_spec D D0) as [Hlt | Hge].
  - destruct (monthDiff_core_shape Y0 M0 D0 0 Y M D t)
      as (q & -> & Hq); try lia; try (unfold msPerDay; lia).
    cbv zeta in Hq.
    assert (Hw : (inject_Z ((Y - Y0) * 12 + (M - M0)) <= 0)%Q)
      by (change 0%Q with (inject_Z 0); rewrite <- Zle_Qle; lia).
    assert (Hw' : (inject_Z ((Y - Y0) * 12 - 12) + 1
                   <= inject_Z ((Y - Y0) * 12 + (M - M0)))%Q).
    { change 1%Q with (inject_Z 1). rewrite <- inject_Z_plus, <- Zle_Qle. lia. }
    assert (Hq1 : (-1 < q /\ q < 1)%Q).
    { destruct (_ || _).
      - destruct Hq as [Hq Hq']. change (inject_Z 0) with 0%Q in Hq'.
        change (inject_Z (-1)) with (-1)%Q in Hq. lra.
      - destruct Hq as [[Hq Hq'] _]. change (inject_Z 0) with 0%Q in Hq.
        change (inject_Z 1) with 1%Q in Hq'. lra. }
    apply K; lra.
  - destruct (monthDiff_core_shape Y M D t Y0 M0 D0 0)
      as (q & -> & Hq); try lia; try (unfold msPerDay; lia).
    cbv zeta in Hq.
    assert (Hw : (0 <= inject_Z ((Y0 - Y) * 12 + (M0 - M)))%Q)
      by (change 0%Q with (inject_Z 0); rewrite <- Zle_Qle; lia).
    assert (Hw' : (inject_Z ((Y - Y0) * 12 - 12) + 1
                   <= - inject_Z ((Y0 - Y) * 12 + (M0 - M)))%Q).
    { change 1%Q with (inject_Z 1).
      rewrite <- inject_Z_opp, <- inject_Z_plus, <- Zle_Qle. lia. }
    assert (Hq1 : (-1 < q /\ q < 1)%Q).
    { destruct (_ || _).
      - destruct Hq as [Hq Hq']. change (inject_Z 0) with 0%Q in Hq'.
        change (inject_Z (-1)) with (-1)%Q in Hq. lra.
      - destruct Hq as [[Hq Hq'] _]. change (inject_Z 0) with 0%Q in Hq.
        change (inject_Z 1) with 1%Q in Hq'. lra. }
    apply K; lra.
Qed.

Lemma age_of_later_birth_witness :
  2024 - 2030
  <= getPersonAge (Spec.noon 2024 5 15)
       (mkPerson 1 "F" "15.06.2030" (Some "f")) <= 0.
Proof.
  apply (age_of_later_birth (Spec.noon 2024 5 15) (mkDateTime 2030 5 15 0)).
  - exact wf_noon.
  - reflexivity.
  - left. cbn. lia.
Defined.

End CalendarEdges.

(** ** The first revision of [addPerson] *)

Section UnguardedAdd.

Lemma Math_max_NegInfinity (ids : list FirstRevision.Num) :
  (forall i, In i ids -> i = FirstRevision.NegInfinity) ->
  FirstRevision.Math_max ids = FirstRevision.NegInfinity.
Proof.
  unfold FirstRevision.Math_max.
  induction ids as [|i ids IH]; intros H; [reflexivity|].
  cbn [fold_left]. rewrite (H i (or_introl eq_refl)).
  apply IH. intros j Hj. apply H. now right.
Qed.

Lemma addAll_NegInfinity (cs : list NewPerson)
    (people : list FirstRevision.Person) :
  (forall p, In p people -> FirstRevision.id p = FirstRevision.NegInfinity) ->
  forall p, In p (FirstRevision.addAll people cs) ->
            FirstRevision.id p = FirstRevision.NegInfinity.
Proof.
  unfold FirstRevision.addAll. revert people.
  induction cs as [|c cs IH]; intros people H; [exact H|].
  cbn [fold_left]. apply IH. cbn [FirstRevision.addPerson fst].
  intros p Hp. apply in_app_or in Hp. destruct Hp as [Hp | [<- | []]];
    [now apply H|].
  cbn [FirstRevision.id]. rewrite Math_max_NegInfinity; [reflexivity|].
  intros i Hi. apply in_map_iff in Hi. destruct Hi as (q & <- & Hq).
  now apply H.
Qed.

(** X21: without the guard for the empty roster, every person added to a roster
    that started empty gets the id [-Infinity]: no integer id is found, and
    removing the id of any of them removes the first person of the
    roster. *)
Theorem unguarded_add_from_empty (cs : list NewPerson) :
  let people := FirstRevision.addAll [] cs in
  (forall p, In p people -> FirstRevision.id p = FirstRevision.NegInfinity)
  /\ (forall z, FirstRevision.getPersonById people (FirstRevision.Int z) = None)
  /\ (forall p, In p people ->
        FirstRevision.getPersonById people (FirstRevision.id p)
        = hd_error people
        /\ FirstRevision.removePerson people (FirstRevision.id p)
           = (tl people, true)).
Proof.
  cbv zeta.
  assert (H : forall p, In p (FirstRevision.addAll [] cs) ->
                        FirstRevision.id p = FirstRevision.NegInfinity)
    by (apply addAll_NegInfinity; intros p []).
  split; [exact H|]. split.
  - intros z. unfold FirstRevision.getPersonById.
    apply find_none_all. intros p Hp. now rewrite (H p Hp).
  - intros p Hp. rewrite (H p Hp).
    destruct (FirstRevision.addAll [] cs) as [|q l]; [destruct Hp|].
    unfold FirstRevision.getPersonById, FirstRevision.removePerson.
    cbn [find JS.findIndex]. rewrite (H q (or_introl eq_refl)).
    cbn [FirstRevision.num_eq]. split; reflexivity.
Qed.

Lemma unguarded_add_from_empty_witness :
  let people :=
    FirstRevision.addAll []
      [mkNewPerson "A" "01.01.2000" None; mkNewPerson "B" "02.02.2001" None] in
  FirstRevision.removePerson people FirstRevision.NegInfinity
  = ([FirstRevision.mkPerson FirstRevision.NegInfinity "B" "02.02.2001" None],
     true).
Proof.
  cbv zeta.
  destruct (unguarded_add_from_empty
              [mkNewPerson "A" "01.01.2000" None;
               mkNewPerson "B" "02.02.2001" None]) as (_ & _ & H).
  destruct (H (FirstRevision.mkPerson FirstRevision.NegInfinity
                 "B" "02.02.2001" None)) as [_ R].
  - right. now left.
  - exact R.
Defined.

Lemma fold_num_max (ids : list Z) (a : Z) :
  fold_left FirstRevision.num_max (map FirstRevision.Int ids)
    (FirstRevision.Int a)
  = FirstRevision.Int (fold_left Z.max ids a).
Proof.
  revert a. induction ids as [|i ids IH]; intros a; [reflexivity|].
  cbn [map fold_left FirstRevision.num_max]. apply IH.
Qed.

(** X22: on a roster that is not empty the first revision assigns the id that
    the later revisions assign: the guard matters for the empty roster
    only. *)
Theorem unguarded_add_agrees (people : list Person) (c : NewPerson) :
  people <> [] ->
  FirstRevision.addPerson (map FirstRevision.of_person people) c
  = (map FirstRevision.of_person (fst (addPerson people c)),
     FirstRevision.of_person (snd (addPerson people c))).
Proof.
  intros Hne.
  assert (E : FirstRevision.num_succ
                (FirstRevision.Math_max
                   (map FirstRevision.id (map FirstRevision.of_person people)))
              = FirstRevision.Int (next_id people)).
  { destruct people as [|q l]; [congruence|].
    unfold FirstRevision.Math_max, next_id.
    rewrite map_map. cbn [map fold_left FirstRevision.of_person
      FirstRevision.id FirstRevision.num_max].
    rewrite <- (map_map id FirstRevision.Int), fold_num_max. reflexivity. }
  unfold FirstRevision.addPerson, addPerson. rewrite E.
  cbn [fst snd]. rewrite map_app. reflexivity.
Qed.

Lemma unguarded_add_agrees_witness :
  FirstRevision.id
    (snd (FirstRevision.addPerson
            (map FirstRevision.of_person
               [mkPerson 1 "A" "01.01.2000" None;
                mkPerson 3 "B" "02.02.2001" None])
            (mkNewPerson "C" "03.03.2002" None)))
  = FirstRevision.Int 4.
Proof.
  rewrite unguarded_add_agrees by discriminate. reflexivity.
Defined.

End UnguardedAdd.

(** ** The text-only daily job *)

Section TextOnlyJob.

Variable birthdayPeopleAt : DateTime -> list Person -> list Person.
Variable ageAt : DateTime -> Person -> Z.

Lemma run_text_for_of (env : Env) (chatId : string) (l : list Person)
    (n : nat) (trace : list Call) :
  run env (for_of l (TextOnly.sendBirthdayCongratulations ageAt chatId))
    n trace
  = (inl tt, (n + 2 * List.length l)%nat,
     (trace ++ TextOnly.owedTexts ageAt env chatId n l)%list).
Proof.
  revert n trace. induction l as [|p l IH]; intros n trace.
  - cbn. now rewrite app_nil_r, Nat.add_0_r.
  - cbn [for_of TextOnly.owedTexts]. rewrite run_bind.
    unfold TextOnly.sendBirthdayCongratulations at 1, await.
    cbn [run try_catch].
    assert (E : forall t,
               run env (for_of l (TextOnly.sendBirthdayCongratulations
                                    ageAt chatId)) (S (S n)) t
               = (inl tt, (n + 2 * List.length (p :: l))%nat,
                  (t ++ TextOnly.owedTexts ageAt env chatId (n + 2) l)%list)).
    { intros t. rewrite IH. do 2 f_equal; [cbn [List.length]; lia|].
      now replace (n + 2)%nat with (S (S n)) by lia. }
    destruct (env_outcome env (S n)); cbn [run try_catch];
      rewrite E; now rewrite <- app_assoc.
Qed.

(** X23: the text-only job: whatever the transport answers, one fire sends one
    text to each person with a birthday, in the order of the roster, goes
    on after a failed send, and throws nothing; it makes one clock reading
    and one send for each person. *)
Theorem text_job_notifies_each (env : Env) (chatId : string)
    (people : list Person) :
  let birthdayPeople := birthdayPeopleAt (env_clock env 0) people in
  let outcome :=
    run env (TextOnly.checkBirthdays birthdayPeopleAt ageAt chatId people)
      0 [] in
  outcome
  = (inl tt, (1 + 2 * List.length birthdayPeople)%nat,
     TextOnly.owedTexts ageAt env chatId 1 birthdayPeople)
  /\ map Spec.mentioned (snd outcome) = map mentionOf birthdayPeople
  /\ filter Spec.isPhoto (snd outcome) = [].
Proof.
  cbv zeta.
  assert (E : run env (TextOnly.checkBirthdays birthdayPeopleAt ageAt chatId
                         people) 0 []
              = (inl tt,
                 (1 + 2 * List.length
                            (birthdayPeopleAt (env_clock env 0) people))%nat,
                 TextOnly.owedTexts ageAt env chatId 1
                   (birthdayPeopleAt (env_clock env 0) people))).
  { unfold TextOnly.checkBirthdays. cbn [run].
    destruct (birthdayPeopleAt (env_clock env 0) people) as [|p l];
      [reflexivity|].
    cbn [List.length Nat.eqb]. now rewrite run_text_for_of. }
  rewrite E. cbn [snd]. split; [reflexivity|]. clear E.
  generalize 1%nat.
  induction (birthdayPeopleAt (env_clock env 0) people) as [|p l IH];
    intros n; [now split|].
  cbn [TextOnly.owedTexts map filter Spec.isPhoto Spec.mentioned mention].
  destruct (IH (n + 2)%nat) as [-> ->]. now split.
Qed.

End TextOnlyJob.

(** ** The evaluator on valid birth dates *)

Section ValidDates.

(** X24: a person whose birth date is a valid date DD.MM.YYYY, of the year
    100 or later, is selected by the birthday check exactly on the days
    whose day and month are those of the birth date; the years of the two
    dates and the time of day play no part. *)
Theorem valid_birthday_selected (now : DateTime) (people : list Person)
    (p : Person) (d m y : Z) :
  Spec.parseDate (birthDate p) = Some (d, m, y) -> 100 <= y ->
  isBirthdayOn now p = (d =? day now) && (m =? month now + 1)
  /\ (In p (getPeopleWithBirthdayToday now people)
      <-> In p people /\ d = day now /\ m = month now + 1).
Proof.
  intros H Hy.
  assert (E : isBirthdayOn now p = (d =? day now) && (m =? month now + 1)).
  { rewrite (isBirthdayOn_valid now p (mkDateTime y (m - 1) d 0)).
    - cbn [day month]. f_equal.
      destruct (Z.eqb_spec (m - 1) (month now)),
               (Z.eqb_spec m (month now + 1)); try reflexivity; lia.
    - unfold Spec.strictDate. rewrite H.
      now destruct (Z.leb_spec 100 y); [|lia]. }
  split; [exact E|].
  unfold getPeopleWithBirthdayToday. rewrite filter_In, E. split.
  - intros [Hin Hb]. apply andb_prop in Hb. destruct Hb as [H1 H2].
    apply Z.eqb_eq in H1, H2. auto.
  - intros (Hin & -> & ->). now rewrite !Z.eqb_refl.
Qed.

Lemma valid_birthday_selected_witness :
  let ivan := mkPerson 1 "Ivan" "15.06.1990" (Some "ivan") in
  isBirthdayOn (Spec.noon 2024 5 15) ivan = true
  /\ isBirthdayOn (Spec.noon 1990 5 15) ivan = true
  /\ isBirthdayOn (Spec.noon 2024 5 16) ivan = false
  /\ In ivan (getPeopleWithBirthdayToday (Spec.noon 2024 5 15) [ivan]).
Proof.
  cbv zeta.
  assert (W : forall now,
            isBirthdayOn now (mkPerson 1 "Ivan" "15.06.1990" (Some "ivan"))
            = (15 =? day now) && (6 =? month now + 1)).
  { intros now.
    apply (valid_birthday_selected now []
             (mkPerson 1 "Ivan" "15.06.1990" (Some "ivan")) 15 6 1990);
      [reflexivity | lia]. }
  split; [apply W|]. split; [apply W|]. split; [apply W|].
  apply (valid_birthday_selected (Spec.noon 2024 5 15)
           [mkPerson 1 "Ivan" "15.06.1990" (Some "ivan")]
           (mkPerson 1 "Ivan" "15.06.1990" (Some "ivan")) 15 6 1990);
    [reflexivity | lia |].
  split; [now left | split; reflexivity].
Defined.

(** X25: the statistics.  [total] is the size of the roster and
    [averagePerMonth] prints, with one decimal, the number of tenths
    nearest to [total / 12], the larger of two nearest; [monthlyStats]
    lists the months 1 to 12 in order.  When every birth date of the roster
    is valid, [thisMonth] and [nextMonth] count the people born in the
    reference month and in the month after it, December being followed by
    January, each month of [monthlyStats] has the count of the people born
    in it, and these counts add up to [total].  Three people born in June
    give 3, 0, 3 and "0.3" in June. *)
Theorem birthday_stats (now : DateTime) (people : list Person) :
  let st := getBirthdayStats now people in
  let tenths := Spec.tenthsOfAverage (total st) in
  (total st = Z.of_nat (List.length people)
   /\ averagePerMonth st
      = JS.String_of (tenths / 10) ++ "." ++ JS.String_of (tenths mod 10)
   /\ 12 * tenths - 6 <= 10 * total st < 12 * tenths + 6
   /\ map stat_month (monthlyStats st) = Spec.months)
  /\ (Forall (fun p => Spec.hasBirthMonth p = true) people ->
      thisMonth st = Spec.countBorn (month now + 1) people
      /\ nextMonth st = Spec.countBorn ((month now + 1) mod 12 + 1) people
      /\ monthlyStats st
         = map (fun m => mkMonthStat m (Spec.countBorn m people)) Spec.months
      /\ fold_right Z.add 0 (map stat_count (monthlyStats st)) = total st)
  /\ (month now = 5 -> List.length people = 3%nat ->
      Forall (fun p => Spec.bornInMonth 6 p = true) people ->
      thisMonth st = 3 /\ nextMonth st = 0 /\ total st = 3
      /\ averagePerMonth st = "0.3").
Proof.
  intros st tenths.
  assert (Ht : total st = Z.of_nat (List.length people)) by reflexivity.
  assert (Ha : averagePerMonth st
               = JS.String_of (tenths / 10) ++ "." ++ JS.String_of (tenths mod 10)).
  { subst st tenths. cbn [getBirthdayStats averagePerMonth total].
    unfold JS.toFixed1. now rewrite average_tenths. }
  assert (Hvalid : Forall (fun p => Spec.hasBirthMonth p = true) people ->
            thisMonth st = Spec.countBorn (month now + 1) people
            /\ nextMonth st
               = Spec.countBorn ((month now + 1) mod 12 + 1) people
            /\ monthlyStats st
               = map (fun m => mkMonthStat m (Spec.countBorn m people))
                   Spec.months).
  { intros Hv. split; [|split].
    - apply (countMonth_countBorn now people (month now) Hv).
    - apply (countMonth_countBorn now people ((month now + 1) mod 12) Hv).
    - subst st. cbn [getBirthdayStats monthlyStats seq map Spec.months].
      rewrite !(countMonth_countBorn now people _ Hv). reflexivity. }
  split; [|split].
  - split; [exact Ht|]. split; [exact Ha|]. split; [|reflexivity].
    subst tenths. unfold Spec.tenthsOfAverage. Z.div_mod_to_equations. lia.
  - intros Hv. destruct (Hvalid Hv) as (Hthis & Hnext & Hm).
    split; [exact Hthis|]. split; [exact Hnext|]. split; [exact Hm|].
    rewrite Hm, map_map. cbn [stat_count]. rewrite countBorn_sum, Ht.
    now rewrite (filter_all _ _ Hv).
  - intros Hjune Hlen Hall.
    assert (Hv : Forall (fun p => Spec.hasBirthMonth p = true) people).
    { eapply Forall_impl; [|exact Hall]. intros p Hp. cbv beta in Hp.
      unfold Spec.bornInMonth in Hp. unfold Spec.hasBirthMonth.
      now destruct (Spec.strictDate (birthDate p)). }
    destruct (Hvalid Hv) as (Hthis & Hnext & _).
    assert (T3 : total st = 3) by (rewrite Ht, Hlen; reflexivity).
    split; [|split; [|split; [exact T3|]]].
    + rewrite Hthis, Hjune. change (5 + 1) with 6.
      unfold Spec.countBorn. rewrite (filter_all _ _ Hall), Hlen. reflexivity.
    + rewrite Hnext, Hjune. change ((5 + 1) mod 12 + 1) with 7.
      unfold Spec.countBorn. rewrite filter_none; [reflexivity|].
      eapply Forall_impl; [|exact Hall]. intros p Hp. cbv beta in Hp.
      now apply (bornInMonth_unique 6 7 p Hp).
    + rewrite Ha. subst tenths. rewrite T3. reflexivity.
Qed.

Lemma birthday_stats_witness :
  let people := [mkPerson 1 "A" "15.06.1990" (Some "a");
                 mkPerson 2 "B" "01.06.1985" None;
                 mkPerson 3 "C" "30.06.2001" (Some "c")] in
  let st := getBirthdayStats (Spec.noon 2024 5 15) people in
  thisMonth st = 3 /\ nextMonth st = 0 /\ total st = 3
  /\ averagePerMonth st = "0.3".
Proof.
  destruct (birthday_stats (Spec.noon 2024 5 15)
              [mkPerson 1 "A" "15.06.1990" (Some "a");
               mkPerson 2 "B" "01.06.1985" None;
               mkPerson 3 "C" "30.06.2001" (Some "c")])
    as (_ & _ & H).
  apply H; [reflexivity | reflexivity |].
  repeat constructor.
Defined.

End ValidDates.
